(** * kv: browsing and editing the versions of a Key Vault secret

    A shallow embedding of the Go packages of the repository

    - [pkg/keyvault]     (client.go: listing and ordering the versions),
    - [internal/tui]     (model.go: the browse session),
    - [internal/difftui] (the positional diff and the review session),
    - [pkg/cmd/edit]     (runEdit: the edit workflow and its temp file),
    - [pkg/cmd/root]     (ExitWithError),

    followed by the properties of the specification that were checked
    against it.

    Conventions.  A Go [string] is a sequence of bytes: it is a
    [String.string] here, [len] is its number of bytes and indexing is by
    byte.  A Go [int] is 64 bits wide: integers are in [Z], and [wrap64] is
    written where an operand comes from the terminal (window sizes); the
    indices and line numbers of a slice stay far below 2^63.  Code that can
    panic or loop returns an [outcome].

    What the packages call in their dependencies is embedded as far as
    the properties depend on it: [sort.Slice] of the standard library,
    the viewport of [bubbles], the event loop of Bubble Tea and the
    styles of [lipgloss]. *)

From Stdlib Require Import ZArith List String Ascii Bool Lia Arith.
From Stdlib Require Import Permutation Sorted.
From Stdlib Require Import Numbers.DecimalString.
Import ListNotations.

Local Open Scope string_scope.
Local Open Scope list_scope.
Local Open Scope Z_scope.

(* ================================================================== *)
(** * Go runtime: integers, results, strings                           *)
(* ================================================================== *)

(** Two's complement wrap-around of a 64-bit [int]. *)
Definition wrap64 (z : Z) : Z := (z + 2 ^ 63) mod 2 ^ 64 - 2 ^ 63.

(** Truncated division of two [int]s (Go rounds towards zero). *)
Definition int_div (a b : Z) : Z := wrap64 (Z.quot a b).
Definition int_sub (a b : Z) : Z := wrap64 (a - b).

(** What a call does: it returns, it panics (a run-time error such as a
    slice bound out of range), or the loop inside it was cut by the fuel
    of the model. *)
Inductive outcome (A : Type) : Type :=
| Ok (a : A)
| Panic (msg : string)
| OutOfFuel.
Arguments Ok {A} a.
Arguments Panic {A} msg.
Arguments OutOfFuel {A}.

Definition bind {A B : Type} (c : outcome A) (k : A -> outcome B) : outcome B :=
  match c with
  | Ok a => k a
  | Panic msg => Panic msg
  | OutOfFuel => OutOfFuel
  end.

Notation "x <- c ;; k" := (bind c (fun x => k))
  (at level 61, c at next level, right associativity).

Module strings.

Definition space : ascii := " "%char.
Definition newline : ascii := "010"%char.
Definition NL : string := String newline "".

(** [len(s)] *)
Definition len (s : string) : Z := Z.of_nat (String.length s).

(** [s[:n]] and [s[n:]] for an index already checked to be in bounds. *)
Fixpoint take (n : nat) (s : string) : string :=
  match n, s with
  | O, _ => ""
  | S _, "" => ""
  | S n', String c r => String c (take n' r)
  end.

Fixpoint drop (n : nat) (s : string) : string :=
  match n, s with
  | O, _ => s
  | S _, "" => ""
  | S n', String _ r => drop n' r
  end.

(** [s[i] == ' '] for an index in bounds. *)
Definition is_space_at (s : string) (i : Z) : bool :=
  match String.get (Z.to_nat i) s with
  | Some c => Ascii.eqb c space
  | None => false
  end.

(** [strings.TrimLeft(s, " ")] *)
Fixpoint TrimLeft_space (s : string) : string :=
  match s with
  | "" => ""
  | String c r => if Ascii.eqb c space then TrimLeft_space r else s
  end.

(** [strings.TrimRight(s, "\n")] *)
Fixpoint TrimRight_newline (s : string) : string :=
  match s with
  | "" => ""
  | String c r =>
      match TrimRight_newline r with
      | "" => if Ascii.eqb c newline then "" else String c ""
      | r' => String c r'
      end
  end.

(** [strings.Split(s, "\n")]: one more piece than there are newlines. *)
Fixpoint Split_newline (s : string) : list string :=
  match s with
  | "" => [""]
  | String c r =>
      if Ascii.eqb c newline then "" :: Split_newline r
      else match Split_newline r with
           | h :: t => String c h :: t
           | [] => [String c ""]
           end
  end.

(** [strings.ReplaceAll(s, "\r\n", "\n")] *)
Definition carriageReturn : ascii := "013"%char.

Fixpoint ReplaceAll_CRLF (s : string) : string :=
  match s with
  | "" => ""
  | String c r =>
      match r with
      | String c' r' =>
          if Ascii.eqb c carriageReturn && Ascii.eqb c' newline
          then String newline (ReplaceAll_CRLF r')
          else String c (ReplaceAll_CRLF r)
      | "" => String c ""
      end
  end.

(** [fmt.Sprintf("%d", n)] *)
Definition Sprintf_d (n : Z) : string := NilEmpty.string_of_int (Z.to_int n).

Fixpoint spaces (n : nat) : string :=
  match n with
  | O => ""
  | S n' => String space (spaces n')
  end.

(** [result.WriteString(s)] on a [strings.Builder] holding [result]. *)
Definition WriteString (result s : string) : string := String.append result s.

End strings.

(* ================================================================== *)
(** * wrapLine                                                         *)
(* ================================================================== *)

(** [internal/tui] and [internal/difftui] each carry a copy of [wrapLine];
    the two copies are the same text, embedded once here and named in
    both packages below. *)
Module wrap.
Import strings.

(** The inner loop
    [for i := width; i > width-20 && i > 0; i-- { if i < len(remaining)
    && remaining[i] == ' ' { breakPoint = i; break } }],
    started with [breakPoint = width].  It runs at most twenty times,
    which is the [k] it is called with. *)
Fixpoint scanBreak (k : nat) (width : Z) (remaining : string) (i : Z) : Z :=
  match k with
  | O => width
  | S k' =>
      if (i >? int_sub width 20) && (i >? 0) then
        if (i <? len remaining) && is_space_at remaining i then i
        else scanBreak k' width remaining (i - 1)
      else width
  end.

(** The outer loop [for len(remaining) > 0 { ... }]. *)
Fixpoint wrapLoop (fuel : nat) (width : Z) (remaining : string)
                  (wrapped : list string) : outcome (list string) :=
  match fuel with
  | O => OutOfFuel
  | S fuel' =>
      if len remaining >? 0 then
        if len remaining <=? width then Ok (wrapped ++ [remaining])
        else
          let breakPoint := scanBreak 20 width remaining width in
          let breakPoint :=
            if breakPoint >=? len remaining then width else breakPoint in
          if (breakPoint <? 0) || (breakPoint >? len remaining) then
            Panic "slice bounds out of range"
          else
            wrapLoop fuel' width
              (TrimLeft_space (drop (Z.to_nat breakPoint) remaining))
              (wrapped ++ [take (Z.to_nat breakPoint) remaining])
      else Ok wrapped
  end.

Definition wrapLineFuel (fuel : nat) (line : string) (width : Z)
  : outcome (list string) :=
  if len line <=? width then Ok [line]
  else wrapLoop fuel width line [].

(** One unit of fuel per byte of the line and one more: enough for every
    positive width (each round then consumes a byte), and a line that
    exhausts it loops for ever ([wrapLine_out_of_fuel_diverges]). *)
Definition wrapLine (line : string) (width : Z) : outcome (list string) :=
  wrapLineFuel (S (String.length line)) line width.

End wrap.

(* ================================================================== *)
(** * External components the packages are written against             *)
(* ================================================================== *)

(** Bubble Tea messages and commands, as far as the two sessions look at
    them: a key press (by its [String()]), a window size, anything else;
    the command is [nil] or [tea.Quit]. *)
Module tea.

Inductive Msg : Type :=
| KeyMsg (key : string)
| WindowSizeMsg (Width Height : Z)
| OtherMsg.

Inductive Cmd : Type :=
| NoCmd
| Quit.

End tea.

(** Lipgloss styles, as they render where the output has no colour
    profile: the colours of a style are escape sequences around the text
    and are left out.  What stays is the layout.  Every [Render] turns a
    tab into four spaces.  [lineNumStyle] has [Width(4)] and
    [Align(Right)]: a text of more than four cells is cut into rows of
    four, and every row is padded on the left to four cells.  The
    sessions hand [lineNumStyle] a decimal number, the empty string or
    four spaces, so a cell is a byte. *)
Module lipgloss.
Import strings.

Definition tab : ascii := "009"%char.

Fixpoint convertTabs (s : string) : string :=
  match s with
  | "" => ""
  | String c r =>
      if Ascii.eqb c tab then String.append "    " (convertTabs r)
      else String c (convertTabs r)
  end.

(** The rows a text is cut into at four cells ([fuel] is the length of
    the text, which is more than enough). *)
Fixpoint hardWrap4 (fuel : nat) (s : string) : list string :=
  match fuel with
  | O => [s]
  | S fuel' =>
      if (String.length s <=? 4)%nat then [s]
      else take 4 s :: hardWrap4 fuel' (drop 4 s)
  end.

Definition alignRight4 (row : string) : string :=
  String.append (spaces (4 - String.length row)%nat) row.

Definition lineNumStyle_Render (s : string) : string :=
  let s := convertTabs s in
  String.concat NL (map alignRight4 (hardWrap4 (String.length s) s)).

Definition removedLineStyle_Render (s : string) : string := convertTabs s.
Definition addedLineStyle_Render (s : string) : string := convertTabs s.
Definition unchangedLineStyle_Render (s : string) : string := convertTabs s.

End lipgloss.

(** The viewport of [github.com/charmbracelet/bubbles], which is a
    dependency and not a part of the repository.  The sessions read and
    write its exported fields [Width], [Height] and [YOffset] and call
    [New], [SetContent], [SetYOffset], [GotoTop] and [Update]; this is the
    vertical-position logic of that component.  Every change of [YOffset]
    goes through [SetYOffset], which clamps it to the scroll range of the
    viewport's own content.  The moves also gather the rows that come
    into view, with a slice expression on [m.lines]: the rows are dropped
    by the sessions, but the expression panics when its bounds are out
    of range, which a negative [Height] brings about. *)
Module viewport.
Import strings.

Record Model : Type := mkModel {
  Width : Z;
  Height : Z;
  YOffset : Z;
  lines : list string
}.

(** The zero value of the struct (a session that has seen no window
    size yet holds it). *)
Definition zero : Model := mkModel 0 0 0 [].

Definition New (width height : Z) : Model := mkModel width height 0 [].

Definition set_Width (m : Model) (w : Z) : Model :=
  mkModel w (Height m) (YOffset m) (lines m).
Definition set_Height (m : Model) (h : Z) : Model :=
  mkModel (Width m) h (YOffset m) (lines m).

Definition clamp (v low high : Z) : Z := Z.min high (Z.max low v).

Definition maxYOffset (m : Model) : Z :=
  Z.max 0 (Z.of_nat (List.length (lines m)) - Height m).

Definition AtTop (m : Model) : bool := YOffset m <=? 0.
Definition AtBottom (m : Model) : bool := YOffset m >=? maxYOffset m.

Definition SetYOffset (m : Model) (n : Z) : Model :=
  mkModel (Width m) (Height m) (clamp n 0 (maxYOffset m)) (lines m).

(** [m.lines[top:bottom]].  [m.lines] is what [strings.Split] returned
    (or nil), a slice without spare capacity: the expression panics
    unless [0 <= top <= bottom <= len(m.lines)]. *)
Definition slice (m : Model) (top bottom : Z) : outcome (list string) :=
  if (0 <=? top) && (top <=? bottom)
     && (bottom <=? Z.of_nat (List.length (lines m)))
  then Ok (firstn (Z.to_nat (bottom - top)) (skipn (Z.to_nat top) (lines m)))
  else Panic "slice bounds out of range".

Definition visibleLines (m : Model) : outcome (list string) :=
  if (0 <? List.length (lines m))%nat then
    let top := Z.max 0 (YOffset m) in
    let bottom :=
      clamp (YOffset m + Height m) top (Z.of_nat (List.length (lines m))) in
    slice m top bottom
  else Ok [].

Definition GotoTop (m : Model) : outcome Model :=
  if AtTop m then Ok m
  else
    let m := SetYOffset m 0 in
    _ <- visibleLines m ;;
    Ok m.

Definition GotoBottom (m : Model) : outcome Model :=
  let m := SetYOffset m (maxYOffset m) in
  _ <- visibleLines m ;;
  Ok m.

Definition SetContent (m : Model) (s : string) : outcome Model :=
  let s := ReplaceAll_CRLF s in
  let m := mkModel (Width m) (Height m) (YOffset m) (Split_newline s) in
  if YOffset m >? Z.of_nat (List.length (lines m)) - 1 then GotoBottom m
  else Ok m.

Definition LineDown (m : Model) (n : Z) : outcome Model :=
  if AtBottom m || (n =? 0) || (List.length (lines m) =? 0)%nat then Ok m
  else
    let m := SetYOffset m (YOffset m + n) in
    let bottom :=
      clamp (YOffset m + Height m) 0 (Z.of_nat (List.length (lines m))) in
    let top := clamp (YOffset m + Height m - n) 0 bottom in
    _ <- slice m top bottom ;;
    Ok m.

Definition LineUp (m : Model) (n : Z) : outcome Model :=
  if AtTop m || (n =? 0) || (List.length (lines m) =? 0)%nat then Ok m
  else
    let m := SetYOffset m (YOffset m - n) in
    let top := Z.max 0 (YOffset m) in
    let bottom := clamp (YOffset m + n) 0 (maxYOffset m) in
    _ <- slice m top bottom ;;
    Ok m.

Definition ViewDown (m : Model) : outcome Model :=
  if AtBottom m then Ok m else LineDown m (Height m).
Definition ViewUp (m : Model) : outcome Model :=
  if AtTop m then Ok m else LineUp m (Height m).
Definition HalfViewDown (m : Model) : outcome Model :=
  if AtBottom m then Ok m else LineDown m (Z.quot (Height m) 2).
Definition HalfViewUp (m : Model) : outcome Model :=
  if AtTop m then Ok m else LineUp m (Z.quot (Height m) 2).

Definition key_in (k : string) (ks : list string) : bool :=
  existsb (String.eqb k) ks.

(** The default key map. *)
Definition Update (m : Model) (msg : tea.Msg) : outcome Model :=
  match msg with
  | tea.KeyMsg k =>
      if key_in k ["pgdown"; " "; "f"] then ViewDown m
      else if key_in k ["pgup"; "b"] then ViewUp m
      else if key_in k ["d"; "ctrl+d"] then HalfViewDown m
      else if key_in k ["u"; "ctrl+u"] then HalfViewUp m
      else if key_in k ["down"; "j"] then LineDown m 1
      else if key_in k ["up"; "k"] then LineUp m 1
      else Ok m
  | _ => Ok m
  end.

End viewport.

(* ================================================================== *)
(** * pkg/keyvault (src/pkg/keyvault/client.go)                        *)
(* ================================================================== *)

Module keyvault.

(** [time.Time] is an instant; [After] compares instants. *)
Definition Time : Type := Z.
Definition After (t u : Time) : bool := t >? u.

Record SecretVersion : Type := mkSecretVersion {
  Version : string;
  Value : string;
  Enabled : bool;
  CreatedOn : option Time;
  UpdatedOn : option Time;
  ExpiresOn : option Time;
  Tags : list (string * string)
}.

(** The closure handed to [sort.Slice], on the two elements it reads. *)
Definition less (vi vj : SecretVersion) : bool :=
  match CreatedOn vi with
  | None => false
  | Some ti =>
      match CreatedOn vj with
      | None => true
      | Some tj => After ti tj
      end
  end.

(** The end of [ListSecretVersions]: [versions] is what the paging loop
    has appended, [sort_Slice] is Go's [sort.Slice] (standard library). *)
Definition ListSecretVersions
    (sort_Slice : (SecretVersion -> SecretVersion -> bool) ->
                  list SecretVersion -> list SecretVersion)
    (versions : list SecretVersion) : list SecretVersion :=
  sort_Slice less versions.

End keyvault.

(* ================================================================== *)
(** * sort.Slice and the order of the versions                         *)
(* ================================================================== *)

(** Go's [sort.Slice] belongs to the standard library.  Its documentation
    gives the contract used here: the slice is reordered in place (the
    result is a permutation), it ends up in ascending order of [less] when
    [less] is a transitive ordering, and "the sort is not guaranteed to be
    stable: equal elements may be reversed from their original order". *)
Module sort.

Section Contract.
Context {A : Type}.

(** What a [less] function has to be. *)
Definition StrictWeakOrdering (less : A -> A -> bool) : Prop :=
  (forall a b, less a b = true -> less b a = false) /\
  (forall a b c, less a b = true -> less b c = true -> less a c = true) /\
  (forall a b c, less a b = false -> less b c = false -> less a c = false).

(** [a] may stand before [b]: [b] is not less than [a]. *)
Definition notAfter (less : A -> A -> bool) (a b : A) : Prop :=
  less b a = false.

(** [sort.SliceIsSorted]: no element is less than the one before it. *)
Definition IsSorted (less : A -> A -> bool) (l : list A) : Prop :=
  Sorted (notAfter less) l.

(** One round of an insertion sort that puts [x] in front of the
    elements it is not less than. *)
Fixpoint insertFront (less : A -> A -> bool) (x : A) (l : list A) : list A :=
  match l with
  | [] => [x]
  | y :: r => if less y x then y :: insertFront less x r else x :: y :: r
  end.

(** A sort within the contract that reverses equal elements. *)
Definition reversingSort (less : A -> A -> bool) (l : list A) : list A :=
  fold_left (fun sorted x => insertFront less x sorted) l [].

End Contract.

(** ** The algorithm of [sort.Slice]

    [sort.Slice(x, less)] of the standard library (sort/slice.go) runs
    [pdqsort_func] (sort/zsortfunc.go) on the slice, through the two
    operations [data.Less(i, j)], which is [less] on the elements now at
    [i] and [j], and [data.Swap(i, j)].  The slice is a list here, every
    operation hands the new list on, and the indices are natural
    numbers.  The loops that count are written with the number of rounds
    they can make at most. *)
Section Pdqsort.
Context {A : Type} (less : A -> A -> bool).

Definition Less (data : list A) (i j : nat) : bool :=
  match nth_error data i, nth_error data j with
  | Some x, Some y => less x y
  | _, _ => false
  end.

Fixpoint store (data : list A) (i : nat) (x : A) : list A :=
  match data, i with
  | [], _ => []
  | _ :: r, O => x :: r
  | y :: r, S i' => y :: store r i' x
  end.

Definition Swap (data : list A) (i j : nat) : list A :=
  match nth_error data i, nth_error data j with
  | Some x, Some y => store (store data i y) j x
  | _, _ => data
  end.

(** [for j := i; j > a && data.Less(j, j-1); j-- { data.Swap(j, j-1) }] *)
Fixpoint insertionSort_inner (rounds : nat) (data : list A) (a j : nat)
  : list A :=
  match rounds with
  | O => data
  | S rounds' =>
      if (a <? j)%nat && Less data j (j - 1)
      then insertionSort_inner rounds' (Swap data j (j - 1)) a (j - 1)
      else data
  end.

(** [for i := a + 1; i < b; i++] *)
Fixpoint insertionSort_outer (rounds : nat) (data : list A) (a b i : nat)
  : list A :=
  match rounds with
  | O => data
  | S rounds' =>
      if (i <? b)%nat
      then insertionSort_outer rounds' (insertionSort_inner (i - a) data a i)
                               a b (S i)
      else data
  end.

Definition insertionSort_func (data : list A) (a b : nat) : list A :=
  insertionSort_outer (b - a) data a b (a + 1).

(** [siftDown_func]: the loop ends when the child is out of the heap
    or the root is not less than it. *)
Fixpoint siftDown_loop (rounds : nat) (data : list A) (root hi first : nat)
  : list A :=
  match rounds with
  | O => data
  | S rounds' =>
      let child := (2 * root + 1)%nat in
      if (hi <=? child)%nat then data
      else
        let child :=
          if (child + 1 <? hi)%nat
             && Less data (first + child) (first + child + 1)
          then (child + 1)%nat else child in
        if negb (Less data (first + root) (first + child)) then data
        else siftDown_loop rounds' (Swap data (first + root) (first + child))
                           child hi first
  end.

Definition siftDown_func (data : list A) (lo hi first : nat) : list A :=
  siftDown_loop hi data lo hi first.

(** [for i := (hi - 1) / 2; i >= 0; i--]: [count] is one more than the
    index of the round. *)
Fixpoint heapSort_build (count : nat) (data : list A) (hi first : nat)
  : list A :=
  match count with
  | O => data
  | S i => heapSort_build i (siftDown_func data i hi first) hi first
  end.

(** [for i := hi - 1; i >= 0; i--] *)
Fixpoint heapSort_pop (count : nat) (data : list A) (first : nat) : list A :=
  match count with
  | O => data
  | S i =>
      heapSort_pop i (siftDown_func (Swap data first (first + i)) 0 i first)
                   first
  end.

Definition heapSort_func (data : list A) (a b : nat) : list A :=
  let first := a in
  let hi := (b - a)%nat in
  let data := heapSort_build (S ((hi - 1) / 2)) data hi first in
  heapSort_pop hi data first.

(** [for i <= j && cond(i) { i++ }] and [for i <= j && cond(j) { j-- }] *)
Fixpoint scanUp (rounds : nat) (cond : nat -> bool) (i j : nat) : nat :=
  match rounds with
  | O => i
  | S rounds' =>
      if (i <=? j)%nat && cond i then scanUp rounds' cond (S i) j else i
  end.

Fixpoint scanDown (rounds : nat) (cond : nat -> bool) (i j : nat) : nat :=
  match rounds with
  | O => j
  | S rounds' =>
      if (i <=? j)%nat && cond j then scanDown rounds' cond i (j - 1) else j
  end.

(** The [for { ... }] of [partition_func]. *)
Fixpoint partition_loop (rounds : nat) (data : list A) (a i j : nat)
  : list A * nat :=
  match rounds with
  | O => (data, j)
  | S rounds' =>
      let i := scanUp (S j - i) (fun i => Less data i a) i j in
      let j := scanDown (S j - i) (fun j => negb (Less data j a)) i j in
      if (j <? i)%nat then (data, j)
      else partition_loop rounds' (Swap data i j) a (S i) (j - 1)
  end.

Definition partition_func (data : list A) (a b pivot : nat)
  : list A * nat * bool :=
  let data := Swap data a pivot in
  let i := (a + 1)%nat in
  let j := (b - 1)%nat in
  let i := scanUp (S j - i) (fun i => Less data i a) i j in
  let j := scanDown (S j - i) (fun j => negb (Less data j a)) i j in
  if (j <? i)%nat then (Swap data j a, j, true)
  else
    let data := Swap data i j in
    let r := partition_loop (b - a) data a (S i) (j - 1) in
    (Swap (fst r) (snd r) a, snd r, false).

(** The [for { ... }] of [partitionEqual_func]. *)
Fixpoint partitionEqual_loop (rounds : nat) (data : list A) (a i j : nat)
  : list A * nat :=
  match rounds with
  | O => (data, i)
  | S rounds' =>
      let i := scanUp (S j - i) (fun i => negb (Less data a i)) i j in
      let j := scanDown (S j - i) (fun j => Less data a j) i j in
      if (j <? i)%nat then (data, i)
      else partitionEqual_loop rounds' (Swap data i j) a (S i) (j - 1)
  end.

Definition partitionEqual_func (data : list A) (a b pivot : nat)
  : list A * nat :=
  let data := Swap data a pivot in
  partitionEqual_loop (S (b - a)) data a (a + 1) (b - 1).

(** [for j := i - 1; j >= 1; j--] and [for j := i + 1; j < b; j++], both
    with [if !data.Less(j, j-1) { break }; data.Swap(j, j-1)]. *)
Fixpoint shiftLeft (rounds : nat) (data : list A) (j : nat) : list A :=
  match rounds with
  | O => data
  | S rounds' =>
      if (1 <=? j)%nat && Less data j (j - 1)
      then shiftLeft rounds' (Swap data j (j - 1)) (j - 1)
      else data
  end.

Fixpoint shiftRight (rounds : nat) (data : list A) (j b : nat) : list A :=
  match rounds with
  | O => data
  | S rounds' =>
      if (j <? b)%nat && Less data j (j - 1)
      then shiftRight rounds' (Swap data j (j - 1)) (S j) b
      else data
  end.

(** [for j := 0; j < maxSteps; j++] of [partialInsertionSort_func], with
    [maxSteps = 5] and [shortestShifting = 50]. *)
Fixpoint partialInsertionSort_loop (steps : nat) (data : list A) (a b i : nat)
  : list A * bool :=
  match steps with
  | O => (data, false)
  | S steps' =>
      let i := scanUp (b - i) (fun i => negb (Less data i (i - 1))) i (b - 1) in
      if (i =? b)%nat then (data, true)
      else if (b - a <? 50)%nat then (data, false)
      else
        let data := Swap data i (i - 1) in
        let data :=
          if (2 <=? i - a)%nat then shiftLeft i data (i - 1) else data in
        let data :=
          if (2 <=? b - i)%nat then shiftRight b data (i + 1) b else data in
        partialInsertionSort_loop steps' data a b i
  end.

Definition partialInsertionSort_func (data : list A) (a b : nat)
  : list A * bool :=
  partialInsertionSort_loop 5 data a b (a + 1).

(** [xorshift], a 64-bit generator, and [nextPowerOfTwo]. *)
Definition xorshift_Next (r : Z) : Z :=
  let r := Z.lxor r (Z.shiftl r 13 mod 2 ^ 64) in
  let r := Z.lxor r (Z.shiftr r 7) in
  Z.lxor r (Z.shiftl r 17 mod 2 ^ 64).

Definition bits_Len (n : nat) : nat :=
  match n with
  | O => O
  | _ => S (Nat.log2 n)
  end.

Definition nextPowerOfTwo (length : nat) : Z := 2 ^ Z.of_nat (bits_Len length).

(** [for i := 0; i < 3; i++] of [breakPatterns_func]. *)
Fixpoint breakPatterns_loop (rounds i : nat) (random modulus : Z)
    (data : list A) (a idx length : nat) : list A :=
  match rounds with
  | O => data
  | S rounds' =>
      let random := xorshift_Next random in
      let other := Z.to_nat (Z.land random (modulus - 1)) in
      let other := if (length <=? other)%nat then (other - length)%nat
                   else other in
      breakPatterns_loop rounds' (S i) random modulus
                         (Swap data (idx - 1 + i) (a + other)) a idx length
  end.

Definition breakPatterns_func (data : list A) (a b : nat) : list A :=
  let length := (b - a)%nat in
  if (8 <=? length)%nat then
    breakPatterns_loop 3 0 (Z.of_nat length) (nextPowerOfTwo length) data a
                       (a + (length / 4) * 2 - 1) length
  else data.

Inductive sortedHint : Type :=
| unknownHint
| increasingHint
| decreasingHint.

(** [order2_func], [median_func], [medianAdjacent_func]: the counter
    [*swaps] is handed on with the result. *)
Definition order2_func (data : list A) (a b swaps : nat) : nat * nat * nat :=
  if Less data b a then (b, a, S swaps) else (a, b, swaps).

Definition median_func (data : list A) (a b c swaps : nat) : nat * nat :=
  let '(a, b, swaps) := order2_func data a b swaps in
  let '(b, c, swaps) := order2_func data b c swaps in
  let '(a, b, swaps) := order2_func data a b swaps in
  (b, swaps).

Definition medianAdjacent_func (data : list A) (a swaps : nat) : nat * nat :=
  median_func data (a - 1) a (a + 1) swaps.

Definition choosePivot_func (data : list A) (a b : nat) : nat * sortedHint :=
  let l := (b - a)%nat in
  let swaps := O in
  let i := (a + l / 4 * 1)%nat in
  let j := (a + l / 4 * 2)%nat in
  let k := (a + l / 4 * 3)%nat in
  let '(j, swaps) :=
    if (8 <=? l)%nat then
      let '(i, j, k, swaps) :=
        if (50 <=? l)%nat then
          let '(i, swaps) := medianAdjacent_func data i swaps in
          let '(j, swaps) := medianAdjacent_func data j swaps in
          let '(k, swaps) := medianAdjacent_func data k swaps in
          (i, j, k, swaps)
        else (i, j, k, swaps) in
      median_func data i j k swaps
    else (j, swaps) in
  if (swaps =? 0)%nat then (j, increasingHint)
  else if (swaps =? 12)%nat then (j, decreasingHint)
  else (j, unknownHint).

(** [for i < j { data.Swap(i, j); i++; j-- }] *)
Fixpoint reverseRange_loop (rounds : nat) (data : list A) (i j : nat)
  : list A :=
  match rounds with
  | O => data
  | S rounds' =>
      if (i <? j)%nat then reverseRange_loop rounds' (Swap data i j) (S i) (j - 1)
      else data
  end.

Definition reverseRange_func (data : list A) (a b : nat) : list A :=
  reverseRange_loop (b - a) data a (b - 1).

Definition is_increasingHint (hint : sortedHint) : bool :=
  match hint with
  | increasingHint => true
  | _ => false
  end.

(** [pdqsort_func]: one unit of [fuel] for a round of its [for { ... }]
    and for a call of itself; [wasBalanced] and [wasPartitioned] are its
    two local flags, which a call starts at [true]. *)
Fixpoint pdqsort_loop (fuel : nat) (data : list A) (a b limit : nat)
    (wasBalanced wasPartitioned : bool) : outcome (list A) :=
  match fuel with
  | O => OutOfFuel
  | S fuel' =>
      let length := (b - a)%nat in
      if (length <=? 12)%nat then Ok (insertionSort_func data a b)
      else if (limit =? 0)%nat then Ok (heapSort_func data a b)
      else
        let data := if wasBalanced then data else breakPatterns_func data a b in
        let limit := if wasBalanced then limit else (limit - 1)%nat in
        let '(pivot, hint) := choosePivot_func data a b in
        let '(data, pivot, hint) :=
          match hint with
          | decreasingHint =>
              (reverseRange_func data a b, (b - 1 - (pivot - a))%nat,
               increasingHint)
          | _ => (data, pivot, hint)
          end in
        let '(data, sorted) :=
          if wasBalanced && wasPartitioned && is_increasingHint hint
          then partialInsertionSort_func data a b
          else (data, false) in
        if sorted then Ok data
        else if (0 <? a)%nat && negb (Less data (a - 1) pivot) then
          let '(data, mid) := partitionEqual_func data a b pivot in
          pdqsort_loop fuel' data mid b limit wasBalanced wasPartitioned
        else
          let '(data, mid, alreadyPartitioned) :=
            partition_func data a b pivot in
          let leftLen := (mid - a)%nat in
          let rightLen := (b - mid)%nat in
          let balanceThreshold := (length / 8)%nat in
          if (leftLen <? rightLen)%nat then
            data <- pdqsort_loop fuel' data a mid limit true true ;;
            pdqsort_loop fuel' data (mid + 1) b limit
                         (balanceThreshold <=? leftLen)%nat alreadyPartitioned
          else
            data <- pdqsort_loop fuel' data (mid + 1) b limit true true ;;
            pdqsort_loop fuel' data a mid limit
                         (balanceThreshold <=? rightLen)%nat alreadyPartitioned
  end.

Definition pdqsort_func (fuel : nat) (data : list A) (a b limit : nat)
  : outcome (list A) :=
  pdqsort_loop fuel data a b limit true true.

(** [sort.Slice]: [limit := bits.Len(uint(length))].  Every round and
    every call of [pdqsort_func] works on a shorter range than the one
    before, so one unit of fuel per element and one more is enough: the
    second branch of [Slice] is never taken
    ([PdqsortFacts.Slice_is_SliceFuel]). *)
Definition SliceFuel (fuel : nat) (x : list A) : outcome (list A) :=
  pdqsort_func fuel x 0 (List.length x) (bits_Len (List.length x)).

Definition Slice (x : list A) : list A :=
  match SliceFuel (S (List.length x)) x with
  | Ok sorted => sorted
  | _ => x
  end.

End Pdqsort.

(** The contract of [sort.Slice] for a candidate implementation. *)
Definition SliceContract (A : Type)
    (sort_Slice : (A -> A -> bool) -> list A -> list A) : Prop :=
  (forall less l, Permutation l (sort_Slice less l)) /\
  (forall less l, StrictWeakOrdering less -> IsSorted less (sort_Slice less l)).

End sort.

(* ================================================================== *)
(** * internal/tui: the browse session (src/internal/tui/model.go)     *)
(* ================================================================== *)

Module tui.
Import strings lipgloss.

(** The gutter separator: a space, U+2502 (three bytes in UTF-8) and a
    space. *)
Definition bar : string :=
  String space (String "226"%char (String "148"%char (String "130"%char
    (String space "")))).

Record Model : Type := mkModel {
  versions : list keyvault.SecretVersion;
  secretName : string;
  currentIdx : Z;
  viewport : viewport.Model;
  ready : bool;
  width : Z;
  height : Z
}.

Definition NewModel (versions : list keyvault.SecretVersion)
                    (secretName : string) : Model :=
  mkModel versions secretName 0 viewport.zero false 0 0.

Definition set_currentIdx (m : Model) (i : Z) : Model :=
  mkModel (versions m) (secretName m) i (viewport m) (ready m) (width m) (height m).
Definition set_viewport (m : Model) (v : viewport.Model) : Model :=
  mkModel (versions m) (secretName m) (currentIdx m) v (ready m) (width m) (height m).
Definition set_ready (m : Model) (b : bool) : Model :=
  mkModel (versions m) (secretName m) (currentIdx m) (viewport m) b (width m) (height m).
Definition set_size (m : Model) (w h : Z) : Model :=
  mkModel (versions m) (secretName m) (currentIdx m) (viewport m) (ready m) w h.

Definition wrapLine := wrap.wrapLine.

(** The inner [for i, wrappedLine := range wrappedLines]. *)
Fixpoint writeWrapped (wrappedLines : list string) (i : nat) (lineNum : Z)
                      (result : string) : string :=
  match wrappedLines with
  | [] => result
  | wrappedLine :: rest =>
      let result :=
        if (i =? 0)%nat
        then WriteString (WriteString result
                            (lineNumStyle_Render (Sprintf_d lineNum))) bar
        else WriteString (WriteString result (lineNumStyle_Render "")) bar in
      writeWrapped rest (S i) lineNum
        (WriteString (WriteString result wrappedLine) NL)
  end.

(** The outer [for _, line := range lines], with its counter. *)
Fixpoint writeLines (lines : list string) (width : Z) (lineNum : Z)
                    (result : string) : outcome string :=
  match lines with
  | [] => Ok result
  | line :: rest =>
      if String.eqb line "" then
        writeLines rest width (lineNum + 1)
          (WriteString (WriteString result
                          (lineNumStyle_Render (Sprintf_d lineNum)))
                       (String.append bar NL))
      else
        wrappedLines <- wrapLine line width ;;
        writeLines rest width (lineNum + 1)
          (writeWrapped wrappedLines 0 lineNum result)
  end.

Definition wrapTextWithLineNumbers (text : string) (width : Z)
  : outcome string :=
  let width := if width <=? 0 then 40 else width in
  result <- writeLines (Split_newline text) width 1 "" ;;
  Ok (TrimRight_newline result).

(** [m.versions[m.currentIdx]] *)
Definition index_versions (vs : list keyvault.SecretVersion) (i : Z)
  : outcome keyvault.SecretVersion :=
  if (i <? 0) || (i >=? Z.of_nat (List.length vs)) then
    Panic "index out of range"
  else
    match nth_error vs (Z.to_nat i) with
    | Some v => Ok v
    | None => Panic "index out of range"
    end.

(** The local [maxWidth] of [updateViewportContent]. *)
Definition maxWidth (m : Model) : Z :=
  let maxWidth := int_sub (viewport.Width (viewport m)) 8 in
  if maxWidth <? 20 then 20 else maxWidth.

Definition updateViewportContent (m : Model) : outcome Model :=
  if (List.length (versions m) =? 0)%nat then Ok m
  else
    version <- index_versions (versions m) (currentIdx m) ;;
    wrappedValue <- wrapTextWithLineNumbers (keyvault.Value version) (maxWidth m) ;;
    pane <- viewport.SetContent (viewport m) wrappedValue ;;
    pane <- viewport.GotoTop pane ;;
    Ok (set_viewport m pane).

Definition key_in (k : string) (ks : list string) : bool :=
  existsb (String.eqb k) ks.

Definition Update (m : Model) (msg : tea.Msg) : outcome (Model * tea.Cmd) :=
  let forward :=
    pane <- viewport.Update (viewport m) msg ;;
    Ok (set_viewport m pane, tea.NoCmd) in
  match msg with
  | tea.KeyMsg k =>
      if key_in k ["esc"; "q"; "ctrl+c"] then Ok (m, tea.Quit)
      else if key_in k ["left"; "h"] then
        if currentIdx m >? 0 then
          m' <- updateViewportContent (set_currentIdx m (currentIdx m - 1)) ;;
          Ok (m', tea.NoCmd)
        else Ok (m, tea.NoCmd)
      else if key_in k ["right"; "l"] then
        if currentIdx m <? Z.of_nat (List.length (versions m)) - 1 then
          m' <- updateViewportContent (set_currentIdx m (currentIdx m + 1)) ;;
          Ok (m', tea.NoCmd)
        else Ok (m, tea.NoCmd)
      else forward
  | tea.WindowSizeMsg w h =>
      let m := set_size m w h in
      let footerHeight := 3 in
      if negb (ready m) then
        let m := set_viewport m
                   (viewport.New (int_sub w 4)
                      (int_sub (int_sub h footerHeight) 2)) in
        let m := set_ready m true in
        m' <- updateViewportContent m ;;
        Ok (m', tea.NoCmd)
      else
        let m := set_viewport m (viewport.set_Width (viewport m) (int_sub w 4)) in
        let m := set_viewport m
                   (viewport.set_Height (viewport m)
                      (int_sub (int_sub h footerHeight) 2)) in
        m' <- updateViewportContent m ;;
        Ok (m', tea.NoCmd)
  | tea.OtherMsg => forward
  end.

(** The event loop of Bubble Tea on this model.  The loop hands every
    message it receives to [Update] and keeps the model that comes back.
    [tea.Quit] is a command: it is run apart from the loop and what it
    produces is one more message, on which the loop ends, so messages
    that were received before that one are still handled.  [msgs] are the
    messages handled before the loop ends. *)
Fixpoint run (m : Model) (msgs : list tea.Msg) : outcome Model :=
  match msgs with
  | [] => Ok m
  | msg :: rest =>
      r <- Update m msg ;;
      run (fst r) rest
  end.

End tui.

(** [runShow] of [pkg/cmd/show] (src/pkg/cmd/show/show.go): with no
    version it prints a message and
    returns; otherwise it starts the browse session on [tui.NewModel]. *)
Module show.

Definition runShow_session (versions : list keyvault.SecretVersion)
                           (secretName : string) : option tui.Model :=
  if (List.length versions =? 0)%nat then None
  else Some (tui.NewModel versions secretName).

End show.

(* ================================================================== *)
(** * internal/difftui: the positional diff and the review session
      (package difftui, the second file of src/cmd/kv/main.go)          *)
(* ================================================================== *)

Module difftui.
Import strings lipgloss.

Definition bar : string := tui.bar.

Record diffLine : Type := mkDiffLine {
  lineNum : Z;
  content : string;
  isDiff : bool;
  isAdded : bool
}.

Record Model : Type := mkModel {
  oldValue : string;
  newValue : string;
  secretName : string;
  leftViewport : viewport.Model;
  rightViewport : viewport.Model;
  ready : bool;
  width : Z;
  height : Z;
  confirmed : bool;
  cancelled : bool
}.

Definition NewModel (oldValue newValue secretName : string) : Model :=
  mkModel oldValue newValue secretName viewport.zero viewport.zero
          false 0 0 false false.

Definition set_viewports (m : Model) (l r : viewport.Model) : Model :=
  mkModel (oldValue m) (newValue m) (secretName m) l r
          (ready m) (width m) (height m) (confirmed m) (cancelled m).
Definition set_ready (m : Model) (b : bool) : Model :=
  mkModel (oldValue m) (newValue m) (secretName m) (leftViewport m)
          (rightViewport m) b (width m) (height m) (confirmed m) (cancelled m).
Definition set_size (m : Model) (w h : Z) : Model :=
  mkModel (oldValue m) (newValue m) (secretName m) (leftViewport m)
          (rightViewport m) (ready m) w h (confirmed m) (cancelled m).
Definition set_confirmed (m : Model) (b : bool) : Model :=
  mkModel (oldValue m) (newValue m) (secretName m) (leftViewport m)
          (rightViewport m) (ready m) (width m) (height m) b (cancelled m).
Definition set_cancelled (m : Model) (b : bool) : Model :=
  mkModel (oldValue m) (newValue m) (secretName m) (leftViewport m)
          (rightViewport m) (ready m) (width m) (height m) (confirmed m) b.

Definition Confirmed (m : Model) : bool := confirmed m.
Definition Cancelled (m : Model) : bool := cancelled m.

(** The body of the loop of [computeDiff] at index [i]: the entry
    appended to [leftDiff] and the one appended to [rightDiff]. *)
Definition diffAt (oldLines newLines : list string) (i : nat)
  : diffLine * diffLine :=
  let oldLine :=
    if (i <? List.length oldLines)%nat then nth i oldLines "" else "" in
  let newLine :=
    if (i <? List.length newLines)%nat then nth i newLines "" else "" in
  let isDifferent := negb (String.eqb oldLine newLine) in
  let left :=
    if (i <? List.length oldLines)%nat
    then mkDiffLine (Z.of_nat i + 1) oldLine isDifferent false
    else mkDiffLine 0 "" false false in
  let right :=
    if (i <? List.length newLines)%nat
    then mkDiffLine (Z.of_nat i + 1) newLine
           (isDifferent && negb (String.eqb oldLine ""))
           (String.eqb oldLine "")
    else mkDiffLine 0 "" false false in
  (left, right).

(** [for i := 0; i < maxLen; i++]: [n] rounds are left, the next is [i]. *)
Fixpoint diffLoop (n i : nat) (oldLines newLines : list string)
                  (leftDiff rightDiff : list diffLine)
  : list diffLine * list diffLine :=
  match n with
  | O => (leftDiff, rightDiff)
  | S n' =>
      let lr := diffAt oldLines newLines i in
      diffLoop n' (S i) oldLines newLines
               (leftDiff ++ [fst lr]) (rightDiff ++ [snd lr])
  end.

Definition computeDiff (oldLines newLines : list string)
  : list diffLine * list diffLine :=
  let maxLen := List.length oldLines in
  let maxLen :=
    if (maxLen <? List.length newLines)%nat
    then List.length newLines else maxLen in
  diffLoop maxLen 0 oldLines newLines [] [].

Definition wrapLine := wrap.wrapLine.

(** The marker written after the number of a first row. *)
Definition firstRowMarker (line : diffLine) (isLeft : bool) : string :=
  if isLeft && isDiff line then removedLineStyle_Render " - "
  else if negb isLeft && isAdded line then addedLineStyle_Render " + "
  else if negb isLeft && isDiff line then addedLineStyle_Render " ~ "
  else bar.

(** The inner [for i, wrappedContent := range wrappedLines]. *)
Fixpoint writeWrapped (wrappedLines : list string) (i : nat)
                      (line : diffLine) (isLeft : bool) (result : string)
  : string :=
  match wrappedLines with
  | [] => result
  | wrappedContent :: rest =>
      let result :=
        if (i =? 0)%nat
        then WriteString
               (WriteString result
                  (lineNumStyle_Render (Sprintf_d (lineNum line))))
               (firstRowMarker line isLeft)
        else WriteString (WriteString result (lineNumStyle_Render "")) "   " in
      let result :=
        if isDiff line && isLeft
        then WriteString result (removedLineStyle_Render wrappedContent)
        else if (isDiff line || isAdded line) && negb isLeft
        then WriteString result (addedLineStyle_Render wrappedContent)
        else WriteString result (unchangedLineStyle_Render wrappedContent) in
      writeWrapped rest (S i) line isLeft (WriteString result NL)
  end.

(** The outer [for _, line := range lines]. *)
Fixpoint writeLines (lines : list diffLine) (width : Z) (isLeft : bool)
                    (result : string) : outcome string :=
  match lines with
  | [] => Ok result
  | line :: rest =>
      if lineNum line =? 0 then
        writeLines rest width isLeft
          (WriteString (WriteString result (lineNumStyle_Render "    "))
                       (String.append bar NL))
      else
        wrappedLines <- wrapLine (content line) width ;;
        writeLines rest width isLeft
          (writeWrapped wrappedLines 0 line isLeft result)
  end.

Definition renderDiffLines (lines : list diffLine) (width : Z)
                           (isLeft : bool) : outcome string :=
  result <- writeLines lines width isLeft "" ;;
  Ok (TrimRight_newline result).

Definition updateViewportContent (m : Model) : outcome Model :=
  let maxWidth := int_sub (viewport.Width (leftViewport m)) 10 in
  let oldLines := Split_newline (oldValue m) in
  let newLines := Split_newline (newValue m) in
  let diff := computeDiff oldLines newLines in
  oldContent <- renderDiffLines (fst diff) maxWidth true ;;
  newContent <- renderDiffLines (snd diff) maxWidth false ;;
  left <- viewport.SetContent (leftViewport m) oldContent ;;
  right <- viewport.SetContent (rightViewport m) newContent ;;
  Ok (set_viewports m left right).

Definition key_in (k : string) (ks : list string) : bool :=
  existsb (String.eqb k) ks.

(** The keys of the four scroll cases of [Update]. *)
Definition scrollKeys : list string :=
  ["up"; "k"; "down"; "j"; "pgup"; "ctrl+b"; "pgdown"; "ctrl+f"].

Definition Update (m : Model) (msg : tea.Msg) : outcome (Model * tea.Cmd) :=
  match msg with
  | tea.KeyMsg k =>
      if key_in k ["esc"; "q"; "n"; "N"] then
        Ok (set_cancelled m true, tea.Quit)
      else if key_in k ["y"; "Y"; "enter"] then
        Ok (set_confirmed m true, tea.Quit)
      else if key_in k scrollKeys then
        left <- viewport.Update (leftViewport m) msg ;;
        let right := viewport.SetYOffset (rightViewport m) (viewport.YOffset left) in
        Ok (set_viewports m left right, tea.NoCmd)
      else Ok (m, tea.NoCmd)
  | tea.WindowSizeMsg w h =>
      let m := set_size m w h in
      let headerHeight := 3 in
      let footerHeight := 3 in
      let viewportWidth := int_sub (int_div w 2) 4 in
      let viewportHeight := int_sub (int_sub h headerHeight) footerHeight in
      if negb (ready m) then
        let m := set_viewports m (viewport.New viewportWidth viewportHeight)
                                 (viewport.New viewportWidth viewportHeight) in
        let m := set_ready m true in
        m' <- updateViewportContent m ;;
        Ok (m', tea.NoCmd)
      else
        let m := set_viewports m
                   (viewport.set_Height
                      (viewport.set_Width (leftViewport m) viewportWidth)
                      viewportHeight)
                   (viewport.set_Height
                      (viewport.set_Width (rightViewport m) viewportWidth)
                      viewportHeight) in
        m' <- updateViewportContent m ;;
        Ok (m', tea.NoCmd)
  | tea.OtherMsg => Ok (m, tea.NoCmd)
  end.

(** The event loop of Bubble Tea on this model, as for the browse
    session: [msgs] are the messages handled before the loop ends. *)
Fixpoint run (m : Model) (msgs : list tea.Msg) : outcome Model :=
  match msgs with
  | [] => Ok m
  | msg :: rest =>
      r <- Update m msg ;;
      run (fst r) rest
  end.

(** ** The entries as the specification reads them

    A [diffLine] has no classification field: what an entry is shows in
    how [renderDiffLines] writes it.  [lineNum == 0] is the blank
    placeholder row; otherwise the marker of the first row tells. *)
Inductive classification : Type :=
| Unchanged | Removed | Added | Changed | Placeholder.

Definition classify (isLeft : bool) (line : diffLine) : classification :=
  if lineNum line =? 0 then Placeholder
  else if isLeft && isDiff line then Removed
  else if negb isLeft && isAdded line then Added
  else if negb isLeft && isDiff line then Changed
  else Unchanged.

Record DiffLine : Type := mkSpecLine {
  sourceLineNumber : option Z;
  text : string;
  class : classification
}.

Definition view (isLeft : bool) (line : diffLine) : DiffLine :=
  mkSpecLine (if lineNum line =? 0 then None else Some (lineNum line))
             (content line) (classify isLeft line).

(** [Compare] of the specification: the split and the diff that
    [updateViewportContent] performs, each side read through [view]. *)
Definition Compare (oldText newText : string)
  : list DiffLine * list DiffLine :=
  let diff := computeDiff (Split_newline oldText) (Split_newline newText) in
  (map (view true) (fst diff), map (view false) (snd diff)).

End difftui.

(* ================================================================== *)
(** * pkg/cmd/root and pkg/cmd/edit: the edit workflow
      (src/pkg/cmd/root/root.go; package edit, src/unnamed/part_000)    *)
(* ================================================================== *)

Module edit.
Import strings.

Definition error : Type := string.

(** A Go pair [(value, err)]. *)
Inductive result (A : Type) : Type :=
| Val (a : A)
| Err (e : error).
Arguments Val {A} a.
Arguments Err {A} e.

(** What [runEdit] does to the world, in the order it does it; each call
    is recorded with the answer it got. *)
Inductive event : Type :=
| NewClient (vaultURL : string) (err : option error)
| ListSecretVersions (secretName : string)
                     (r : result (list keyvault.SecretVersion))
| CreateSecureTempFile (content : string) (r : result string)
| OpenEditor (editorCmd filePath : string) (err : option error)
| ReadFile (filePath : string) (r : result string)
| RunProgram (diffModel : difftui.Model) (r : result difftui.Model)
| SetSecret (secretName value : string) (err : option error)
| SecureDelete (filePath : string) (err : option error)
| Stdout (s : string)
| Stderr (s : string).

(** The answers of the world: the vault, the file system, the editor
    process and the terminal program, and the editor setting. *)
Record World : Type := mkWorld {
  w_NewClient : option error;
  w_ListSecretVersions : result (list keyvault.SecretVersion);
  w_editor : string;
  w_EDITOR : string;
  w_createSecureTempFile : result string;
  w_openEditor : option error;
  w_ReadFile : result string;
  w_Run : result difftui.Model;
  w_SetSecret : option error;
  w_secureDelete : option error
}.

(** The one deferred call of the package: the closure around
    [secureDelete(tempFile)]. *)
Inductive deferredCall : Type :=
| DeferSecureDelete (tempFile : string).

(** Where control is after a statement: at the next statement, at a
    [return], in [os.Exit] (the process ends at once and deferred calls
    are not run), or in a panic (deferred calls run while it unwinds). *)
Inductive flow (A : Type) : Type :=
| Next (a : A)
| Return_
| OsExit (code : Z)
| Panicking (msg : string).
Arguments Next {A} a.
Arguments Return_ {A}.
Arguments OsExit {A} code.
Arguments Panicking {A} msg.

Record state : Type := mkState {
  trace : list event;
  deferred : list deferredCall
}.

Definition proc (A : Type) : Type := state -> flow A * state.

Definition ret {A : Type} (a : A) : proc A := fun s => (Next a, s).

Definition pbind {A B : Type} (c : proc A) (k : A -> proc B) : proc B :=
  fun s =>
    match c s with
    | (Next a, s') => k a s'
    | (Return_, s') => (Return_, s')
    | (OsExit code, s') => (OsExit code, s')
    | (Panicking msg, s') => (Panicking msg, s')
    end.

Notation "x <~ c ;; k" := (pbind c (fun x => k))
  (at level 61, c at next level, right associativity).
Notation "c ;;; k" := (pbind c (fun _ => k))
  (at level 61, right associativity).

Definition emit (e : event) : proc unit :=
  fun s => (Next tt, mkState (trace s ++ [e]) (deferred s)).
Definition defer (d : deferredCall) : proc unit :=
  fun s => (Next tt, mkState (trace s) (d :: deferred s)).
Definition return_ {A : Type} : proc A := fun s => (Return_, s).
Definition os_Exit {A : Type} (code : Z) : proc A := fun s => (OsExit code, s).
Definition panic {A : Type} (msg : string) : proc A :=
  fun s => (Panicking msg, s).

Definition cat (parts : list string) : string := String.concat "" parts.

(** [root.ExitWithError] *)
Definition ExitWithError {A : Type} (err : error) : proc A :=
  emit (Stderr (cat ["Error: "; err; NL])) ;;; os_Exit 1.

Definition getEditor (w : World) : string :=
  if negb (String.eqb (w_editor w) "") then w_editor w
  else if negb (String.eqb (w_EDITOR w) "") then w_EDITOR w
  else "vim".

(** [s[:8]] *)
Definition slice_to_8 (s : string) : proc string :=
  if len s <? 8 then panic "slice bounds out of range" else ret (take 8 s).

Definition check_mark : string :=
  String "226"%char (String "156"%char (String "147"%char "")).

Definition runEdit (w : World) (vaultName secretName : string) : proc unit :=
  let vaultURL := cat ["https://"; vaultName; ".vault.azure.net/"] in
  emit (NewClient vaultURL (w_NewClient w)) ;;;
  match w_NewClient w with
  | Some err => ExitWithError (cat ["failed to create Key Vault client: "; err])
  | None => ret tt
  end ;;;
  emit (ListSecretVersions secretName (w_ListSecretVersions w)) ;;;
  versions <~ match w_ListSecretVersions w with
              | Err err => ExitWithError (cat ["failed to list secret versions: "; err])
              | Val versions => ret versions
              end ;;
  latestVersion <~ match versions with
                   | [] => ExitWithError (cat ["no versions found for secret: "; secretName])
                   | latestVersion :: _ => ret latestVersion
                   end ;;
  let editorCmd := getEditor w in
  emit (CreateSecureTempFile (keyvault.Value latestVersion)
                             (w_createSecureTempFile w)) ;;;
  tempFile <~ match w_createSecureTempFile w with
              | Err err => ExitWithError (cat ["failed to create temporary file: "; err])
              | Val tempFile => ret tempFile
              end ;;
  defer (DeferSecureDelete tempFile) ;;;
  short <~ slice_to_8 (keyvault.Version latestVersion) ;;
  emit (Stdout (cat ["Editing secret '"; secretName; "' (version: "; short; ")"; NL])) ;;;
  emit (Stdout (cat ["Opening editor: "; editorCmd; NL; NL])) ;;;
  emit (OpenEditor editorCmd tempFile (w_openEditor w)) ;;;
  match w_openEditor w with
  | Some err => ExitWithError (cat ["failed to open editor: "; err])
  | None => ret tt
  end ;;;
  emit (ReadFile tempFile (w_ReadFile w)) ;;;
  newValueStr <~ match w_ReadFile w with
                 | Err err => ExitWithError (cat ["failed to read edited file: "; err])
                 | Val newValue => ret newValue
                 end ;;
  (if String.eqb newValueStr (keyvault.Value latestVersion) then
     emit (Stdout (cat ["No changes detected. Secret not updated."; NL])) ;;;
     return_
   else ret tt) ;;;
  emit (Stdout (cat [NL; "Review changes..."; NL])) ;;;
  let diffModel :=
    difftui.NewModel (keyvault.Value latestVersion) newValueStr secretName in
  emit (RunProgram diffModel (w_Run w)) ;;;
  diffResult <~ match w_Run w with
                | Err err => ExitWithError (cat ["diff viewer error: "; err])
                | Val finalModel => ret finalModel
                end ;;
  (if negb (difftui.Confirmed diffResult) then
     emit (Stdout (cat ["Changes discarded."; NL])) ;;;
     return_
   else ret tt) ;;;
  emit (SetSecret secretName newValueStr (w_SetSecret w)) ;;;
  match w_SetSecret w with
  | Some err => ExitWithError (cat ["failed to update secret: "; err])
  | None => ret tt
  end ;;;
  emit (Stdout (cat [check_mark; " Secret '"; secretName; "' updated successfully"; NL])).

(** The deferred closure: [secureDelete], and a warning when it fails. *)
Definition runDeferred (w : World) (d : deferredCall) (tr : list event)
  : list event :=
  match d with
  | DeferSecureDelete tempFile =>
      let tr := tr ++ [SecureDelete tempFile (w_secureDelete w)] in
      match w_secureDelete w with
      | Some err =>
          tr ++ [Stderr (cat ["Warning: failed to securely delete temp file: ";
                              err; NL])]
      | None => tr
      end
  end.

(** How the call of [runEdit] ends. *)
Inductive ending : Type :=
| Returned
| Exited (code : Z)
| Crashed (msg : string).

(** A call of [runEdit] from its empty frame.  The deferred calls run,
    last first, when the function returns or panics; [os.Exit] ends the
    process without running them. *)
Definition call_runEdit (w : World) (vaultName secretName : string)
  : ending * list event :=
  match runEdit w vaultName secretName (mkState [] []) with
  | (Next _, s) | (Return_, s) =>
      (Returned, fold_left (fun tr d => runDeferred w d tr) (deferred s) (trace s))
  | (Panicking msg, s) =>
      (Crashed msg, fold_left (fun tr d => runDeferred w d tr) (deferred s) (trace s))
  | (OsExit code, s) => (Exited code, trace s)
  end.

Definition is_SecureDelete (e : event) : bool :=
  match e with SecureDelete _ _ => true | _ => false end.
Definition is_RunProgram (e : event) : bool :=
  match e with RunProgram _ _ => true | _ => false end.
Definition is_SetSecret (e : event) : bool :=
  match e with SetSecret _ _ _ => true | _ => false end.
Definition is_tempFileCreated (e : event) : bool :=
  match e with CreateSecureTempFile _ (Val _) => true | _ => false end.

(** [committed] of the specification: the new value was stored. *)
Definition committed (tr : list event) : bool :=
  existsb (fun e => match e with SetSecret _ _ None => true | _ => false end) tr.

End edit.

(* ================================================================== *)
(** * Properties and scenarios                                         *)
(* ================================================================== *)

(** The two entries that [computeDiff] writes at an index. *)
Module DiffProps.
Import strings difftui.

Definition leftAt (oldLines newLines : list string) (i : nat) : diffLine :=
  fst (diffAt oldLines newLines i).

Definition rightAt (oldLines newLines : list string) (i : nat) : diffLine :=
  snd (diffAt oldLines newLines i).

End DiffProps.

(** The order of the versions, and versions to try it on. *)
Module SortProps.
Import sort keyvault.

Definition noTimestamp (v : SecretVersion) : bool :=
  match CreatedOn v with
  | None => true
  | Some _ => false
  end.

(** Newest first, and the entries without a timestamp last: whenever a
    later entry has a timestamp, every earlier entry has one that is not
    older. *)
Definition NewestFirst (out : list SecretVersion) : Prop :=
  forall i j vi vj, (i < j)%nat ->
    nth_error out i = Some vi -> nth_error out j = Some vj ->
    forall tj, CreatedOn vj = Some tj ->
      exists ti, CreatedOn vi = Some ti /\ tj <= ti.

(** The entries without a timestamp come out in the order they had. *)
Definition KeepsTimestamplessOrder (versions out : list SecretVersion) : Prop :=
  filter noTimestamp out = filter noTimestamp versions.

Definition undatedA : SecretVersion :=
  mkSecretVersion "a3f09c51" "first" true None None None [].

Definition undatedB : SecretVersion :=
  mkSecretVersion "7b20e6d4" "second" true None None None [].

Definition dated (version : string) (t : Time) : SecretVersion :=
  mkSecretVersion version "value" true (Some t) (Some t) None [].

Definition undated (version : string) : SecretVersion :=
  mkSecretVersion version "value" true None None None [].

(** Thirteen fetched versions: twelve without a timestamp, then one
    with a timestamp. *)
Definition thirteen : list SecretVersion :=
  [undated "u00"; undated "u01"; undated "u02"; undated "u03";
   undated "u04"; undated "u05"; undated "u06"; undated "u07";
   undated "u08"; undated "u09"; undated "u10"; undated "u11";
   dated "d12" 1700000000].

End SortProps.

(** Two states of a pane that differ in the offset at most. *)
Module ViewportProps.
Import viewport.

(** The size and the rows of [m'] are those of [m]. *)
Definition sameRows (m m' : Model) : Prop :=
  Width m' = Width m /\ Height m' = Height m /\ lines m' = lines m.

End ViewportProps.

(** Reading the segments of a wrapped line back. *)
Module WrapProps.
Import strings.

(** The bytes of [s] that are not spaces, in their order. *)
Fixpoint nospace (s : string) : string :=
  match s with
  | "" => ""
  | String c r => if Ascii.eqb c space then nospace r else String c (nospace r)
  end.

(** The segments one after the other. *)
Definition joinAll (segments : list string) : string :=
  fold_right String.append "" segments.

End WrapProps.

(** The cursor of the browse session, and a session to try it on. *)
Module BrowseProps.
Import strings lipgloss tui WrapProps.

(** The cursor of a session is an index of its list of versions. *)
Definition cursor_in_range (m : Model) : Prop :=
  0 <= currentIdx m < Z.of_nat (List.length (versions m)).

(** The inputs of the cursor: a previous-version key, a next-version
    key, and the window sizes that a session is sent. *)
Definition navigation (msg : tea.Msg) : Prop :=
  match msg with
  | tea.KeyMsg k => key_in k ["left"; "h"; "right"; "l"] = true
  | tea.WindowSizeMsg _ _ => True
  | tea.OtherMsg => False
  end.

(** ** Reading a rendering back

    A row of the pane is a gutter of four bytes, the bar (five bytes)
    and a segment of text.  The gutter holds the number of a line on the
    first row of the line and spaces on the rows the line is continued
    on. *)
Definition gutter (row : string) : string := take 4 row.
Definition segment (row : string) : string := drop 9 row.
Definition continues (row : string) : bool := String.eqb (gutter row) "    ".

(** From the last row to the first: the text of the continuation rows
    that wait for their first row, and the lines read so far, each with
    its gutter. *)
Fixpoint gather (rows : list string) : string * list (string * string) :=
  match rows with
  | [] => ("", [])
  | row :: rest =>
      let pending := fst (gather rest) in
      let lines := snd (gather rest) in
      if continues row then (String.append (segment row) pending, lines)
      else ("", (gutter row, String.append (segment row) pending) :: lines)
  end.

Definition readBack (rendered : string) : list (string * string) :=
  snd (gather (Split_newline rendered)).

(** The lines of a value, each with its number as the gutter shows it. *)
Fixpoint numbered (lineNum : Z) (lines : list string)
  : list (string * string) :=
  match lines with
  | [] => []
  | line :: rest =>
      (lineNumStyle_Render (Sprintf_d lineNum), line)
        :: numbered (lineNum + 1) rest
  end.

Definition dropSpaces (lines : list (string * string))
  : list (string * string) :=
  map (fun line => (fst line, nospace (snd line))) lines.

(** [rendered] shows [value]: read back, it has the lines of [value],
    numbered from 1, with the text of each line short of spaces only
    (the spaces dropped where the line is broken). *)
Definition showsValue (rendered value : string) : Prop :=
  dropSpaces (readBack rendered)
  = dropSpaces (numbered 1 (Split_newline value)).

(** The rows that [wrapTextWithLineNumbers] writes for the segments of a
    line, the first of which is row [i] of the line, and rows written
    out one after the other, each closed by a newline. *)
Definition rowOf (first : bool) (lineNum : Z) (segment : string) : string :=
  String.append
    (if first then lineNumStyle_Render (Sprintf_d lineNum)
     else lineNumStyle_Render "")
    (String.append bar segment).

Fixpoint rowsFrom (i : nat) (lineNum : Z) (segments : list string)
  : list string :=
  match segments with
  | [] => []
  | segment :: rest =>
      rowOf (i =? 0)%nat lineNum segment :: rowsFrom (S i) lineNum rest
  end.

Fixpoint unlines (rows : list string) : string :=
  match rows with
  | [] => ""
  | row :: rest => String.append row (String.append NL (unlines rest))
  end.

Fixpoint noNewline (s : string) : bool :=
  match s with
  | "" => true
  | String c r => negb (Ascii.eqb c newline) && noNewline r
  end.

(** A row of the pane: it holds no newline and is not empty. *)
Definition goodRow (row : string) : Prop :=
  noNewline row = true /\ row <> "".

(** The number [lineNum] fills the gutter: four bytes on one row, not
    all of them spaces. *)
Definition gutterOk (lineNum : Z) : bool :=
  let number := lineNumStyle_Render (Sprintf_d lineNum) in
  (String.length number =? 4)%nat && noNewline number
  && negb (String.eqb number "    ").

(** The gutter has room for four digits. *)
Definition numbersFit (value : string) : Prop :=
  Z.of_nat (List.length (Split_newline value)) < 10000.

(** The key [k] moves the cursor of [m] to [target]: the pane is given
    the rendering of the version at [target], which shows the value of
    that version, and stands at its top. *)
Definition movesTo (m : Model) (k : string) (target : Z) : Prop :=
  exists version rendered pane,
    nth_error (versions m) (Z.to_nat target) = Some version /\
    wrapTextWithLineNumbers (keyvault.Value version) (maxWidth m)
      = Ok rendered /\
    (numbersFit (keyvault.Value version) ->
     showsValue rendered (keyvault.Value version)) /\
    (shown <- viewport.SetContent (viewport m) rendered ;;
     viewport.GotoTop shown) = Ok pane /\
    viewport.lines pane = Split_newline (ReplaceAll_CRLF rendered) /\
    viewport.YOffset pane = 0 /\
    Update m (tea.KeyMsg k)
      = Ok (set_viewport (set_currentIdx m target) pane, tea.NoCmd).

(** What a previous-version key ([left], [h]) does in the state [m]. *)
Definition previousClamped (m : Model) : Prop :=
  forall k, key_in k ["left"; "h"] = true ->
    (currentIdx m = 0 -> Update m (tea.KeyMsg k) = Ok (m, tea.NoCmd)) /\
    (0 < currentIdx m -> movesTo m k (currentIdx m - 1)).

(** What a next-version key ([right], [l]) does in the state [m]. *)
Definition nextClamped (m : Model) : Prop :=
  forall k, key_in k ["right"; "l"] = true ->
    (currentIdx m = Z.of_nat (List.length (versions m)) - 1 ->
     Update m (tea.KeyMsg k) = Ok (m, tea.NoCmd)) /\
    (currentIdx m < Z.of_nat (List.length (versions m)) - 1 ->
     movesTo m k (currentIdx m + 1)).

Definition newer : keyvault.SecretVersion :=
  keyvault.mkSecretVersion "9d41c07be2a35f68" "token=new" true
                           (Some 1700000900) (Some 1700000900) None [].

Definition older : keyvault.SecretVersion :=
  keyvault.mkSecretVersion "03b7e5f1a9c2d446" "token=old" true
                           (Some 1600000000) (Some 1600000000) None [].

Definition keys : list tea.Msg :=
  [tea.WindowSizeMsg 80 24; tea.KeyMsg "right"; tea.KeyMsg "l";
   tea.KeyMsg "left"; tea.KeyMsg "h"; tea.KeyMsg "right"].

End BrowseProps.

(** Worlds for the edit workflow. *)
Module EditScenarios.
Import strings edit.

Definition latest : keyvault.SecretVersion :=
  keyvault.mkSecretVersion "5f2c9a17d3e04b6f" "secret1" true
                           (Some 1700000000) (Some 1700000000) None [].

Definition reviewed : difftui.Model :=
  difftui.set_confirmed (difftui.NewModel "secret1" "secret2" "db-password") true.

(** The editor cannot be started (or exits with a non-zero status). *)
Definition world_editor_fails : World :=
  mkWorld None (Val [latest]) "" "nano" (Val "/tmp/kv-secret-1f.tmp")
          (Some "exit status 1") (Val "secret1") (Val reviewed) None None.

(** The editor ran, and the file cannot be read back. *)
Definition world_read_fails : World :=
  mkWorld None (Val [latest]) "" "nano" (Val "/tmp/kv-secret-1f.tmp")
          None (Err "permission denied") (Val reviewed) None None.

(** The editor ran and left the file as it was. *)
Definition world_no_change : World :=
  mkWorld None (Val [latest]) "" "nano" (Val "/tmp/kv-secret-1f.tmp")
          None (Val "secret1") (Val reviewed) None None.

End EditScenarios.

(** Values for the review session. *)
Module ReviewScenarios.
Import strings difftui.

(** Ten settings of 54 bytes each without a space, and the same ten cut
    down to a short value. *)
Definition connection : string :=
  "Server=tcp:db.example.net,1433;Database=orders;Uid=svc".

Definition oldSettings : string := String.concat NL (repeat connection 10).

Definition newSettings : string := String.concat NL (repeat "Server=local" 10).

End ReviewScenarios.

(* ================================================================== *)
(** * Further properties: what they are stated with                    *)
(* ================================================================== *)


(** Reading the lines of a side back from its entries. *)
Module DiffRead.
Import strings difftui.

(** The entry stands for a line: it is not the blank placeholder. *)
Definition present (line : diffLine) : bool := negb (lineNum line =? 0).

(** The texts of the entries of a side that stand for a line. *)
Definition linesOf (side : list diffLine) : list string :=
  map content (filter present side).

End DiffRead.

(** Reading a trace of [runEdit]. *)
Module EditProps.
Import strings edit.

Definition leftByOsExit (e : ending) : bool :=
  match e with
  | Exited _ => true
  | _ => false
  end.

(** The calls [runEdit] makes to the vault, the file system, the editor
    and the terminal program, without their arguments and answers. *)
Inductive call : Type :=
| CNewClient | CListSecretVersions | CCreateSecureTempFile | COpenEditor
| CReadFile | CRunProgram | CSetSecret | CSecureDelete.

Definition callOf (e : event) : list call :=
  match e with
  | NewClient _ _ => [CNewClient]
  | ListSecretVersions _ _ => [CListSecretVersions]
  | CreateSecureTempFile _ _ => [CCreateSecureTempFile]
  | OpenEditor _ _ _ => [COpenEditor]
  | ReadFile _ _ => [CReadFile]
  | RunProgram _ _ => [CRunProgram]
  | SetSecret _ _ _ => [CSetSecret]
  | SecureDelete _ _ => [CSecureDelete]
  | Stdout _ => []
  | Stderr _ => []
  end.

Definition calls (tr : list event) : list call := flat_map callOf tr.

(** The order of the calls of a run that goes all the way. *)
Definition pipeline : list call :=
  [CNewClient; CListSecretVersions; CCreateSecureTempFile; COpenEditor;
   CReadFile; CRunProgram; CSetSecret].

Definition is_Stderr (e : event) : bool :=
  match e with Stderr _ => true | _ => false end.
Definition is_OpenEditor (e : event) : bool :=
  match e with OpenEditor _ _ _ => true | _ => false end.

(** The same world with another answer of [secureDelete]. *)
Definition with_secureDelete (w : World) (err : option error) : World :=
  mkWorld (w_NewClient w) (w_ListSecretVersions w) (w_editor w) (w_EDITOR w)
          (w_createSecureTempFile w) (w_openEditor w) (w_ReadFile w)
          (w_Run w) (w_SetSecret w) err.

(** Worlds to try the properties on: the review is confirmed and the
    value stored; the version id is shorter than eight bytes. *)
Definition world_commit : World :=
  mkWorld None (Val [EditScenarios.latest]) "" "nano"
          (Val "/tmp/kv-secret-1f.tmp") None (Val "secret2")
          (Val EditScenarios.reviewed) None None.

Definition shortVersion : keyvault.SecretVersion :=
  keyvault.mkSecretVersion "5f2c" "secret1" true (Some 1700000000)
                           (Some 1700000000) None [].

Definition world_short_version : World :=
  mkWorld None (Val [shortVersion]) "" "nano"
          (Val "/tmp/kv-secret-1f.tmp") None (Val "secret2")
          (Val EditScenarios.reviewed) None (Some "device busy").

End EditProps.

(* ================================================================== *)
(** * pkg/cmd/edit: the temp file (src/unnamed/part_000, lines 135-204) *)
(* ================================================================== *)

(** [encoding/hex]: two lower-case digits a byte, high nibble first. *)
Module hex.

Definition hextable : string := "0123456789abcdef".

Definition digit (n : nat) : ascii :=
  match String.get n hextable with
  | Some c => c
  | None => "0"%char
  end.

Fixpoint EncodeToString (src : list ascii) : string :=
  match src with
  | [] => ""
  | b :: rest =>
      String (digit (nat_of_ascii b / 16))
        (String (digit (nat_of_ascii b mod 16)) (EncodeToString rest))
  end.

End hex.

(** [createSecureTempFile] and [secureDelete] over a file system that is
    a map from paths to files.  One process uses the file: between two
    calls of the function nothing else changes it. *)
Module tempfile.
Import strings edit.

Record file : Type := mkFile {
  perm : Z;
  data : string
}.

Definition fs : Type := string -> option file.

(** The file system with [p] bound to [f] (or unbound). *)
Definition bind_path (d : fs) (p : string) (f : option file) : fs :=
  fun q => if String.eqb q p then f else d q.

(** The mode [0600]. *)
Definition mode_0600 : Z := 6 * 64.

(** What the operating system answers during one call: the bytes of
    [crypto/rand] (or its failure), the temp directory and
    [filepath.Join], and the failures of [Stat], [OpenFile] (other than
    the file being there already under [O_EXCL]), [Write] (with the number
    of bytes that got written), [Sync] and [Remove]. *)
Record OS : Type := mkOS {
  rand_byte : nat -> ascii;
  rand_err : option error;
  TempDir : string;
  Join : string -> string -> string;
  stat_err : option error;
  open_err : option error;
  write_err : option (error * nat);
  sync_err : option error;
  remove_err : option error
}.

Fixpoint string_of_bytes (l : list ascii) : string :=
  match l with
  | [] => ""
  | b :: rest => String b (string_of_bytes rest)
  end.

(** [rand.Read] into a slice of [n] bytes. *)
Definition rand_Read (os : OS) (n : nat) : list ascii :=
  map (rand_byte os) (seq 0 n).

(** ["kv-secret-" + hex.EncodeToString(randomBytes) + ".tmp"] *)
Definition tempFileName (randomBytes : list ascii) : string :=
  String.append "kv-secret-"
    (String.append (hex.EncodeToString randomBytes) ".tmp").

Definition createSecureTempFile (os : OS) (d : fs) (content : string)
  : result string * fs :=
  match rand_err os with
  | Some err => (Err err, d)
  | None =>
      let randomBytes := rand_Read os 16 in
      let filename := tempFileName randomBytes in
      let tempPath := Join os (TempDir os) filename in
      (* os.OpenFile(tempPath, O_RDWR|O_CREATE|O_EXCL, 0600) *)
      match d tempPath with
      | Some _ => (Err "file exists", d)
      | None =>
          match open_err os with
          | Some err => (Err err, d)
          | None =>
              let d := bind_path d tempPath (Some (mkFile mode_0600 "")) in
              match write_err os with
              | Some (err, n) =>
                  let d := bind_path d tempPath
                             (Some (mkFile mode_0600 (take n content))) in
                  (* os.Remove(tempPath), its error dropped *)
                  let d := match remove_err os with
                           | None => bind_path d tempPath None
                           | Some _ => d
                           end in
                  (Err err, d)
              | None =>
                  (Val tempPath,
                   bind_path d tempPath (Some (mkFile mode_0600 content)))
              end
          end
      end
  end.

Definition secureDelete (os : OS) (d : fs) (filePath : string)
  : option error * fs :=
  (* os.Stat(filePath) *)
  match d filePath with
  | None => (Some "no such file or directory", d)
  | Some info =>
      match stat_err os with
      | Some err => (Some err, d)
      | None =>
          (* os.OpenFile(filePath, O_WRONLY, 0600) *)
          match open_err os with
          | Some err => (Some err, d)
          | None =>
              let size := String.length (data info) in
              match rand_err os with
              | Some err => (Some err, d)
              | None =>
                  let randomData := string_of_bytes (rand_Read os size) in
                  match write_err os with
                  | Some (err, n) =>
                      (Some err,
                       bind_path d filePath
                         (Some (mkFile (perm info)
                                  (String.append (take n randomData)
                                                 (drop n (data info))))))
                  | None =>
                      let d := bind_path d filePath
                                 (Some (mkFile (perm info) randomData)) in
                      match sync_err os with
                      | Some err => (Some err, d)
                      | None =>
                          match remove_err os with
                          | Some err => (Some err, d)
                          | None => (None, bind_path d filePath None)
                          end
                      end
                  end
              end
          end
      end
  end.

(** An operating system in which nothing fails, and an empty disk. *)
Definition calm (rnd : nat -> ascii) : OS :=
  mkOS rnd None "/tmp" (fun dir name => String.append dir (String.append "/" name))
       None None None None None.

Definition emptyDisk : fs := fun _ => None.

End tempfile.

(* ================================================================== *)
(** * pkg/keyvault: the paging loop of ListSecretVersions and
      convertTags (src/pkg/keyvault/client.go, lines 45-96, 123-136)    *)
(* ================================================================== *)

Module listing.
Import strings edit keyvault.

(** [azsecrets.SecretAttributes] and [azsecrets.SecretProperties], with
    the fields the loop reads; a pointer that may be nil is an option.
    [ID] holds what [props.ID.Version()] returns. *)
Record SecretAttributes : Type := mkAttributes {
  aEnabled : option bool;
  aCreated : option Time;
  aUpdated : option Time;
  aExpires : option Time
}.

Record SecretProperties : Type := mkProperties {
  ID : option string;
  Attributes : option SecretAttributes;
  pTags : option (list (string * option string))
}.

(** [convertTags]: a nil map gives nil, and an entry with a nil value is
    left out. *)
Definition convertTags (azureTags : option (list (string * option string)))
  : list (string * string) :=
  match azureTags with
  | None => []
  | Some tags =>
      flat_map (fun kv => match snd kv with
                          | Some value => [(fst kv, value)]
                          | None => []
                          end) tags
  end.

(** [props.Attributes != nil && props.Attributes.Enabled != nil &&
    *props.Attributes.Enabled] *)
Definition enabledOf (props : SecretProperties) : bool :=
  match Attributes props with
  | Some a => match aEnabled a with Some b => b | None => false end
  | None => false
  end.

(** The [SecretVersion] literal with the given value;
    [props.Attributes.Created] dereferences [Attributes] unguarded. *)
Definition versionLiteral (props : SecretProperties) (version value : string)
  : outcome SecretVersion :=
  match Attributes props with
  | None => Panic "invalid memory address or nil pointer dereference"
  | Some a =>
      Ok (mkSecretVersion version value (enabledOf props)
            (aCreated a) (aUpdated a) (aExpires a) (convertTags (pTags props)))
  end.

(** The body of [for _, props := range page.Value]; [GetSecret] answers a
    value (its pointer may be nil) or an error. *)
Definition appendProps
    (GetSecret : string -> result (option string))
    (props : SecretProperties) (versions : list SecretVersion)
  : outcome (list SecretVersion) :=
  match ID props with
  | None => Ok versions
  | Some version =>
      if String.eqb version "" then Ok versions
      else
        match GetSecret version with
        | Err err =>
            v <- versionLiteral props version
                   (cat ["Error fetching value: "; err]) ;;
            Ok (versions ++ [v])
        | Val resp =>
            let value := match resp with Some s => s | None => "" end in
            v <- versionLiteral props version value ;;
            Ok (versions ++ [v])
        end
  end.

Fixpoint appendPage
    (GetSecret : string -> result (option string))
    (page : list SecretProperties) (versions : list SecretVersion)
  : outcome (list SecretVersion) :=
  match page with
  | [] => Ok versions
  | props :: rest =>
      versions <- appendProps GetSecret props versions ;;
      appendPage GetSecret rest versions
  end.

(** [for pager.More() { page, err := pager.NextPage(ctx) ... }]: the
    pages the pager still has, each the answer of [NextPage]. *)
Fixpoint fetchPages
    (GetSecret : string -> result (option string))
    (pages : list (result (list SecretProperties)))
    (versions : list SecretVersion)
  : outcome (result (list SecretVersion)) :=
  match pages with
  | [] => Ok (Val versions)
  | Err err :: _ => Ok (Err (cat ["failed to get page: "; err]))
  | Val page :: rest =>
      versions <- appendPage GetSecret page versions ;;
      fetchPages GetSecret rest versions
  end.

(** The whole of [ListSecretVersions]: the loop, then the sort. *)
Definition ListSecretVersions
    (sort_Slice : (SecretVersion -> SecretVersion -> bool) ->
                  list SecretVersion -> list SecretVersion)
    (GetSecret : string -> result (option string))
    (pages : list (result (list SecretProperties)))
  : outcome (result (list SecretVersion)) :=
  r <- fetchPages GetSecret pages [] ;;
  match r with
  | Err err => Ok (Err err)
  | Val versions => Ok (Val (keyvault.ListSecretVersions sort_Slice versions))
  end.

(** ** What the loop is expected to give *)

(** The version a property entry is listed under, if it is listed. *)
Definition listed (props : SecretProperties) : list string :=
  match ID props with
  | Some version => if String.eqb version "" then [] else [version]
  | None => []
  end.

(** The value listed for a version: the secret, or the text of the
    failure to fetch it. *)
Definition valueFor (GetSecret : string -> result (option string))
                    (version : string) : string :=
  match GetSecret version with
  | Err err => cat ["Error fetching value: "; err]
  | Val (Some s) => s
  | Val None => ""
  end.

(** All the property entries of the pages that were fetched. *)
Fixpoint entries (pages : list (result (list SecretProperties)))
  : list SecretProperties :=
  match pages with
  | [] => []
  | Err _ :: _ => []
  | Val page :: rest => page ++ entries rest
  end.

Definition allFetched (pages : list (result (list SecretProperties))) : bool :=
  forallb (fun p => match p with Val _ => true | Err _ => false end) pages.

Definition hasAttributes (props : SecretProperties) : bool :=
  match Attributes props with Some _ => true | None => false end.

(** The entry is skipped by the loop, or it carries attributes. *)
Definition skippedOrAttributed (props : SecretProperties) : bool :=
  match listed props with
  | [] => true
  | _ => hasAttributes props
  end.

(** [m[key]] on a map held as a list of bindings. *)
Fixpoint lookup {V : Type} (key : string) (m : list (string * V)) : option V :=
  match m with
  | [] => None
  | (k, v) :: rest => if String.eqb key k then Some v else lookup key rest
  end.

(** Entries and an answer of the vault to try the properties on. *)
Definition attrs (created : Time) : SecretAttributes :=
  mkAttributes (Some true) (Some created) (Some created) None.

Definition propsA : SecretProperties :=
  mkProperties (Some "9d41c07be2a35f68") (Some (attrs 1700000900))
               (Some [("env", Some "prod"); ("owner", None)]).
Definition propsB : SecretProperties :=
  mkProperties (Some "03b7e5f1a9c2d446") (Some (attrs 1600000000)) None.
Definition propsNoId : SecretProperties :=
  mkProperties None (Some (attrs 1500000000)) None.
Definition propsBare : SecretProperties :=
  mkProperties (Some "77aa10c2d9e84f03") None None.

Definition vault (version : string) : result (option string) :=
  if String.eqb version "9d41c07be2a35f68" then Val (Some "token=new")
  else Err "403 Forbidden".

End listing.

(* ================================================================== *)
(** * Further properties of the two sessions: what they are stated with *)
(* ================================================================== *)

Module SessionProps.
Import strings.

(** Where the cursor of the browse session stands after the messages, by
    the keys alone: a previous key steps down to 0 at most, a next key
    steps up to [count - 1] at most, no other message moves it. *)
Fixpoint cursorWalk (count idx : Z) (msgs : list tea.Msg) : Z :=
  match msgs with
  | [] => idx
  | tea.KeyMsg k :: rest =>
      if tui.key_in k ["esc"; "q"; "ctrl+c"] then cursorWalk count idx rest
      else if tui.key_in k ["left"; "h"] then
        cursorWalk count (Z.max 0 (idx - 1)) rest
      else if tui.key_in k ["right"; "l"] then
        cursorWalk count (Z.min (count - 1) (idx + 1)) rest
      else cursorWalk count idx rest
  | _ :: rest => cursorWalk count idx rest
  end.

(** A message is fit for the browse session when it is not a window
    size lower than 5 rows (or higher than an [int] can hold): the
    height of the pane, which is 5 less, is then not negative. *)
Definition tallEnough (msg : tea.Msg) : Prop :=
  match msg with
  | tea.WindowSizeMsg _ h => 5 <= h < 2 ^ 63
  | _ => True
  end.

(** The pane of a browse session that is ready holds the rows of the
    rendering of the version under the cursor, wrapped to the width of
    the pane (a carriage return before the end of a row does not reach
    the pane), and that rendering shows the value of the version. *)
Definition browseShowsCurrent (m : tui.Model) : Prop :=
  tui.ready m = true ->
  exists version rendered,
    nth_error (tui.versions m) (Z.to_nat (tui.currentIdx m)) = Some version /\
    tui.wrapTextWithLineNumbers (keyvault.Value version) (tui.maxWidth m)
      = Ok rendered /\
    (BrowseProps.numbersFit (keyvault.Value version) ->
     BrowseProps.showsValue rendered (keyvault.Value version)) /\
    viewport.lines (tui.viewport m) = Split_newline (ReplaceAll_CRLF rendered).

(** Messages to try the browse session on: a window, a move, scroll
    keys, a quit key and a move that is handled after it. *)
Definition scrolledKeys : list tea.Msg :=
  [tea.WindowSizeMsg 80 24; tea.KeyMsg "right"; tea.KeyMsg "down";
   tea.KeyMsg "pgup"; tea.KeyMsg "q"; tea.KeyMsg "left"].

(** A key of [keys] is among the messages. *)
Definition handled (keys : list string) (msgs : list tea.Msg) : bool :=
  existsb (fun msg => match msg with
                      | tea.KeyMsg k => difftui.key_in k keys
                      | _ => false
                      end) msgs.

(** A message is fit for the review session when it is not a window size
    narrower than 30 columns or lower than 6 rows (or larger than an
    [int] can hold): the wrap width of the panes is then positive and
    their height is not negative. *)
Definition roomy (msg : tea.Msg) : Prop :=
  match msg with
  | tea.WindowSizeMsg w h => 30 <= w < 2 ^ 63 /\ 6 <= h < 2 ^ 63
  | _ => True
  end.

(** The panes of a review session that is ready have one size and hold
    the rows of the two sides of the diff of the two values, wrapped to
    the width of the pane less 10. *)
Definition reviewShowsDiff (m : difftui.Model) : Prop :=
  difftui.ready m = true ->
  viewport.Width (difftui.leftViewport m)
    = viewport.Width (difftui.rightViewport m) /\
  viewport.Height (difftui.leftViewport m)
    = viewport.Height (difftui.rightViewport m) /\
  exists oldContent newContent,
    difftui.renderDiffLines
      (fst (difftui.computeDiff (Split_newline (difftui.oldValue m))
                                (Split_newline (difftui.newValue m))))
      (int_sub (viewport.Width (difftui.leftViewport m)) 10) true
      = Ok oldContent /\
    difftui.renderDiffLines
      (snd (difftui.computeDiff (Split_newline (difftui.oldValue m))
                                (Split_newline (difftui.newValue m))))
      (int_sub (viewport.Width (difftui.leftViewport m)) 10) false
      = Ok newContent /\
    viewport.lines (difftui.leftViewport m)
      = Split_newline (ReplaceAll_CRLF oldContent) /\
    viewport.lines (difftui.rightViewport m)
      = Split_newline (ReplaceAll_CRLF newContent).

(** A review to try the properties on: a window, a scroll, a
    cancellation, and a confirmation that is handled after it. *)
Definition reviewKeys : list tea.Msg :=
  [tea.WindowSizeMsg 80 24; tea.KeyMsg "down"; tea.KeyMsg "n"; tea.KeyMsg "y"].

Definition reviewEnd : difftui.Model :=
  match difftui.run (difftui.NewModel ReviewScenarios.oldSettings
                       ReviewScenarios.newSettings "orders-db") reviewKeys with
  | Ok m => m
  | _ => difftui.NewModel "" "" ""
  end.

End SessionProps.

(* ================================================================== *)
(** * Properties of the positional diff                                *)
(* ================================================================== *)

Module DiffFacts.
Import strings difftui DiffProps.

(** The loop appends the two entries of every index from [i] on. *)
Lemma diffLoop_map (n : nat) :
  forall i oldLines newLines leftDiff rightDiff,
    diffLoop n i oldLines newLines leftDiff rightDiff =
    (leftDiff ++ map (leftAt oldLines newLines) (seq i n),
     rightDiff ++ map (rightAt oldLines newLines) (seq i n)).
Proof.
  induction n as [|n IH]; intros i oldLines newLines leftDiff rightDiff.
  - simpl. now rewrite !app_nil_r.
  - cbn [diffLoop seq map]. rewrite IH.
    now rewrite <- !app_assoc.
Qed.

Lemma computeDiff_map (oldLines newLines : list string) :
  computeDiff oldLines newLines =
  (map (leftAt oldLines newLines)
       (seq 0 (Nat.max (List.length oldLines) (List.length newLines))),
   map (rightAt oldLines newLines)
       (seq 0 (Nat.max (List.length oldLines) (List.length newLines)))).
Proof.
  unfold computeDiff. rewrite diffLoop_map. cbn [app].
  destruct (Nat.ltb_spec (List.length oldLines) (List.length newLines)).
  - now rewrite Nat.max_r by lia.
  - now rewrite Nat.max_l by lia.
Qed.

Lemma nth_error_map_seq {A : Type} (f : nat -> A) (n i : nat) :
  (i < n)%nat -> nth_error (map f (seq 0 n)) i = Some (f i).
Proof.
  intros Hi. rewrite nth_error_map, nth_error_seq.
  destruct (Nat.ltb_spec i n); [reflexivity | lia].
Qed.

Lemma nth_error_map_seq_inv {A : Type} (f : nat -> A) (n i : nat) (a : A) :
  nth_error (map f (seq 0 n)) i = Some a -> (i < n)%nat /\ a = f i.
Proof.
  intros H.
  assert (Hi : (i < n)%nat).
  { assert (Hs : nth_error (map f (seq 0 n)) i <> None) by congruence.
    apply nth_error_Some in Hs.
    now rewrite length_map, length_seq in Hs. }
  rewrite nth_error_map_seq in H by exact Hi.
  split; [exact Hi | congruence].
Qed.

(** The entries at an index below the longer of the two lengths. *)
Lemma computeDiff_nth (oldLines newLines : list string) (i : nat) :
  (i < Nat.max (List.length oldLines) (List.length newLines))%nat ->
  nth_error (fst (computeDiff oldLines newLines)) i
    = Some (leftAt oldLines newLines i) /\
  nth_error (snd (computeDiff oldLines newLines)) i
    = Some (rightAt oldLines newLines i).
Proof.
  intros Hi. rewrite computeDiff_map. cbn [fst snd].
  split; now apply nth_error_map_seq.
Qed.

Lemma computeDiff_length (oldLines newLines : list string) :
  List.length (fst (computeDiff oldLines newLines))
    = Nat.max (List.length oldLines) (List.length newLines) /\
  List.length (snd (computeDiff oldLines newLines))
    = Nat.max (List.length oldLines) (List.length newLines).
Proof.
  rewrite computeDiff_map. cbn [fst snd].
  now rewrite !length_map, !length_seq.
Qed.

(** An entry written for a present line carries [i + 1]; the other kind
    of entry carries 0. *)
Lemma leftAt_lineNum (oldLines newLines : list string) (i : nat) :
  lineNum (leftAt oldLines newLines i) = Z.of_nat i + 1 \/
  lineNum (leftAt oldLines newLines i) = 0.
Proof.
  unfold leftAt, diffAt. cbn [fst].
  destruct (i <? List.length oldLines)%nat; cbn; auto.
Qed.

Lemma rightAt_lineNum (oldLines newLines : list string) (i : nat) :
  lineNum (rightAt oldLines newLines i) = Z.of_nat i + 1 \/
  lineNum (rightAt oldLines newLines i) = 0.
Proof.
  unfold rightAt, diffAt. cbn [snd].
  destruct (i <? List.length newLines)%nat; cbn; auto.
Qed.

Lemma classify_Placeholder (isLeft : bool) (line : diffLine) :
  classify isLeft line = Placeholder <-> lineNum line = 0.
Proof.
  unfold classify. destruct (Z.eqb_spec (lineNum line) 0) as [E|E].
  - tauto.
  - split; [|tauto].
    destruct (isLeft && isDiff line), (negb isLeft && isAdded line),
             (negb isLeft && isDiff line); discriminate.
Qed.

(** What [renderDiffLines] writes after the line number agrees with
    [classify]. *)
Lemma firstRowMarker_classify (isLeft : bool) (line : diffLine) :
  lineNum line <> 0 ->
  firstRowMarker line isLeft =
  match classify isLeft line with
  | Removed => " - "
  | Added => " + "
  | Changed => " ~ "
  | _ => bar
  end.
Proof.
  intros H. unfold firstRowMarker, classify.
  destruct (Z.eqb_spec (lineNum line) 0); [contradiction|].
  destruct (isLeft && isDiff line); [reflexivity|].
  destruct (negb isLeft && isAdded line); [reflexivity|].
  destruct (negb isLeft && isDiff line); reflexivity.
Qed.

(** Old exhausted, new present: blank row on the left, an addition on
    the right. *)
Lemma diff_only_new (oldLines newLines : list string) (i : nat) :
  (List.length oldLines <= i < List.length newLines)%nat ->
  leftAt oldLines newLines i = mkDiffLine 0 "" false false /\
  classify true (leftAt oldLines newLines i) = Placeholder /\
  lineNum (rightAt oldLines newLines i) = Z.of_nat i + 1 /\
  classify false (rightAt oldLines newLines i) = Added.
Proof.
  intros [Ho Hn]. unfold leftAt, rightAt, diffAt. cbn [fst snd].
  destruct (Nat.ltb_spec i (List.length oldLines)); [lia|].
  destruct (Nat.ltb_spec i (List.length newLines)); [|lia].
  cbn. unfold classify. cbn.
  destruct (Z.eqb_spec (Z.of_nat i + 1) 0); [lia|]. auto.
Qed.

(** New exhausted, old present: a blank row on the right; the left entry
    is flagged only when the old line is not empty, because the missing
    new line is compared as the empty string. *)
Lemma diff_only_old (oldLines newLines : list string) (i : nat) :
  (List.length newLines <= i < List.length oldLines)%nat ->
  rightAt oldLines newLines i = mkDiffLine 0 "" false false /\
  classify false (rightAt oldLines newLines i) = Placeholder /\
  lineNum (leftAt oldLines newLines i) = Z.of_nat i + 1 /\
  classify true (leftAt oldLines newLines i) =
    if String.eqb (nth i oldLines "") "" then Unchanged else Removed.
Proof.
  intros [Hn Ho]. unfold leftAt, rightAt, diffAt. cbn [fst snd].
  destruct (Nat.ltb_spec i (List.length oldLines)); [|lia].
  destruct (Nat.ltb_spec i (List.length newLines)); [lia|].
  cbn. unfold classify. cbn.
  destruct (Z.eqb_spec (Z.of_nat i + 1) 0); [lia|].
  destruct (String.eqb (nth i oldLines "") ""); auto.
Qed.

End DiffFacts.

Module DiffClaims.
Import strings difftui DiffProps DiffFacts.

(** C3, at the input where the code departs from it: old lines
    ["a"; ""] (the text "a" and a newline), new lines ["a"].  At index 1
    only the old line is present, and it is empty: the right entry is
    the blank placeholder, but the left entry is written with
    [isDiff = false] and reads as Unchanged, not Removed. *)
Theorem removed_empty_line_reads_unchanged :
  Split_newline (String.append "a" NL) = ["a"; ""] /\
  nth_error (fst (computeDiff ["a"; ""] ["a"])) 1
    = Some (mkDiffLine 2 "" false false) /\
  classify true (mkDiffLine 2 "" false false) = Unchanged /\
  nth_error (snd (computeDiff ["a"; ""] ["a"])) 1
    = Some (mkDiffLine 0 "" false false) /\
  classify false (mkDiffLine 0 "" false false) = Placeholder.
Proof. repeat split; reflexivity. Qed.

(** C4: at an index where both lines are present and differ, the left
    entry is Removed, and the right entry is Changed when the old line
    is not empty and Added when it is. *)
Theorem both_present_and_different
    (oldLines newLines : list string) (i : nat) (oldLine newLine : string) :
  nth_error oldLines i = Some oldLine ->
  nth_error newLines i = Some newLine ->
  oldLine <> newLine ->
  exists left right,
    nth_error (fst (computeDiff oldLines newLines)) i = Some left /\
    nth_error (snd (computeDiff oldLines newLines)) i = Some right /\
    classify true left = Removed /\
    (oldLine <> "" -> classify false right = Changed) /\
    (oldLine = "" -> classify false right = Added).
Proof.
  intros Ho Hn Hne.
  assert (Hio : (i < List.length oldLines)%nat)
    by (apply nth_error_Some; congruence).
  assert (Hin : (i < List.length newLines)%nat)
    by (apply nth_error_Some; congruence).
  destruct (computeDiff_nth oldLines newLines i) as [Hl Hr]; [lia|].
  exists (leftAt oldLines newLines i), (rightAt oldLines newLines i).
  split; [exact Hl|]. split; [exact Hr|].
  unfold leftAt, rightAt, diffAt. cbn [fst snd].
  destruct (Nat.ltb_spec i (List.length oldLines)); [|lia].
  destruct (Nat.ltb_spec i (List.length newLines)); [|lia].
  rewrite (nth_error_nth _ _ "" Ho), (nth_error_nth _ _ "" Hn).
  destruct (String.eqb_spec oldLine newLine) as [E|_]; [contradiction|].
  unfold classify. cbn.
  destruct (Z.eqb_spec (Z.of_nat i + 1) 0); [lia|].
  repeat split.
  - intros Hnon. destruct (String.eqb_spec oldLine ""); [contradiction|reflexivity].
  - intros He. destruct (String.eqb_spec oldLine ""); [reflexivity|contradiction].
Qed.

(** The theorem on a change of a non-empty line and on a line typed
    where an empty one was. *)
Lemma both_present_and_different_witness :
  exists left right,
    nth_error (fst (computeDiff ["k=1"; ""] ["k=2"; "x"])) 0 = Some left /\
    nth_error (snd (computeDiff ["k=1"; ""] ["k=2"; "x"])) 0 = Some right /\
    classify true left = Removed /\
    ("k=1" <> "" -> classify false right = Changed) /\
    ("k=1" = "" -> classify false right = Added).
Proof.
  apply (both_present_and_different ["k=1"; ""] ["k=2"; "x"] 0 "k=1" "k=2").
  - reflexivity.
  - reflexivity.
  - discriminate.
Defined.

(** C5 as stated fails: the two texts end in a newline, so each splits
    into two lines and the comparison has two entries a side. *)
Lemma Compare_secret_is_not_one_entry :
  Compare (String.append "secret1" NL) (String.append "secret2" NL) <>
  ([mkSpecLine (Some 1) "secret1" Removed],
   [mkSpecLine (Some 1) "secret2" Changed]).
Proof. vm_compute. discriminate. Qed.

(** C5, amended: the first entries are as stated, and a second position
    follows for the empty text after the final newline, numbered 2 on
    both sides and Unchanged on the left. *)
Theorem Compare_secret_scenario :
  exists c,
    Compare (String.append "secret1" NL) (String.append "secret2" NL) =
    ([mkSpecLine (Some 1) "secret1" Removed; mkSpecLine (Some 2) "" Unchanged],
     [mkSpecLine (Some 1) "secret2" Changed; mkSpecLine (Some 2) "" c]).
Proof. eexists. vm_compute. reflexivity. Qed.

(** C10: the two sequences have the same length, the larger of the two
    numbers of lines, and an entry at index [i] that is not a
    placeholder carries the line number [i + 1]. *)
Theorem computeDiff_shape (oldText newText : string) :
  let oldLines := Split_newline oldText in
  let newLines := Split_newline newText in
  let diff := computeDiff oldLines newLines in
  List.length (fst diff) = List.length (snd diff) /\
  List.length (fst diff)
    = Nat.max (List.length oldLines) (List.length newLines) /\
  (forall i line, nth_error (fst diff) i = Some line ->
     classify true line <> Placeholder -> lineNum line = Z.of_nat i + 1) /\
  (forall i line, nth_error (snd diff) i = Some line ->
     classify false line <> Placeholder -> lineNum line = Z.of_nat i + 1).
Proof.
  intros oldLines newLines diff. subst diff.
  destruct (computeDiff_length oldLines newLines) as [Hl Hr].
  split; [congruence|]. split; [exact Hl|].
  rewrite computeDiff_map. cbn [fst snd].
  split; intros i line Hnth Hcls;
    apply nth_error_map_seq_inv in Hnth; destruct Hnth as [_ ->];
    rewrite classify_Placeholder in Hcls.
  - destruct (leftAt_lineNum oldLines newLines i); [assumption|contradiction].
  - destruct (rightAt_lineNum oldLines newLines i); [assumption|contradiction].
Qed.

End DiffClaims.

(* ================================================================== *)
(** * Properties of wrapLine                                           *)
(* ================================================================== *)

Module WrapFacts.
Import strings wrap WrapProps.

Lemma length_drop (n : nat) :
  forall s, String.length (drop n s) = (String.length s - n)%nat.
Proof.
  induction n as [|n IH]; intros [|c r]; cbn; auto using Nat.sub_0_r.
Qed.

Lemma length_TrimLeft_space (s : string) :
  (String.length (TrimLeft_space s) <= String.length s)%nat.
Proof.
  induction s as [|c r IH]; cbn; [lia|].
  destruct (Ascii.eqb c space); cbn; lia.
Qed.

Lemma TrimLeft_space_fixed (c : ascii) (r : string) :
  c <> space -> TrimLeft_space (String c r) = String c r.
Proof.
  intros H. cbn. destruct (Ascii.eqb_spec c space); [contradiction|reflexivity].
Qed.

(** The break point found by the scan is the width or an index the scan
    visited, and the scan visits positive indices only. *)
Lemma scanBreak_range (k : nat) (width : Z) (remaining : string) :
  forall i, 0 < width -> i <= width ->
    0 < scanBreak k width remaining i <= width.
Proof.
  induction k as [|k IH]; intros i Hw Hi; cbn [scanBreak]; [lia|].
  destruct (i >? int_sub width 20) eqn:E1; cbn [andb]; [|lia].
  destruct (Z.gtb_spec i 0) as [Hpos|Hpos]; [|lia].
  destruct ((i <? len remaining) && is_space_at remaining i); [lia|].
  apply IH; lia.
Qed.

Lemma scanBreak_nonpositive (k : nat) (width : Z) (remaining : string) :
  width <= 0 -> scanBreak k width remaining width = width.
Proof.
  intros Hw. destruct k as [|k]; cbn [scanBreak]; [reflexivity|].
  destruct (Z.gtb_spec width 0) as [H|H]; [lia|].
  now rewrite andb_false_r.
Qed.

(** With a positive width every round of the loop removes at least one
    byte, so fuel beyond the length of the line is never used up. *)
Lemma wrapLoop_total (fuel : nat) :
  forall width remaining wrapped,
    0 < width -> (String.length remaining < fuel)%nat ->
    exists out, wrapLoop fuel width remaining wrapped = Ok out.
Proof.
  induction fuel as [|fuel IH]; intros width remaining wrapped Hw Hf; [lia|].
  cbn [wrapLoop].
  destruct (len remaining >? 0) eqn:Hpos; [|eauto].
  destruct (Z.leb_spec (len remaining) width) as [Hle|Hgt]; [eauto|].
  pose proof (scanBreak_range 20 width remaining width Hw (Z.le_refl _)) as Hb.
  set (b := scanBreak 20 width remaining width) in *.
  destruct (Z.geb_spec b (len remaining)) as [Hge|_]; [lia|].
  destruct (Z.ltb_spec b 0) as [Hneg|_]; [lia|].
  destruct (Z.gtb_spec b (len remaining)) as [Hbig|_]; [lia|].
  cbn [orb]. apply IH; [exact Hw|].
  pose proof (length_TrimLeft_space (drop (Z.to_nat b) remaining)) as Ht.
  rewrite length_drop in Ht. unfold len in *. lia.
Qed.

Lemma wrapLine_total (line : string) (width : Z) :
  0 < width -> exists out, wrapLine line width = Ok out.
Proof.
  intros Hw. unfold wrapLine, wrapLineFuel.
  destruct (len line <=? width); [eauto|].
  apply wrapLoop_total; [exact Hw | lia].
Qed.

(** More fuel does not change a result once there is one. *)
Lemma wrapLoop_more_fuel (fuel : nat) :
  forall fuel' width remaining wrapped,
    (fuel <= fuel')%nat ->
    wrapLoop fuel width remaining wrapped <> OutOfFuel ->
    wrapLoop fuel' width remaining wrapped
      = wrapLoop fuel width remaining wrapped.
Proof.
  induction fuel as [|fuel IH]; intros fuel' width remaining wrapped Hle Hres.
  - cbn in Hres. congruence.
  - destruct fuel' as [|fuel']; [lia|].
    cbn [wrapLoop] in *.
    destruct (len remaining >? 0); [|reflexivity].
    destruct (len remaining <=? width); [reflexivity|].
    match goal with |- (if ?c then _ else _) = _ => destruct c end;
      [reflexivity|].
    apply IH; [lia | exact Hres].
Qed.

(** With width 0 nothing is consumed: a line that starts with a byte
    other than a space is wrapped for ever. *)
Lemma wrapLoop_zero_width_diverges (fuel : nat) :
  forall c r wrapped,
    c <> space -> wrapLoop fuel 0 (String c r) wrapped = OutOfFuel.
Proof.
  induction fuel as [|fuel IH]; intros c r wrapped Hc; [reflexivity|].
  cbn [wrapLoop].
  rewrite scanBreak_nonpositive by lia.
  assert (Hlen : 0 < len (String c r)) by (unfold len; cbn; lia).
  destruct (Z.gtb_spec (len (String c r)) 0); [|lia].
  destruct (Z.leb_spec (len (String c r)) 0); [lia|].
  destruct (Z.geb_spec 0 (len (String c r))); [lia|].
  destruct (Z.gtb_spec 0 (len (String c r))); [lia|].
  cbn [Z.ltb Z.compare orb Z.to_nat drop take].
  rewrite TrimLeft_space_fixed by exact Hc.
  apply IH; exact Hc.
Qed.

Lemma wrapLineFuel_zero_width_diverges (fuel : nat) (c : ascii) (r : string) :
  c <> space -> wrapLineFuel fuel (String c r) 0 = OutOfFuel.
Proof.
  intros Hc. unfold wrapLineFuel.
  destruct (Z.leb_spec (len (String c r)) 0) as [H|_].
  - unfold len in H. cbn in H. lia.
  - now apply wrapLoop_zero_width_diverges.
Qed.

(** With a negative width the first round slices [remaining[:width]]. *)
Lemma wrapLineFuel_negative_width_panics
    (fuel : nat) (c : ascii) (r : string) (width : Z) :
  width < 0 ->
  wrapLineFuel (S fuel) (String c r) width = Panic "slice bounds out of range".
Proof.
  intros Hw. unfold wrapLineFuel.
  assert (Hlen : 0 < len (String c r)) by (unfold len; cbn; lia).
  destruct (Z.leb_spec (len (String c r)) width); [lia|].
  cbn [wrapLoop].
  rewrite scanBreak_nonpositive by lia.
  destruct (Z.gtb_spec (len (String c r)) 0); [|lia].
  destruct (Z.leb_spec (len (String c r)) width); [lia|].
  destruct (Z.geb_spec width (len (String c r))); [lia|].
  destruct (Z.ltb_spec width 0); [reflexivity|lia].
Qed.

Lemma TrimLeft_space_head (s : string) :
  TrimLeft_space s = "" \/
  exists c r, TrimLeft_space s = String c r /\ c <> space.
Proof.
  induction s as [|c r IH]; cbn; [now left|].
  destruct (Ascii.eqb_spec c space) as [E|E]; [exact IH|].
  right. now exists c, r.
Qed.

(** The fuel of [wrapLine] is exhausted only by a line that no amount
    of fuel wraps. *)
Lemma wrapLine_out_of_fuel_diverges (line : string) (width : Z) :
  wrapLine line width = OutOfFuel ->
  forall fuel, wrapLineFuel fuel line width = OutOfFuel.
Proof.
  intros H fuel.
  destruct (Z.lt_trichotomy 0 width) as [Hw|[Hw|Hw]].
  - destruct (wrapLine_total line width Hw) as [out E]. congruence.
  - subst width. destruct line as [|c r]; [discriminate H|].
    unfold wrapLine, wrapLineFuel in *.
    destruct (Z.leb_spec (len (String c r)) 0) as [Hl|_]; [discriminate H|].
    destruct fuel as [|fuel]; [reflexivity|].
    cbn [wrapLoop] in *. rewrite scanBreak_nonpositive in * by lia.
    destruct (len (String c r) >? 0); [|discriminate H].
    destruct (len (String c r) <=? 0); [discriminate H|].
    destruct (0 >=? len (String c r)); cbn [Z.ltb Z.compare orb] in *;
      destruct (0 >? len (String c r)); try discriminate H;
      cbn [Z.to_nat drop take] in *;
      (destruct (TrimLeft_space_head (String c r)) as [E|(c' & r' & E & Hc')];
       rewrite E in *;
       [ destruct (String.length r); discriminate H
       | now apply wrapLoop_zero_width_diverges ]).
  - destruct line as [|c r].
    + unfold wrapLine, wrapLineFuel in H.
      destruct (len "" <=? width); discriminate H.
    + unfold wrapLine in H.
      rewrite wrapLineFuel_negative_width_panics in H by exact Hw.
      discriminate H.
Qed.

Lemma length_take (n : nat) :
  forall s, String.length (take n s) = Nat.min n (String.length s).
Proof.
  induction n as [|n IH]; intros [|c r]; cbn; auto.
Qed.

Lemma take_drop (n : nat) :
  forall s, String.append (take n s) (drop n s) = s.
Proof.
  induction n as [|n IH]; intros [|c r]; cbn; auto. now rewrite IH.
Qed.

Lemma nospace_append (s t : string) :
  nospace (String.append s t) = String.append (nospace s) (nospace t).
Proof.
  induction s as [|c r IH]; cbn; [reflexivity|].
  destruct (Ascii.eqb c space); cbn; now rewrite IH.
Qed.

Lemma nospace_TrimLeft_space (s : string) :
  nospace (TrimLeft_space s) = nospace s.
Proof.
  induction s as [|c r IH]; cbn; [reflexivity|].
  destruct (Ascii.eqb c space) eqn:E; [exact IH|].
  cbn. now rewrite E.
Qed.

Lemma string_append_assoc (s t u : string) :
  String.append (String.append s t) u = String.append s (String.append t u).
Proof. induction s as [|c r IH]; cbn; congruence. Qed.

Lemma joinAll_app (l1 l2 : list string) :
  joinAll (l1 ++ l2) = String.append (joinAll l1) (joinAll l2).
Proof.
  unfold joinAll. induction l1 as [|x l1 IH]; cbn; [reflexivity|].
  now rewrite IH, string_append_assoc.
Qed.

Lemma append_empty_r (s : string) : String.append s "" = s.
Proof. induction s as [|c r IH]; cbn; congruence. Qed.

(** The loop only ever cuts the rest of the line in two and drops spaces
    at the cut. *)
Lemma wrapLoop_keeps_bytes (fuel : nat) :
  forall width remaining wrapped out,
    wrapLoop fuel width remaining wrapped = Ok out ->
    nospace (joinAll out) =
    String.append (nospace (joinAll wrapped)) (nospace remaining).
Proof.
  induction fuel as [|fuel IH]; intros width remaining wrapped out H;
    [discriminate H|].
  cbn [wrapLoop] in H.
  destruct (len remaining >? 0) eqn:Hpos.
  - destruct (len remaining <=? width).
    + injection H as <-. rewrite joinAll_app, nospace_append. cbn.
      now rewrite append_empty_r.
    + match type of H with
      | (if ?c then _ else _) = _ => destruct c; [discriminate H|]
      end.
      apply IH in H. rewrite H.
      rewrite joinAll_app, nospace_append, nospace_TrimLeft_space. cbn.
      rewrite append_empty_r, string_append_assoc, <- nospace_append.
      now rewrite take_drop.
  - injection H as <-.
    destruct remaining; [now rewrite append_empty_r|].
    unfold len in Hpos. cbn in Hpos. discriminate Hpos.
Qed.

(** With a positive width, every segment the loop appends is between one
    byte and [width] bytes long, and it appends one when there is text. *)
Lemma wrapLoop_segments (fuel : nat) :
  forall width remaining wrapped out,
    0 < width ->
    wrapLoop fuel width remaining wrapped = Ok out ->
    exists new,
      out = wrapped ++ new /\
      Forall (fun s => 0 < len s <= width) new /\
      (remaining <> "" -> new <> []).
Proof.
  induction fuel as [|fuel IH]; intros width remaining wrapped out Hw H;
    [discriminate H|].
  cbn [wrapLoop] in H.
  destruct (Z.gtb_spec (len remaining) 0) as [Hpos|Hpos].
  - destruct (Z.leb_spec (len remaining) width) as [Hle|Hgt].
    + injection H as <-. exists [remaining].
      split; [reflexivity|]. split; [|discriminate].
      constructor; [lia | constructor].
    + pose proof (scanBreak_range 20 width remaining width Hw (Z.le_refl _)) as Hb.
      set (b := scanBreak 20 width remaining width) in *.
      destruct (Z.geb_spec b (len remaining)) as [Hge|_]; [lia|].
      destruct (Z.ltb_spec b 0) as [Hneg|_]; [lia|].
      destruct (Z.gtb_spec b (len remaining)) as [Hbig|_]; [lia|].
      cbn [orb] in H. apply IH in H; [|exact Hw].
      destruct H as (new & -> & Hall & _).
      exists (take (Z.to_nat b) remaining :: new).
      split; [now rewrite <- app_assoc|]. split; [|discriminate].
      constructor; [|exact Hall].
      unfold len in *. rewrite length_take. lia.
  - injection H as <-. exists []. split; [now rewrite app_nil_r|].
    split; [constructor|].
    intros Hne. destruct remaining; [contradiction|].
    unfold len in Hpos. cbn in Hpos. lia.
Qed.

End WrapFacts.

(* ================================================================== *)
(** * Properties of the edit workflow                                  *)
(* ================================================================== *)

Module EditFacts.
Import strings edit.

(** Case analysis on every answer of the world that [runEdit] looks at,
    in the order it asks for them. *)
Ltac world_cases w :=
  destruct w as [nc lsv ed EDITOR ctf oe rf run ss sd];
  unfold call_runEdit, runEdit, ExitWithError, slice_to_8, pbind, emit,
         defer, ret, return_, os_Exit, panic;
  cbn [w_NewClient w_ListSecretVersions w_editor w_EDITOR
       w_createSecureTempFile w_openEditor w_ReadFile w_Run w_SetSecret
       w_secureDelete trace deferred];
  destruct nc as [?|]; cbn;
  [ | destruct lsv as [[|latestVersion ?]|?]; cbn;
      [ | destruct ctf as [tempFile|?]; cbn;
          [ destruct (len (keyvault.Version latestVersion) <? 8); cbn;
            [ | destruct oe as [?|]; cbn;
                [ | destruct rf as [newValue|?]; cbn;
                    [ destruct (String.eqb_spec newValue
                                  (keyvault.Value latestVersion)); cbn;
                      [ | destruct run as [finalModel|?]; cbn;
                          [ destruct (difftui.Confirmed finalModel); cbn;
                            [ destruct ss as [?|]; cbn | ]
                          | ] ]
                    | ] ] ]
          | ]
      | ] ].

Ltac deferred_cases :=
  repeat match goal with
         | |- context [match ?sd with Some _ => _ | None => _ end] =>
             is_var sd; destruct sd; cbn
         | H : context [match ?sd with Some _ => _ | None => _ end] |- _ =>
             is_var sd; destruct sd; cbn in H
         end.

(** Once the temp file exists, [secureDelete] is called exactly on the
    paths that leave [runEdit] by a return or a panic; the paths through
    [ExitWithError] end the process in [os.Exit] and skip it. *)
Lemma secureDelete_iff_not_os_Exit (w : World) (vaultName secretName : string) :
  existsb is_tempFileCreated (snd (call_runEdit w vaultName secretName)) = true ->
  (existsb is_SecureDelete (snd (call_runEdit w vaultName secretName)) = true
   <-> forall code, fst (call_runEdit w vaultName secretName) <> Exited code).
Proof.
  world_cases w; deferred_cases; intros Hc;
    try discriminate Hc;
    (split; [ intros Hd; try discriminate Hd; intros code; discriminate
            | intros Hx; try reflexivity; exfalso; eapply Hx; reflexivity ]).
Qed.

End EditFacts.

Module EditClaims.
Import strings edit EditScenarios EditFacts.

(** C1, at the inputs where the code departs from it: when the editor
    fails, and when the edited file cannot be read, [runEdit] leaves
    through [ExitWithError], the process ends with status 1 in
    [os.Exit], and the deferred [secureDelete] is not run although the
    temp file was created. *)
Theorem ExitWithError_skips_secureDelete :
  (let r := call_runEdit world_editor_fails "vault" "db-password" in
   fst r = Exited 1 /\
   existsb is_tempFileCreated (snd r) = true /\
   existsb is_SecureDelete (snd r) = false) /\
  (let r := call_runEdit world_read_fails "vault" "db-password" in
   fst r = Exited 1 /\
   existsb is_tempFileCreated (snd r) = true /\
   existsb is_SecureDelete (snd r) = false).
Proof. repeat split; reflexivity. Qed.

(** C2: when the content read back equals the original value [x] that
    was written to the temp file, [runEdit] returns, and its trace has no
    run of the review program (where the diff is computed), no call of
    [SetSecret] and nothing committed; it reports that nothing changed. *)
Theorem no_change_returns_before_review
    (w : World) (vaultName secretName x created read : string) :
  In (CreateSecureTempFile x (Val created))
     (snd (call_runEdit w vaultName secretName)) ->
  In (ReadFile read (Val x))
     (snd (call_runEdit w vaultName secretName)) ->
  fst (call_runEdit w vaultName secretName) = Returned /\
  existsb is_RunProgram (snd (call_runEdit w vaultName secretName)) = false /\
  existsb is_SetSecret (snd (call_runEdit w vaultName secretName)) = false /\
  committed (snd (call_runEdit w vaultName secretName)) = false /\
  In (Stdout (cat ["No changes detected. Secret not updated."; NL]))
     (snd (call_runEdit w vaultName secretName)).
Proof.
  world_cases w; deferred_cases; intros Hc Hr;
    repeat (destruct Hc as [Hc|Hc]; try discriminate Hc);
    try contradiction;
    repeat (destruct Hr as [Hr|Hr]; try discriminate Hr);
    try contradiction;
    try (repeat split; try reflexivity; cbn; tauto);
    injection Hc as Hc _; injection Hr as _ Hr; congruence.
Qed.

Lemma no_change_returns_before_review_witness :
  fst (call_runEdit world_no_change "vault" "db-password") = Returned /\
  existsb is_RunProgram
    (snd (call_runEdit world_no_change "vault" "db-password")) = false /\
  existsb is_SetSecret
    (snd (call_runEdit world_no_change "vault" "db-password")) = false /\
  committed (snd (call_runEdit world_no_change "vault" "db-password")) = false /\
  In (Stdout (cat ["No changes detected. Secret not updated."; NL]))
     (snd (call_runEdit world_no_change "vault" "db-password")).
Proof.
  apply (no_change_returns_before_review world_no_change "vault" "db-password"
           "secret1" "/tmp/kv-secret-1f.tmp" "/tmp/kv-secret-1f.tmp").
  - vm_compute. tauto.
  - vm_compute. tauto.
Defined.

End EditClaims.


Module SortFacts.
Import sort keyvault.

Section Generic.
Context {A : Type} (less : A -> A -> bool).

Lemma insertFront_Permutation (x : A) (l : list A) :
  Permutation (x :: l) (insertFront less x l).
Proof.
  induction l as [|y r IH]; cbn; [reflexivity|].
  destruct (less y x); [|reflexivity].
  rewrite perm_swap. now apply perm_skip.
Qed.

Lemma fold_insertFront_Permutation (l : list A) :
  forall acc,
    Permutation (l ++ acc)
      (fold_left (fun sorted x => insertFront less x sorted) l acc).
Proof.
  induction l as [|x l IH]; intros acc; cbn; [reflexivity|].
  rewrite <- IH. rewrite <- insertFront_Permutation.
  apply Permutation_middle.
Qed.

Hypothesis less_ok : StrictWeakOrdering less.

Lemma insertFront_HdRel (a x : A) (l : list A) :
  notAfter less a x -> HdRel (notAfter less) a l ->
  HdRel (notAfter less) a (insertFront less x l).
Proof.
  intros Hax Hal. destruct l as [|y r]; cbn; [now constructor|].
  destruct (less y x); constructor; [|exact Hax].
  now apply HdRel_inv in Hal.
Qed.

Lemma insertFront_Sorted (x : A) (l : list A) :
  IsSorted less l -> IsSorted less (insertFront less x l).
Proof.
  destruct less_ok as (Hasym & _ & _).
  unfold IsSorted. induction l as [|y r IH]; intros Hs; cbn.
  - repeat constructor.
  - apply Sorted_inv in Hs. destruct Hs as [Hr Hy].
    destruct (less y x) eqn:E.
    + constructor; [now apply IH|].
      apply insertFront_HdRel; [|exact Hy].
      unfold notAfter. now apply Hasym.
    + constructor; [now constructor|]. constructor. exact E.
Qed.

Lemma fold_insertFront_Sorted (l : list A) :
  forall acc, IsSorted less acc ->
    IsSorted less (fold_left (fun sorted x => insertFront less x sorted) l acc).
Proof.
  induction l as [|x l IH]; intros acc Hacc; cbn; [exact Hacc|].
  apply IH. now apply insertFront_Sorted.
Qed.

(** In a sorted slice no later element is less than an earlier one. *)
Lemma IsSorted_nth (l : list A) :
  IsSorted less l ->
  forall i j a b, (i < j)%nat ->
    nth_error l i = Some a -> nth_error l j = Some b -> less b a = false.
Proof.
  destruct less_ok as (_ & _ & Hneg).
  intros Hs. apply Sorted_StronglySorted in Hs.
  - induction Hs as [|x l Hl IH Hall]; intros i j a b Hij Ha Hb.
    + destruct i; discriminate Ha.
    + destruct j as [|j]; [lia|]. cbn in Hb.
      destruct i as [|i]; cbn in Ha.
      * injection Ha as <-.
        apply nth_error_In in Hb.
        rewrite Forall_forall in Hall. exact (Hall b Hb).
      * apply (IH i j); [lia | exact Ha | exact Hb].
  - intros a b c Hab Hbc. unfold notAfter in *. now apply (Hneg c b a).
Qed.

End Generic.

(** The sort above is within the contract of [sort.Slice]. *)
Lemma reversingSort_contract (A : Type) :
  SliceContract A reversingSort.
Proof.
  split.
  - intros less l. unfold reversingSort.
    rewrite <- fold_insertFront_Permutation. now rewrite app_nil_r.
  - intros less l Hless. unfold reversingSort.
    apply fold_insertFront_Sorted; [exact Hless | constructor].
Qed.

(** The closure of [ListSecretVersions] is a [less] that [sort.Slice]
    accepts. *)
Lemma less_StrictWeakOrdering : StrictWeakOrdering less.
Proof.
  unfold less, After. repeat split.
  - intros a b. destruct (CreatedOn a), (CreatedOn b); try easy.
    intros H. apply Z.gtb_lt in H.
    destruct (Z.gtb_spec t0 t); [lia|reflexivity].
  - intros a b c. destruct (CreatedOn a), (CreatedOn b), (CreatedOn c); try easy.
    intros H1 H2. apply Z.gtb_lt in H1, H2. apply Z.gtb_lt. lia.
  - intros a b c. destruct (CreatedOn a), (CreatedOn b), (CreatedOn c); try easy.
    intros H1 H2.
    destruct (Z.gtb_spec t t0); [discriminate|].
    destruct (Z.gtb_spec t0 t1); [discriminate|].
    destruct (Z.gtb_spec t t1); [lia|reflexivity].
Qed.

End SortFacts.

(** [sort.Slice] returns. *)
Module PdqsortFacts.
Import sort.

Section Bounds.
Context {A : Type} (less : A -> A -> bool).

Lemma scanUp_from (rounds : nat) (cond : nat -> bool) :
  forall i j, (i <= scanUp rounds cond i j)%nat.
Proof.
  induction rounds as [|rounds IH]; intros i j; cbn [scanUp]; [lia|].
  destruct ((i <=? j)%nat && cond i); [|lia].
  specialize (IH (S i) j). lia.
Qed.

Lemma scanDown_to (rounds : nat) (cond : nat -> bool) :
  forall i j,
    (scanDown rounds cond i j <= j)%nat /\
    (i <= S (scanDown rounds cond i j) \/ scanDown rounds cond i j = j)%nat.
Proof.
  induction rounds as [|rounds IH]; intros i j; cbn [scanDown]; [lia|].
  destruct (Nat.leb_spec i j); cbn [andb]; [|lia].
  destruct (cond j); [|lia].
  specialize (IH i (j - 1)%nat). lia.
Qed.

Lemma partition_loop_mid (rounds : nat) :
  forall (data : list A) a b i j,
    (a + 1 <= i)%nat -> (a <= j)%nat -> (j < b)%nat ->
    (a <= snd (partition_loop less rounds data a i j) < b)%nat.
Proof.
  induction rounds as [|rounds IH]; intros data a b i j Hi Hj Hb;
    cbn [partition_loop]; [cbn [snd]; lia|].
  set (i' := scanUp _ _ i j).
  set (j' := scanDown _ _ i' j).
  pose proof (scanUp_from (S j - i) (fun i => Less less data i a) i j) as Hi'.
  pose proof (scanDown_to (S j - i') (fun j => negb (Less less data j a)) i' j)
    as Hj'.
  fold i' in Hi'. fold j' in Hj'.
  clearbody i' j'. destruct (Nat.ltb_spec j' i'); [cbn [fst snd]; lia|].
  apply IH; lia.
Qed.

Lemma partition_func_mid (data : list A) (a b pivot : nat) :
  (a < b)%nat ->
  (a <= snd (fst (partition_func less data a b pivot)) < b)%nat.
Proof.
  intros Hab. unfold partition_func.
  set (data' := Swap data a pivot).
  set (i' := scanUp _ _ (a + 1)%nat (b - 1)%nat).
  set (j' := scanDown _ _ i' (b - 1)%nat).
  pose proof (scanUp_from (S (b - 1) - (a + 1))
                (fun i => Less less data' i a) (a + 1) (b - 1))%nat as Hi'.
  pose proof (scanDown_to (S (b - 1) - i')
                (fun j => negb (Less less data' j a)) i' (b - 1))%nat as Hj'.
  fold i' in Hi'. fold j' in Hj'.
  clearbody i' j'. destruct (Nat.ltb_spec j' i'); [cbn [fst snd]; lia|].
  cbn [fst snd]. apply partition_loop_mid; lia.
Qed.

Lemma partitionEqual_loop_mid (rounds : nat) :
  forall (data : list A) a i j,
    (i <= snd (partitionEqual_loop less rounds data a i j))%nat.
Proof.
  induction rounds as [|rounds IH]; intros data a i j;
    cbn [partitionEqual_loop]; [cbn [snd]; lia|].
  set (i' := scanUp _ _ i j).
  set (j' := scanDown _ _ i' j).
  pose proof (scanUp_from (S j - i) (fun i => negb (Less less data a i)) i j)
    as Hi'.
  fold i' in Hi'.
  clearbody i' j'. destruct (Nat.ltb_spec j' i'); [cbn [fst snd]; lia|].
  specialize (IH (Swap data i' j') a (S i') (j' - 1)%nat). lia.
Qed.

Lemma partitionEqual_func_mid (data : list A) (a b pivot : nat) :
  (a < snd (partitionEqual_func less data a b pivot))%nat.
Proof.
  unfold partitionEqual_func.
  pose proof (partitionEqual_loop_mid (S (b - a)) (Swap data a pivot) a
                (a + 1) (b - 1))%nat.
  lia.
Qed.

(** Every round and every call of [pdqsort_func] works on a shorter
    range, so it returns on fuel that exceeds the length of the range. *)
Lemma pdqsort_loop_returns (fuel : nat) :
  forall (data : list A) a b limit wasBalanced wasPartitioned,
    (b - a < fuel)%nat ->
    exists sorted,
      pdqsort_loop less fuel data a b limit wasBalanced wasPartitioned
        = Ok sorted.
Proof.
  induction fuel as [|fuel IH];
    intros data a b limit wasBalanced wasPartitioned Hf; [lia|].
  cbn [pdqsort_loop].
  destruct (Nat.leb_spec (b - a) 12); [eauto|].
  destruct (limit =? 0)%nat; [eauto|].
  set (data1 := if wasBalanced then data else breakPatterns_func data a b).
  set (limit1 := if wasBalanced then limit else (limit - 1)%nat).
  destruct (choosePivot_func less data1 a b) as [pivot hint].
  set (t := match hint with
            | decreasingHint =>
                (reverseRange_func data1 a b, (b - 1 - (pivot - a))%nat,
                 increasingHint)
            | _ => (data1, pivot, hint)
            end).
  destruct t as [[data2 pivot2] hint2].
  set (u := if wasBalanced && wasPartitioned && is_increasingHint hint2
            then partialInsertionSort_func less data2 a b
            else (data2, false)).
  destruct u as [data3 sorted].
  destruct sorted; [eauto|].
  destruct ((0 <? a)%nat && negb (Less less data3 (a - 1) pivot2)).
  - pose proof (partitionEqual_func_mid data3 a b pivot2) as Hmid.
    destruct (partitionEqual_func less data3 a b pivot2) as [data4 mid].
    cbn [snd] in Hmid. apply IH. lia.
  - pose proof (partition_func_mid data3 a b pivot2 ltac:(lia)) as Hmid.
    destruct (partition_func less data3 a b pivot2) as [[data4 mid] already].
    cbn [fst snd] in Hmid.
    destruct (mid - a <? b - mid)%nat.
    + destruct (IH data4 a mid limit1 true true ltac:(lia)) as [data5 ->].
      cbn [bind]. apply IH. lia.
    + destruct (IH data4 (mid + 1)%nat b limit1 true true ltac:(lia))
        as [data5 ->].
      cbn [bind]. apply IH. lia.
Qed.

(** [sort.Slice] returns: the fuel it is given is never used up. *)
Lemma SliceFuel_returns (x : list A) :
  exists sorted, SliceFuel less (S (List.length x)) x = Ok sorted.
Proof.
  unfold SliceFuel, pdqsort_func. apply pdqsort_loop_returns. lia.
Qed.

(** So [Slice] is what [SliceFuel] returns. *)
Lemma Slice_is_SliceFuel (x : list A) :
  SliceFuel less (S (List.length x)) x = Ok (Slice less x).
Proof.
  unfold Slice. destruct (SliceFuel_returns x) as [sorted ->]. reflexivity.
Qed.

End Bounds.

End PdqsortFacts.

Module SortClaims.
Import sort keyvault SortProps SortFacts.

(** C7 as stated fails.  [sort.Slice] sorts a slice of more than twelve
    elements by partitioning it around a pivot, and the partition moves
    elements that compare equal past one another.  Of the thirteen
    versions of [thirteen], fetched in this order, the dated one comes
    first, as it has to, and the twelve without a timestamp come out in
    another order than they went in: [u06] is swapped to the front as
    the pivot and [u01] is swapped with the dated entry. *)
Lemma sort_Slice_reorders_timestampless :
  SliceFuel less 14 thirteen
    = Ok [dated "d12" 1700000000; undated "u06"; undated "u02";
          undated "u03"; undated "u04"; undated "u05"; undated "u00";
          undated "u07"; undated "u08"; undated "u09"; undated "u10";
          undated "u11"; undated "u01"] /\
  ListSecretVersions Slice thirteen
    = [dated "d12" 1700000000; undated "u06"; undated "u02";
       undated "u03"; undated "u04"; undated "u05"; undated "u00";
       undated "u07"; undated "u08"; undated "u09"; undated "u10";
       undated "u11"; undated "u01"] /\
  ~ KeepsTimestamplessOrder thirteen (ListSecretVersions Slice thirteen).
Proof.
  split; [vm_compute; reflexivity|].
  split; [vm_compute; reflexivity|].
  intros H. vm_compute in H. discriminate H.
Qed.

(** C7, amended: whatever [sort.Slice] does within its contract, the
    result holds the fetched versions, newest first, with the entries
    that have no timestamp after all those that have one. *)
Theorem ListSecretVersions_newest_first
    (sort_Slice : (SecretVersion -> SecretVersion -> bool) ->
                  list SecretVersion -> list SecretVersion)
    (versions : list SecretVersion) :
  SliceContract SecretVersion sort_Slice ->
  Permutation versions (ListSecretVersions sort_Slice versions) /\
  NewestFirst (ListSecretVersions sort_Slice versions).
Proof.
  intros [Hperm Hsorted]. unfold ListSecretVersions. split; [apply Hperm|].
  intros i j vi vj Hij Hi Hj tj Htj.
  pose proof (IsSorted_nth less less_StrictWeakOrdering _
                (Hsorted less versions less_StrictWeakOrdering)
                i j vi vj Hij Hi Hj) as Hle.
  unfold less, After in Hle. rewrite Htj in Hle.
  destruct (CreatedOn vi) as [ti|]; [|discriminate Hle].
  exists ti. split; [reflexivity|].
  destruct (Z.gtb_spec tj ti); [discriminate Hle | lia].
Qed.

Lemma ListSecretVersions_newest_first_witness :
  Permutation
    [undatedA; dated "c41d" 5; undatedB; dated "e07a" 9]
    (ListSecretVersions reversingSort
       [undatedA; dated "c41d" 5; undatedB; dated "e07a" 9]) /\
  NewestFirst
    (ListSecretVersions reversingSort
       [undatedA; dated "c41d" 5; undatedB; dated "e07a" 9]).
Proof.
  apply (ListSecretVersions_newest_first reversingSort
           [undatedA; dated "c41d" 5; undatedB; dated "e07a" 9]).
  apply reversingSort_contract.
Defined.

End SortClaims.

(* ================================================================== *)
(** * Properties of the viewport                                       *)
(* ================================================================== *)

(** What the sessions rely on in the viewport: its moves change the
    offset only, [SetContent] stores the rows of the text, and no move
    panics in a pane whose height is not negative. *)
Module ViewportFacts.
Import strings viewport ViewportProps.

Lemma sameRows_refl (m : Model) : sameRows m m.
Proof. unfold sameRows. auto. Qed.

Lemma SetYOffset_keeps (m : Model) (n : Z) : sameRows m (SetYOffset m n).
Proof. unfold sameRows, SetYOffset. cbn. auto. Qed.

Lemma SetYOffset_range (m : Model) (n : Z) :
  0 <= YOffset (SetYOffset m n) <= maxYOffset (SetYOffset m n).
Proof. unfold SetYOffset, maxYOffset, clamp. cbn. lia. Qed.

Lemma slice_returns (m : Model) (top bottom : Z) :
  0 <= top -> top <= bottom -> bottom <= Z.of_nat (List.length (lines m)) ->
  exists rows, slice m top bottom = Ok rows.
Proof.
  intros H0 H1 H2. unfold slice.
  destruct (Z.leb_spec 0 top); [|lia].
  destruct (Z.leb_spec top bottom); [|lia].
  destruct (Z.leb_spec bottom (Z.of_nat (List.length (lines m)))); [|lia].
  cbn [andb]. eauto.
Qed.

Lemma visibleLines_returns (m : Model) :
  0 <= Height m -> YOffset m <= maxYOffset m ->
  exists rows, visibleLines m = Ok rows.
Proof.
  intros HH HY. unfold visibleLines.
  destruct (0 <? List.length (lines m))%nat; [|eauto].
  unfold maxYOffset, clamp in *. apply slice_returns; lia.
Qed.

(** [GotoTop] returns in every pane. *)
Lemma GotoTop_returns (m : Model) :
  exists m', GotoTop m = Ok m' /\ sameRows m m' /\
             (0 <= YOffset m -> YOffset m' = 0).
Proof.
  unfold GotoTop, AtTop. destruct (Z.leb_spec (YOffset m) 0) as [Htop|Htop].
  - exists m. split; [reflexivity|]. split; [apply sameRows_refl | lia].
  - assert (H : exists rows, visibleLines (SetYOffset m 0) = Ok rows).
    { unfold visibleLines.
      destruct (0 <? List.length (lines (SetYOffset m 0)))%nat; [|eauto].
      unfold SetYOffset, maxYOffset, clamp. cbn [YOffset Height lines].
      apply slice_returns; cbn [lines]; lia. }
    destruct H as [rows ->]. cbn [bind].
    exists (SetYOffset m 0).
    split; [reflexivity|]. split; [apply SetYOffset_keeps|].
    intros _. unfold SetYOffset, maxYOffset, clamp. cbn. lia.
Qed.

Lemma GotoBottom_returns (m : Model) :
  0 <= Height m ->
  exists m', GotoBottom m = Ok m' /\ sameRows m m' /\ 0 <= YOffset m'.
Proof.
  intros HH. unfold GotoBottom.
  destruct (visibleLines_returns (SetYOffset m (maxYOffset m))) as [rows ->].
  - exact HH.
  - apply SetYOffset_range.
  - cbn [bind]. eexists. split; [reflexivity|].
    split; [apply SetYOffset_keeps | apply SetYOffset_range].
Qed.

Lemma Split_newline_length (s : string) :
  (1 <= List.length (Split_newline s))%nat.
Proof.
  induction s as [|c r IH]; cbn; [lia|].
  destruct (Ascii.eqb c newline); cbn; [lia|].
  destruct (Split_newline r); cbn in *; lia.
Qed.

(** What [SetContent] stores when it returns. *)
Lemma SetContent_stores (m m' : Model) (s : string) :
  SetContent m s = Ok m' ->
  Width m' = Width m /\ Height m' = Height m /\
  lines m' = Split_newline (ReplaceAll_CRLF s).
Proof.
  unfold SetContent. cbn [YOffset lines].
  destruct (_ >? _).
  - unfold GotoBottom.
    destruct (visibleLines _); cbn [bind]; try discriminate.
    intros [= <-]. cbn. auto.
  - intros [= <-]. cbn. auto.
Qed.

(** [SetContent] returns in a pane whose height is not negative, and in
    a pane that stands at its top. *)
Lemma SetContent_returns (m : Model) (s : string) :
  0 <= Height m \/ YOffset m = 0 ->
  exists m', SetContent m s = Ok m' /\ (YOffset m = 0 -> YOffset m' = 0) /\
             (0 <= YOffset m -> 0 <= YOffset m').
Proof.
  intros Hm. unfold SetContent. cbn [YOffset lines].
  pose proof (Split_newline_length (ReplaceAll_CRLF s)) as Hlen.
  destruct (Z.gtb_spec (YOffset m)
              (Z.of_nat (List.length (Split_newline (ReplaceAll_CRLF s))) - 1))
    as [Hgt|Hle].
  - destruct Hm as [HH|HY]; [|lia].
    destruct (GotoBottom_returns
                (mkModel (Width m) (Height m) (YOffset m)
                         (Split_newline (ReplaceAll_CRLF s))) HH)
      as (m' & -> & _ & Hy).
    exists m'. split; [reflexivity|]. split; [lia | auto].
  - eexists. split; [reflexivity|]. cbn. auto.
Qed.

Lemma LineDown_returns (m : Model) (n : Z) :
  exists m', LineDown m n = Ok m' /\ sameRows m m' /\
             (0 <= YOffset m -> 0 <= YOffset m').
Proof.
  unfold LineDown.
  destruct (AtBottom m || (n =? 0) || (List.length (lines m) =? 0)%nat).
  - exists m. auto using sameRows_refl.
  - match goal with
    | |- context [slice ?m' ?top ?bottom] =>
        destruct (slice_returns m' top bottom) as [rows ->]
    end; try (unfold clamp; cbn [lines SetYOffset]; lia).
    cbn [bind]. eexists. split; [reflexivity|].
    split; [apply SetYOffset_keeps | intros _; apply SetYOffset_range].
Qed.

Lemma LineUp_returns (m : Model) (n : Z) :
  0 <= Height m -> 0 <= n ->
  exists m', LineUp m n = Ok m' /\ sameRows m m' /\
             (0 <= YOffset m -> 0 <= YOffset m').
Proof.
  intros HH Hn. unfold LineUp.
  destruct (Z.eqb_spec n 0) as [->|Hn0].
  - rewrite orb_true_r. cbn [orb]. exists m. auto using sameRows_refl.
  - destruct (AtTop m || false || (List.length (lines m) =? 0)%nat).
    + exists m. auto using sameRows_refl.
    + match goal with
      | |- context [slice ?m' ?top ?bottom] =>
          destruct (slice_returns m' top bottom) as [rows ->]
      end;
        try (unfold SetYOffset, maxYOffset, clamp;
             cbn [YOffset Height lines]; lia).
      cbn [bind]. eexists. split; [reflexivity|].
      split; [apply SetYOffset_keeps | intros _; apply SetYOffset_range].
Qed.

(** [Update] returns in a pane whose height is not negative, and changes
    the offset only. *)
Lemma pane_Update_returns (m : Model) (msg : tea.Msg) :
  0 <= Height m ->
  exists m', Update m msg = Ok m' /\ sameRows m m' /\
             (0 <= YOffset m -> 0 <= YOffset m').
Proof.
  intros HH.
  assert (Hsame : exists m', Ok m = Ok m' /\ sameRows m m' /\
                             (0 <= YOffset m -> 0 <= YOffset m'))
    by (exists m; auto using sameRows_refl).
  assert (Hhalf : 0 <= Z.quot (Height m) 2) by (apply Z.quot_pos; lia).
  destruct msg as [k|w h|]; cbn [Update]; try exact Hsame.
  unfold ViewDown, ViewUp, HalfViewDown, HalfViewUp.
  repeat match goal with
         | |- context [if ?c then _ else _] => destruct c
         end;
    auto using LineDown_returns, LineUp_returns with zarith.
Qed.

(** When [Update] returns, it has changed the offset only. *)
Lemma pane_Update_keeps (m m' : Model) (msg : tea.Msg) :
  Update m msg = Ok m' -> sameRows m m'.
Proof.
  assert (Hdown : forall n, LineDown m n = Ok m' -> sameRows m m').
  { intros n. unfold LineDown.
    destruct (_ || _ || _); [intros [= <-]; apply sameRows_refl|].
    destruct (slice _ _ _); cbn [bind]; try discriminate.
    intros [= <-]. apply SetYOffset_keeps. }
  assert (Hup : forall n, LineUp m n = Ok m' -> sameRows m m').
  { intros n. unfold LineUp.
    destruct (_ || _ || _); [intros [= <-]; apply sameRows_refl|].
    destruct (slice _ _ _); cbn [bind]; try discriminate.
    intros [= <-]. apply SetYOffset_keeps. }
  destruct msg as [k|w h|]; cbn [Update];
    try (intros [= <-]; apply sameRows_refl).
  unfold ViewDown, ViewUp, HalfViewDown, HalfViewUp.
  repeat match goal with
         | |- context [if ?c then _ else _] => destruct c
         end;
    eauto; intros [= <-]; apply sameRows_refl.
Qed.

End ViewportFacts.

(* ================================================================== *)
(** * Properties of the browse session                                 *)
(* ================================================================== *)

(** Reading the rendering of the browse pane back. *)
Module RenderFacts.
Import strings lipgloss tui WrapProps BrowseProps WrapFacts.

Lemma take_append_exact (g x : string) :
  take (String.length g) (String.append g x) = g.
Proof. induction g as [|c g IH]; cbn; [now destruct x | now rewrite IH]. Qed.

Lemma drop_append_exact (g x : string) :
  drop (String.length g) (String.append g x) = x.
Proof. induction g as [|c g IH]; cbn; [reflexivity | exact IH]. Qed.

Lemma length_of_append (s t : string) :
  String.length (String.append s t) = (String.length s + String.length t)%nat.
Proof. induction s as [|c s IH]; cbn; [reflexivity | now rewrite IH]. Qed.

Lemma noNewline_append (s t : string) :
  noNewline (String.append s t) = noNewline s && noNewline t.
Proof.
  induction s as [|c s IH]; cbn; [reflexivity|].
  now rewrite IH, andb_assoc.
Qed.

Lemma noNewline_take (n : nat) :
  forall s, noNewline s = true -> noNewline (take n s) = true.
Proof.
  induction n as [|n IH]; intros [|c r]; cbn; auto.
  rewrite !andb_true_iff. intros [H1 H2]. auto.
Qed.

Lemma noNewline_drop (n : nat) :
  forall s, noNewline s = true -> noNewline (drop n s) = true.
Proof.
  induction n as [|n IH]; intros [|c r]; cbn; auto.
  rewrite !andb_true_iff. intros [H1 H2]. auto.
Qed.

Lemma noNewline_TrimLeft_space (s : string) :
  noNewline s = true -> noNewline (TrimLeft_space s) = true.
Proof.
  induction s as [|c r IH]; cbn; [auto|].
  destruct (Ascii.eqb c space); [|auto].
  rewrite andb_true_iff. intros [_ H]. auto.
Qed.

(** The pieces of [strings.Split(s, "\n")] hold no newline. *)
Lemma Split_newline_noNewline (s : string) :
  Forall (fun line => noNewline line = true) (Split_newline s).
Proof.
  induction s as [|c r IH]; cbn [Split_newline].
  - repeat constructor.
  - destruct (Ascii.eqb c newline) eqn:E.
    + constructor; [reflexivity | exact IH].
    + destruct (Split_newline r) as [|h t].
      * repeat constructor. cbn. now rewrite E.
      * apply Forall_cons_iff in IH. destruct IH as [Hh Ht].
        constructor; [|exact Ht]. cbn. now rewrite E, Hh.
Qed.

Lemma Split_newline_one (s : string) :
  noNewline s = true -> Split_newline s = [s].
Proof.
  induction s as [|c r IH]; cbn; [reflexivity|].
  destruct (Ascii.eqb c newline); cbn; [discriminate|].
  intros H. now rewrite (IH H).
Qed.

Lemma Split_newline_row (row rest : string) :
  noNewline row = true ->
  Split_newline (String.append row (String.append NL rest))
  = row :: Split_newline rest.
Proof.
  induction row as [|c r IH]; cbn [String.append Split_newline noNewline].
  - intros _. cbn. reflexivity.
  - destruct (Ascii.eqb c newline); cbn [negb andb]; [discriminate|].
    intros H. rewrite (IH H). reflexivity.
Qed.

Lemma TrimRight_newline_append (s t : string) :
  TrimRight_newline t <> "" ->
  TrimRight_newline (String.append s t) = String.append s (TrimRight_newline t).
Proof.
  intros Ht. induction s as [|c s IH]; cbn [String.append TrimRight_newline];
    [reflexivity|].
  rewrite IH. destruct (String.append s (TrimRight_newline t)) eqn:E;
    [|reflexivity].
  destruct s; cbn in E; [contradiction | discriminate].
Qed.

Lemma TrimRight_newline_row (row : string) :
  noNewline row = true -> row <> "" ->
  TrimRight_newline (String.append row NL) = row.
Proof.
  induction row as [|c r IH]; [contradiction|].
  cbn [String.append TrimRight_newline noNewline].
  rewrite andb_true_iff. intros [Hc Hr] _.
  destruct r as [|c' r'].
  - cbn. destruct (Ascii.eqb c newline); [discriminate | reflexivity].
  - rewrite IH by (auto; discriminate). reflexivity.
Qed.

Lemma concat_rows_not_empty (rows : list string) :
  rows <> [] -> Forall goodRow rows -> String.concat NL rows <> "".
Proof.
  destruct rows as [|row rest]; [contradiction|].
  intros _ H. apply Forall_cons_iff in H. destruct H as [[_ Hne] _].
  cbn [String.concat]. destruct rest; [exact Hne|].
  destruct row; [contradiction | discriminate].
Qed.

(** Trimming the newline after the last row leaves the rows, with a
    newline between them. *)
Lemma TrimRight_newline_unlines (rows : list string) :
  rows <> [] -> Forall goodRow rows ->
  TrimRight_newline (unlines rows) = String.concat NL rows.
Proof.
  induction rows as [|row rest IH]; [contradiction|].
  intros _ H. apply Forall_cons_iff in H. destruct H as [[Hnl Hne] Hrest].
  cbn [unlines String.concat]. destruct rest as [|row' rest'].
  - cbn [unlines]. now apply TrimRight_newline_row.
  - assert (Hrows : row' :: rest' <> []) by discriminate.
    specialize (IH Hrows Hrest).
    pose proof (concat_rows_not_empty _ Hrows Hrest) as Hc.
    rewrite TrimRight_newline_append.
    + rewrite TrimRight_newline_append by (rewrite IH; exact Hc).
      now rewrite IH.
    + rewrite TrimRight_newline_append by (rewrite IH; exact Hc).
      discriminate.
Qed.

Lemma Split_newline_concat (rows : list string) :
  rows <> [] -> Forall goodRow rows ->
  Split_newline (String.concat NL rows) = rows.
Proof.
  induction rows as [|row rest IH]; [contradiction|].
  intros _ H. apply Forall_cons_iff in H. destruct H as [[Hnl Hne] Hrest].
  cbn [String.concat]. destruct rest as [|row' rest'].
  - now apply Split_newline_one.
  - rewrite Split_newline_row by exact Hnl.
    rewrite IH; [reflexivity | discriminate | exact Hrest].
Qed.

Lemma unlines_app (rows1 rows2 : list string) :
  unlines (rows1 ++ rows2) = String.append (unlines rows1) (unlines rows2).
Proof.
  induction rows1 as [|row rest IH]; cbn [app unlines]; [reflexivity|].
  now rewrite IH, !string_append_assoc.
Qed.

(** [writeWrapped] appends the rows of the segments. *)
Lemma writeWrapped_rows (segments : list string) :
  forall i lineNum result,
    writeWrapped segments i lineNum result
    = String.append result (unlines (rowsFrom i lineNum segments)).
Proof.
  induction segments as [|seg rest IH]; intros i lineNum result;
    cbn [writeWrapped rowsFrom unlines].
  - now rewrite append_empty_r.
  - rewrite IH. unfold WriteString, rowOf.
    destruct (i =? 0)%nat; now rewrite !string_append_assoc.
Qed.

(** The segments of a line without a newline hold none. *)
Lemma wrapLoop_noNewline (fuel : nat) :
  forall width remaining wrapped out,
    noNewline remaining = true ->
    Forall (fun s => noNewline s = true) wrapped ->
    wrap.wrapLoop fuel width remaining wrapped = Ok out ->
    Forall (fun s => noNewline s = true) out.
Proof.
  induction fuel as [|fuel IH]; intros width remaining wrapped out Hr Hw H;
    [discriminate H|].
  cbn [wrap.wrapLoop] in H.
  destruct (len remaining >? 0).
  - destruct (len remaining <=? width).
    + injection H as <-. apply Forall_app. split; [exact Hw|].
      now repeat constructor.
    + match type of H with
      | (if ?c then _ else _) = _ => destruct c; [discriminate H|]
      end.
      apply IH in H; [exact H | |].
      * now apply noNewline_TrimLeft_space, noNewline_drop.
      * apply Forall_app. split; [exact Hw|].
        repeat constructor. now apply noNewline_take.
  - injection H as <-. exact Hw.
Qed.

Lemma wrapLine_noNewline (line : string) (width : Z) (segments : list string) :
  noNewline line = true ->
  wrapLine line width = Ok segments ->
  Forall (fun s => noNewline s = true) segments.
Proof.
  intros Hl. unfold wrapLine, wrap.wrapLine, wrap.wrapLineFuel.
  destruct (len line <=? width).
  - intros [= <-]. now repeat constructor.
  - intros H. eapply wrapLoop_noNewline; [exact Hl | constructor | exact H].
Qed.

Lemma wrapLine_not_nil (line : string) (width : Z) (segments : list string) :
  0 < width -> wrapLine line width = Ok segments -> segments <> [].
Proof.
  intros Hw. unfold wrapLine, wrap.wrapLine, wrap.wrapLineFuel.
  destruct (Z.leb_spec (len line) width) as [Hle|Hgt].
  - intros [= <-]. discriminate.
  - intros H. apply wrapLoop_segments in H; [|exact Hw].
    destruct H as (new & -> & _ & Hne). cbn [app]. apply Hne.
    intros ->. unfold len in Hgt. cbn in Hgt. lia.
Qed.

Lemma wrapLine_keeps_bytes (line : string) (width : Z) (segments : list string) :
  wrapLine line width = Ok segments ->
  nospace (joinAll segments) = nospace line.
Proof.
  unfold wrapLine, wrap.wrapLine, wrap.wrapLineFuel.
  destruct (len line <=? width).
  - intros [= <-]. cbn. now rewrite append_empty_r.
  - intros H. apply wrapLoop_keeps_bytes in H. exact H.
Qed.

(** ** The gutter *)

Lemma gutterOk_below_10000 (lineNum : Z) :
  1 <= lineNum < 10000 -> gutterOk lineNum = true.
Proof.
  intros H.
  assert (Hall : forallb (fun n => gutterOk (Z.of_nat n)) (seq 1 (Z.to_nat 9999))
                 = true)
    by (vm_compute; reflexivity).
  rewrite forallb_forall in Hall.
  specialize (Hall (Z.to_nat lineNum)).
  rewrite Z2Nat.id in Hall by lia. apply Hall.
  apply in_seq. lia.
Qed.

Lemma gutterOk_inv (lineNum : Z) :
  gutterOk lineNum = true ->
  String.length (lineNumStyle_Render (Sprintf_d lineNum)) = 4%nat /\
  noNewline (lineNumStyle_Render (Sprintf_d lineNum)) = true /\
  String.eqb (lineNumStyle_Render (Sprintf_d lineNum)) "    " = false.
Proof.
  unfold gutterOk. rewrite !andb_true_iff, negb_true_iff, Nat.eqb_eq. tauto.
Qed.

Lemma bar_facts : String.length bar = 5%nat /\ noNewline bar = true.
Proof. split; reflexivity. Qed.

(** The three parts of a first row and of a continuation row. *)
Lemma first_row_parts (lineNum : Z) (seg : string) :
  gutterOk lineNum = true ->
  gutter (rowOf true lineNum seg) = lineNumStyle_Render (Sprintf_d lineNum) /\
  segment (rowOf true lineNum seg) = seg /\
  continues (rowOf true lineNum seg) = false.
Proof.
  intros Hok. destruct (gutterOk_inv _ Hok) as (Hlen & _ & Hne).
  unfold continues, gutter, segment, rowOf.
  assert (Hg : take 4 (String.append (lineNumStyle_Render (Sprintf_d lineNum))
                         (String.append bar seg))
               = lineNumStyle_Render (Sprintf_d lineNum)).
  { rewrite <- Hlen at 1. apply take_append_exact. }
  rewrite Hg. split; [reflexivity|]. split; [|exact Hne].
  rewrite <- string_append_assoc.
  replace 9%nat
    with (String.length (String.append (lineNumStyle_Render (Sprintf_d lineNum))
                                       bar))
    by (rewrite length_of_append, Hlen; reflexivity).
  apply drop_append_exact.
Qed.

Lemma continuation_row_parts (lineNum : Z) (seg : string) :
  segment (rowOf false lineNum seg) = seg /\
  continues (rowOf false lineNum seg) = true.
Proof.
  unfold continues, gutter, segment, rowOf.
  change (lineNumStyle_Render "") with "    ".
  split; [|reflexivity].
  rewrite <- string_append_assoc.
  change 9%nat with (String.length (String.append "    " bar)).
  apply drop_append_exact.
Qed.

Lemma row_is_good (first : bool) (lineNum : Z) (seg : string) :
  gutterOk lineNum = true -> noNewline seg = true ->
  goodRow (rowOf first lineNum seg).
Proof.
  intros Hok Hseg. destruct (gutterOk_inv _ Hok) as (Hlen & Hnl & _).
  unfold goodRow, rowOf. split.
  - rewrite !noNewline_append, Hseg.
    destruct first; [now rewrite Hnl | reflexivity].
  - intros E. apply (f_equal String.length) in E.
    rewrite !length_of_append in E. cbn in E.
    destruct first; cbn in E; lia.
Qed.

(** ** Gathering the rows of a line *)

Lemma gather_continuations (lineNum : Z) (segments : list string) :
  forall i,
    gather (rowsFrom (S i) lineNum segments) = (joinAll segments, []).
Proof.
  induction segments as [|seg rest IH]; intros i; cbn [rowsFrom gather];
    [reflexivity|].
  rewrite IH. cbn [Nat.eqb fst snd].
  destruct (continuation_row_parts lineNum seg) as [-> ->]. reflexivity.
Qed.

Lemma gather_line (lineNum : Z) (segments : list string) :
  gutterOk lineNum = true -> segments <> [] ->
  gather (rowsFrom 0 lineNum segments)
  = ("", [(lineNumStyle_Render (Sprintf_d lineNum), joinAll segments)]).
Proof.
  intros Hok Hne. destruct segments as [|seg rest]; [contradiction|].
  cbn [rowsFrom gather]. rewrite gather_continuations. cbn [Nat.eqb fst snd].
  destruct (first_row_parts lineNum seg Hok) as (-> & -> & ->). reflexivity.
Qed.

Lemma gather_app (rows1 rows2 : list string) :
  fst (gather rows2) = "" ->
  gather (rows1 ++ rows2)
  = (fst (gather rows1), snd (gather rows1) ++ snd (gather rows2)).
Proof.
  intros H2. induction rows1 as [|row rest IH]; cbn [app gather].
  - rewrite <- H2. now destruct (gather rows2).
  - rewrite IH. cbn [fst snd]. destruct (continues row); reflexivity.
Qed.

Lemma rowsFrom_good (lineNum : Z) (segments : list string) :
  gutterOk lineNum = true ->
  Forall (fun s => noNewline s = true) segments ->
  forall i, Forall goodRow (rowsFrom i lineNum segments).
Proof.
  intros Hok Hall. induction Hall as [|seg rest Hseg Hrest IH]; intros i;
    cbn [rowsFrom]; constructor; auto using row_is_good.
Qed.

(** ** The rows [writeLines] writes *)

Lemma writeLines_rows (width : Z) (lines : list string) :
  0 < width ->
  Forall (fun line => noNewline line = true) lines ->
  forall lineNum result out,
    (forall k, lineNum <= k < lineNum + Z.of_nat (List.length lines) ->
               gutterOk k = true) ->
    writeLines lines width lineNum result = Ok out ->
    exists rows,
      out = String.append result (unlines rows) /\
      Forall goodRow rows /\
      (lines <> [] -> rows <> []) /\
      fst (gather rows) = "" /\
      dropSpaces (snd (gather rows)) = dropSpaces (numbered lineNum lines).
Proof.
  intros Hw Hall.
  induction Hall as [|line rest Hline Hrest IH]; intros lineNum result out Hok H.
  - cbn [writeLines] in H. injection H as <-. exists [].
    cbn. rewrite append_empty_r. repeat split; auto.
  - cbn [writeLines] in H.
    assert (Hnum : gutterOk lineNum = true).
    { apply Hok. cbn [List.length]. lia. }
    assert (Hok' : forall k,
               lineNum + 1 <= k < lineNum + 1 + Z.of_nat (List.length rest) ->
               gutterOk k = true).
    { intros k Hk. apply Hok. cbn [List.length]. lia. }
    assert (Hstep : forall segments out,
              segments <> [] ->
              Forall (fun s => noNewline s = true) segments ->
              nospace (joinAll segments) = nospace line ->
              writeLines rest width (lineNum + 1)
                (String.append result (unlines (rowsFrom 0 lineNum segments)))
                = Ok out ->
              exists rows,
                out = String.append result (unlines rows) /\
                Forall goodRow rows /\
                (line :: rest <> [] -> rows <> []) /\
                fst (gather rows) = "" /\
                dropSpaces (snd (gather rows))
                = dropSpaces (numbered lineNum (line :: rest))).
    { intros segments out' Hne Hsegs Hbytes H'.
      destruct (IH _ _ _ Hok' H') as (rows & -> & Hgood & _ & Hfst & Hsnd).
      exists (rowsFrom 0 lineNum segments ++ rows).
      split; [now rewrite unlines_app, string_append_assoc|].
      split; [apply Forall_app; split;
                [now apply rowsFrom_good | exact Hgood]|].
      split.
      { intros _. destruct segments; [contradiction | discriminate]. }
      rewrite (gather_app _ _ Hfst), (gather_line _ _ Hnum Hne).
      cbn [fst snd app numbered dropSpaces map].
      split; [reflexivity|]. f_equal; [now rewrite Hbytes | exact Hsnd]. }
    destruct (String.eqb_spec line "") as [->|Hne].
    + apply (Hstep [""]); [discriminate | now repeat constructor | reflexivity|].
      rewrite <- H. f_equal. unfold WriteString, rowsFrom, rowOf, unlines.
      cbn [Nat.eqb]. now rewrite !string_append_assoc, append_empty_r.
    + destruct (wrapLine line width) as [segments| |] eqn:E; cbn [bind] in H;
        try discriminate.
      apply (Hstep segments).
      * now apply (wrapLine_not_nil line width).
      * now apply (wrapLine_noNewline line width).
      * now apply (wrapLine_keeps_bytes line width).
      * now rewrite <- writeWrapped_rows.
Qed.

(** What [wrapTextWithLineNumbers] returns shows the value it was given,
    when the numbers of its lines fit the gutter. *)
Lemma wrapTextWithLineNumbers_shows (value : string) (width : Z)
                                    (rendered : string) :
  numbersFit value ->
  wrapTextWithLineNumbers value width = Ok rendered ->
  showsValue rendered value.
Proof.
  intros Hfit. unfold wrapTextWithLineNumbers.
  set (w := if width <=? 0 then 40 else width).
  assert (Hw : 0 < w) by (subst w; destruct (Z.leb_spec width 0); lia).
  destruct (writeLines (Split_newline value) w 1 "") as [out| |] eqn:E;
    cbn [bind]; try discriminate.
  intros [= <-].
  destruct (writeLines_rows w (Split_newline value) Hw
              (Split_newline_noNewline value) 1 "" out)
    as (rows & -> & Hgood & Hne & Hfst & Hsnd).
  { intros k Hk. apply gutterOk_below_10000. unfold numbersFit in Hfit. lia. }
  { exact E. }
  assert (Hrows : rows <> []).
  { apply Hne. intros E0.
    pose proof (ViewportFacts.Split_newline_length value) as Hl.
    rewrite E0 in Hl. cbn in Hl. lia. }
  unfold showsValue, readBack. cbn [String.append].
  rewrite TrimRight_newline_unlines, Split_newline_concat by assumption.
  exact Hsnd.
Qed.

End RenderFacts.

Module BrowseFacts.
Import strings tui BrowseProps WrapFacts ViewportFacts RenderFacts.

Lemma wrap64_small (z : Z) : - 2 ^ 63 <= z < 2 ^ 63 -> wrap64 z = z.
Proof.
  intros H. unfold wrap64. rewrite Z.mod_small; lia.
Qed.

Lemma writeLines_total (width : Z) (lines : list string) :
  0 < width ->
  forall lineNum result,
    exists s, writeLines lines width lineNum result = Ok s.
Proof.
  intros Hw. induction lines as [|line rest IH]; intros lineNum result;
    cbn [writeLines]; [eauto|].
  destruct (String.eqb line ""); [apply IH|].
  unfold wrapLine. destruct (wrapLine_total line width Hw) as [out ->].
  cbn [bind]. apply IH.
Qed.

(** The guard of [wrapTextWithLineNumbers]: a width of zero or less is
    replaced by 40. *)
Lemma wrapTextWithLineNumbers_fallback (text : string) (width : Z) :
  width <= 0 ->
  wrapTextWithLineNumbers text width = wrapTextWithLineNumbers text 40.
Proof.
  intros Hw. unfold wrapTextWithLineNumbers.
  destruct (Z.leb_spec width 0); [reflexivity|lia].
Qed.

(** With the guard, the renderer of the browse pane returns for every
    text and every width. *)
Lemma wrapTextWithLineNumbers_total (text : string) (width : Z) :
  exists s, wrapTextWithLineNumbers text width = Ok s.
Proof.
  unfold wrapTextWithLineNumbers.
  set (w := if width <=? 0 then 40 else width).
  assert (Hw : 0 < w).
  { subst w. destruct (Z.leb_spec width 0); lia. }
  destruct (writeLines_total w (Split_newline text) Hw 1 "") as [s ->].
  cbn [bind]. eauto.
Qed.

Lemma maxWidth_at_least_20 (m : Model) : 20 <= maxWidth m.
Proof.
  unfold maxWidth.
  destruct (Z.ltb_spec (int_sub (viewport.Width (viewport m)) 8) 20); lia.
Qed.

Lemma index_versions_in_range (vs : list keyvault.SecretVersion) (i : Z) :
  0 <= i < Z.of_nat (List.length vs) ->
  exists v, nth_error vs (Z.to_nat i) = Some v /\ index_versions vs i = Ok v.
Proof.
  intros Hi. unfold index_versions.
  destruct (Z.ltb_spec i 0); [lia|].
  destruct (Z.geb_spec i (Z.of_nat (List.length vs))); [lia|]. cbn [orb].
  destruct (nth_error vs (Z.to_nat i)) as [v|] eqn:E; [eauto|].
  apply nth_error_None in E. lia.
Qed.

(** With the cursor in range, in a pane whose height is not negative or
    that stands at its top, [updateViewportContent] gives the pane the
    rendering of the version under the cursor, wrapped to [maxWidth],
    and shows it from its top. *)
Lemma updateViewportContent_shows_current (m : Model) :
  cursor_in_range m ->
  0 <= viewport.Height (viewport m) \/ viewport.YOffset (viewport m) = 0 ->
  exists version rendered pane,
    nth_error (versions m) (Z.to_nat (currentIdx m)) = Some version /\
    wrapTextWithLineNumbers (keyvault.Value version) (maxWidth m) = Ok rendered /\
    (shown <- viewport.SetContent (viewport m) rendered ;;
     viewport.GotoTop shown) = Ok pane /\
    viewport.Width pane = viewport.Width (viewport m) /\
    viewport.Height pane = viewport.Height (viewport m) /\
    viewport.lines pane = Split_newline (ReplaceAll_CRLF rendered) /\
    (0 <= viewport.YOffset (viewport m) -> viewport.YOffset pane = 0) /\
    updateViewportContent m = Ok (set_viewport m pane).
Proof.
  intros Hin Hpane. unfold updateViewportContent.
  destruct (Nat.eqb_spec (List.length (versions m)) 0) as [E|_].
  { unfold cursor_in_range in Hin. lia. }
  destruct (index_versions_in_range _ _ Hin) as (v & Hnth & ->).
  destruct (wrapTextWithLineNumbers_total (keyvault.Value v) (maxWidth m))
    as [s Hs].
  destruct (SetContent_returns (viewport m) s Hpane) as (shown & Hset & _ & Hy).
  destruct (SetContent_stores _ _ _ Hset) as (Hw & Hh & Hl).
  destruct (GotoTop_returns shown) as (pane & Htop & (Hw' & Hh' & Hl') & Hy').
  exists v, s, pane. cbn [bind]. rewrite Hs. cbn [bind].
  rewrite Hset. cbn [bind]. rewrite Htop. cbn [bind].
  repeat split; try congruence. auto.
Qed.

Lemma key_in_two (k a b : string) :
  key_in k [a; b] = true -> k = a \/ k = b.
Proof.
  unfold key_in. cbn. rewrite !orb_true_iff, !String.eqb_eq.
  intuition discriminate.
Qed.

(** The previous and next keys are none of the quit keys. *)
Lemma navigation_key (k : string) :
  key_in k ["left"; "h"; "right"; "l"] = true ->
  key_in k ["esc"; "q"; "ctrl+c"] = false /\
  (key_in k ["left"; "h"] = true \/
   key_in k ["left"; "h"] = false /\ key_in k ["right"; "l"] = true).
Proof.
  unfold key_in. intros H.
  apply existsb_exists in H. destruct H as (x & Hin & Heq).
  apply String.eqb_eq in Heq. subst x. cbn in Hin.
  repeat (destruct Hin as [<-|Hin]; [cbn; auto|]).
  contradiction.
Qed.

(** The height of the pane in a window that is not lower than 5 rows. *)
Lemma paneHeight_not_negative (h : Z) :
  5 <= h < 2 ^ 63 -> 0 <= int_sub (int_sub h 3) 2.
Proof.
  intros Hh. unfold int_sub.
  rewrite (wrap64_small (h - 3)) by lia. rewrite wrap64_small by lia. lia.
Qed.

(** One message, in a state whose pane has a height that is not negative
    or stands at its top (which no message but a scroll key changes):
    [Update] returns, the list of versions stays and the cursor stays
    in range. *)
Lemma Update_keeps_cursor_in_range (m : Model) (msg : tea.Msg) :
  cursor_in_range m ->
  (SessionProps.tallEnough msg /\ 0 <= viewport.Height (viewport m)) \/
  (navigation msg /\ viewport.YOffset (viewport m) = 0) ->
  exists m' cmd,
    Update m msg = Ok (m', cmd) /\
    versions m' = versions m /\ cursor_in_range m' /\
    (SessionProps.tallEnough msg -> 0 <= viewport.Height (viewport m) ->
     0 <= viewport.Height (viewport m')) /\
    (0 <= viewport.YOffset (viewport m) ->
     0 <= viewport.YOffset (viewport m')) /\
    (navigation msg -> viewport.YOffset (viewport m) = 0 ->
     viewport.YOffset (viewport m') = 0).
Proof.
  intros Hin Hfit.
  assert (Hsame : forall cmd : tea.Cmd, exists m' cmd',
             Ok (m, cmd) = Ok (m', cmd') /\
             versions m' = versions m /\ cursor_in_range m' /\
             (SessionProps.tallEnough msg -> 0 <= viewport.Height (viewport m) ->
              0 <= viewport.Height (viewport m')) /\
             (0 <= viewport.YOffset (viewport m) ->
              0 <= viewport.YOffset (viewport m')) /\
             (navigation msg -> viewport.YOffset (viewport m) = 0 ->
              viewport.YOffset (viewport m') = 0)).
  { intros cmd. exists m, cmd. auto 10. }
  assert (Hrender : forall n,
             versions n = versions m -> cursor_in_range n ->
             (SessionProps.tallEnough msg ->
              0 <= viewport.Height (viewport m) ->
              0 <= viewport.Height (viewport n)) ->
             (0 <= viewport.YOffset (viewport m) ->
              0 <= viewport.YOffset (viewport n)) ->
             (navigation msg -> viewport.YOffset (viewport m) = 0 ->
              viewport.YOffset (viewport n) = 0) ->
             exists m' cmd',
               (n' <- updateViewportContent n ;; Ok (n', tea.NoCmd))
                 = Ok (m', cmd') /\
               versions m' = versions m /\ cursor_in_range m' /\
               (SessionProps.tallEnough msg ->
                0 <= viewport.Height (viewport m) ->
                0 <= viewport.Height (viewport m')) /\
               (0 <= viewport.YOffset (viewport m) ->
                0 <= viewport.YOffset (viewport m')) /\
               (navigation msg -> viewport.YOffset (viewport m) = 0 ->
                viewport.YOffset (viewport m') = 0)).
  { intros n Hv Hn Hnh Hny Hnz.
    assert (Hp : 0 <= viewport.Height (viewport n)
                 \/ viewport.YOffset (viewport n) = 0).
    { destruct Hfit as [[T H]|[N Y]]; [left | right]; auto. }
    destruct (updateViewportContent_shows_current n Hn Hp)
      as (v & s & pane & _ & _ & _ & _ & Hh & _ & Hy & ->).
    cbn [bind]. exists (set_viewport n pane), tea.NoCmd.
    cbn [versions currentIdx viewport set_viewport].
    split; [reflexivity|]. split; [exact Hv|]. split; [exact Hn|].
    split; [intros T H; rewrite Hh; auto|].
    split; [intros Y; rewrite Hy; auto; lia|].
    intros N Y. apply Hy. rewrite (Hnz N Y). lia. }
  unfold cursor_in_range in Hin.
  destruct msg as [k|w h|]; cbn [Update].
  - destruct (key_in k ["esc"; "q"; "ctrl+c"]) eqn:Hquit; [apply Hsame|].
    destruct (key_in k ["left"; "h"]) eqn:Hleft.
    { destruct (Z.gtb_spec (currentIdx m) 0); [|apply Hsame].
      apply Hrender; cbn [versions viewport set_currentIdx]; auto.
      unfold cursor_in_range. cbn. lia. }
    destruct (key_in k ["right"; "l"]) eqn:Hright.
    { destruct (Z.ltb_spec (currentIdx m)
                  (Z.of_nat (List.length (versions m)) - 1)); [|apply Hsame].
      apply Hrender; cbn [versions viewport set_currentIdx]; auto.
      unfold cursor_in_range. cbn. lia. }
    destruct Hfit as [[_ Hh]|[Hnav _]].
    + destruct (ViewportFacts.pane_Update_returns (viewport m) (tea.KeyMsg k) Hh)
        as (pane & -> & (_ & Hph & _) & Hpy).
      cbn [bind]. do 2 eexists. split; [reflexivity|].
      cbn [versions viewport set_viewport].
      split; [reflexivity|]. split; [exact Hin|].
      split; [intros _ _; now rewrite Hph|]. split; [exact Hpy|].
      intros Hnav. cbn [navigation] in Hnav.
      destruct (navigation_key k Hnav) as (_ & [E|[_ E]]); congruence.
    + cbn [navigation] in Hnav.
      destruct (navigation_key k Hnav) as (_ & [E|[_ E]]); congruence.
  - cbn [ready set_size]. destruct (ready m); cbn [negb];
      apply Hrender;
      cbn [versions currentIdx viewport set_viewport set_ready set_size
           viewport.Height viewport.YOffset viewport.set_Height
           viewport.set_Width viewport.New];
      auto; try (intros Ht _; apply paneHeight_not_negative; exact Ht);
      try (intros; lia).
  - destruct Hfit as [[_ Hh]|[Hnav _]]; [|contradiction].
    cbn [viewport.Update bind]. do 2 eexists. split; [reflexivity|].
    cbn [versions viewport set_viewport]. repeat split; auto; try apply Hin.
Qed.

End BrowseFacts.

Module BrowseClaims.
Import strings tui BrowseProps SessionProps BrowseFacts RenderFacts.

(** A session that is sent previous keys, next keys and window sizes
    only keeps its pane at the top. *)
Lemma run_navigation (msgs : list tea.Msg) :
  Forall navigation msgs ->
  forall m, cursor_in_range m -> viewport.YOffset (viewport m) = 0 ->
    exists m', run m msgs = Ok m' /\
               versions m' = versions m /\ cursor_in_range m' /\
               viewport.YOffset (viewport m') = 0.
Proof.
  induction 1 as [|msg rest Hmsg Hrest IH]; intros m Hin Hy; cbn [run];
    [eauto|].
  destruct (Update_keeps_cursor_in_range m msg Hin (or_intror (conj Hmsg Hy)))
    as (m1 & cmd & -> & Hv & Hc & _ & _ & Hy1).
  cbn [bind fst].
  destruct (IH m1 Hc (Hy1 Hmsg Hy)) as (m' & Hrun & Hv' & Hc' & Hy').
  exists m'. split; [exact Hrun|]. split; [congruence | auto].
Qed.

(** A session whose windows are not lower than 5 rows keeps a pane
    whose height is not negative. *)
Lemma run_tall (msgs : list tea.Msg) :
  Forall tallEnough msgs ->
  forall m, cursor_in_range m ->
    0 <= viewport.Height (viewport m) -> 0 <= viewport.YOffset (viewport m) ->
    exists m', run m msgs = Ok m' /\
               versions m' = versions m /\ cursor_in_range m' /\
               0 <= viewport.Height (viewport m') /\
               0 <= viewport.YOffset (viewport m').
Proof.
  induction 1 as [|msg rest Hmsg Hrest IH]; intros m Hin Hh Hy; cbn [run];
    [eauto 6|].
  destruct (Update_keeps_cursor_in_range m msg Hin (or_introl (conj Hmsg Hh)))
    as (m1 & cmd & -> & Hv & Hc & Hh1 & Hy1 & _).
  cbn [bind fst].
  destruct (IH m1 Hc (Hh1 Hmsg Hh) (Hy1 Hy)) as (m' & Hrun & Hv' & Hrest').
  exists m'. split; [exact Hrun|]. split; [congruence | exact Hrest'].
Qed.

(** An accepted move gives the pane the rendering of the version the
    cursor moves to. *)
Lemma accepted_move (m : Model) (k : string) (target : Z) :
  0 <= target < Z.of_nat (List.length (versions m)) ->
  0 <= viewport.Height (viewport m) \/ viewport.YOffset (viewport m) = 0 ->
  0 <= viewport.YOffset (viewport m) ->
  Update m (tea.KeyMsg k)
    = (n' <- updateViewportContent (set_currentIdx m target) ;;
       Ok (n', tea.NoCmd)) ->
  movesTo m k target.
Proof.
  intros Ht Hp Hy HU.
  destruct (updateViewportContent_shows_current (set_currentIdx m target))
    as (v & s & pane & Hnth & Hs & Hpane & _ & _ & Hl & Hy' & E).
  { unfold cursor_in_range. cbn. lia. }
  { exact Hp. }
  cbn [versions currentIdx viewport set_currentIdx] in *.
  exists v, s, pane.
  split; [exact Hnth|]. split; [exact Hs|].
  split; [intros Hfit; now apply (wrapTextWithLineNumbers_shows _ (maxWidth m))|].
  split; [exact Hpane|]. split; [exact Hl|]. split; [now apply Hy'|].
  rewrite HU, E. reflexivity.
Qed.

Lemma previousClamped_in_range (m : Model) :
  cursor_in_range m ->
  0 <= viewport.Height (viewport m) \/ viewport.YOffset (viewport m) = 0 ->
  0 <= viewport.YOffset (viewport m) ->
  previousClamped m.
Proof.
  intros Hin Hp Hy k Hk. unfold cursor_in_range in Hin.
  assert (Hupd : Update m (tea.KeyMsg k) =
                 if currentIdx m >? 0 then
                   m' <- updateViewportContent
                           (set_currentIdx m (currentIdx m - 1)) ;;
                   Ok (m', tea.NoCmd)
                 else Ok (m, tea.NoCmd)).
  { destruct (key_in_two _ _ _ Hk) as [-> | ->]; reflexivity. }
  split.
  - intros E. rewrite Hupd, E. reflexivity.
  - intros Hpos. apply accepted_move; [lia | exact Hp | exact Hy|].
    rewrite Hupd. destruct (Z.gtb_spec (currentIdx m) 0); [reflexivity | lia].
Qed.

Lemma nextClamped_in_range (m : Model) :
  cursor_in_range m ->
  0 <= viewport.Height (viewport m) \/ viewport.YOffset (viewport m) = 0 ->
  0 <= viewport.YOffset (viewport m) ->
  nextClamped m.
Proof.
  intros Hin Hp Hy k Hk. unfold cursor_in_range in Hin.
  assert (Hupd : Update m (tea.KeyMsg k) =
                 if currentIdx m <? Z.of_nat (List.length (versions m)) - 1 then
                   m' <- updateViewportContent
                           (set_currentIdx m (currentIdx m + 1)) ;;
                   Ok (m', tea.NoCmd)
                 else Ok (m, tea.NoCmd)).
  { destruct (key_in_two _ _ _ Hk) as [-> | ->]; reflexivity. }
  split.
  - intros E. rewrite Hupd, E. now rewrite Z.ltb_irrefl.
  - intros Hlt. apply accepted_move; [lia | exact Hp | exact Hy|].
    rewrite Hupd.
    destruct (Z.ltb_spec (currentIdx m)
                (Z.of_nat (List.length (versions m)) - 1)); [reflexivity | lia].
Qed.

(** C9: in a browse session started by [runShow], after every sequence
    of previous-version keys, next-version keys and window sizes, and
    after every sequence of messages of any kind among which no window
    is lower than 5 rows, the cursor is an index of the list of
    versions.  There, a previous-version key at index 0 and a
    next-version key at the last index change nothing; every other
    previous or next key moves the cursor by one and gives the pane the
    rendering of the version now selected, from its top; and that
    rendering, read back row by row, has the lines of the value of that
    version under their numbers, short of the spaces dropped where a
    line is broken (for a value of fewer than 10000 lines, whose numbers
    fit the gutter). *)
Theorem browse_cursor_clamped
    (versions : list keyvault.SecretVersion) (secretName : string)
    (m0 : Model) (msgs : list tea.Msg) :
  show.runShow_session versions secretName = Some m0 ->
  Forall navigation msgs \/ Forall tallEnough msgs ->
  exists m,
    run m0 msgs = Ok m /\
    tui.versions m = versions /\
    0 <= currentIdx m < Z.of_nat (List.length versions) /\
    previousClamped m /\ nextClamped m.
Proof.
  unfold show.runShow_session.
  destruct (Nat.eqb_spec (List.length versions) 0) as [|Hlen]; [discriminate|].
  intros [= <-] Hmsgs.
  assert (H0 : cursor_in_range (NewModel versions secretName))
    by (unfold cursor_in_range; cbn; lia).
  assert (H : exists m,
             run (NewModel versions secretName) msgs = Ok m /\
             tui.versions m = versions /\ cursor_in_range m /\
             (0 <= viewport.Height (viewport m)
              \/ viewport.YOffset (viewport m) = 0) /\
             0 <= viewport.YOffset (viewport m)).
  { destruct Hmsgs as [Hnav|Htall].
    - destruct (run_navigation msgs Hnav _ H0 eq_refl)
        as (m & Hrun & Hv & Hc & Hy).
      exists m. repeat split; auto; try apply Hc. lia.
    - destruct (run_tall msgs Htall _ H0 (Z.le_refl 0) (Z.le_refl 0))
        as (m & Hrun & Hv & Hc & Hh & Hy).
      exists m. repeat split; auto; apply Hc. }
  destruct H as (m & Hrun & Hv & Hc & Hp & Hy).
  exists m. split; [exact Hrun|]. split; [exact Hv|].
  split; [unfold cursor_in_range in Hc; now rewrite <- Hv|].
  split; [now apply previousClamped_in_range | now apply nextClamped_in_range].
Qed.

Lemma browse_cursor_clamped_witness :
  exists m,
    run (NewModel [newer; older] "api-token") keys = Ok m /\
    tui.versions m = [newer; older] /\
    0 <= currentIdx m < Z.of_nat (List.length [newer; older]) /\
    previousClamped m /\ nextClamped m.
Proof.
  apply (browse_cursor_clamped [newer; older] "api-token"
           (NewModel [newer; older] "api-token") keys).
  - reflexivity.
  - left. repeat constructor.
Defined.

End BrowseClaims.

(* ================================================================== *)
(** * Properties of the review session                                 *)
(* ================================================================== *)

Module ReviewFacts.
Import strings difftui WrapFacts.

Lemma diff_writeLines_total (width : Z) (isLeft : bool) (lines : list diffLine) :
  0 < width ->
  forall result, exists s, writeLines lines width isLeft result = Ok s.
Proof.
  intros Hw. induction lines as [|line rest IH]; intros result;
    cbn [writeLines]; [eauto|].
  destruct (lineNum line =? 0); [apply IH|].
  unfold wrapLine. destruct (wrapLine_total (content line) width Hw) as [out ->].
  cbn [bind]. apply IH.
Qed.

(** The renderer of a diff pane returns when the width is positive; it
    has no guard of its own for the other widths. *)
Lemma renderDiffLines_total (lines : list diffLine) (width : Z) (isLeft : bool) :
  0 < width -> exists s, renderDiffLines lines width isLeft = Ok s.
Proof.
  intros Hw. unfold renderDiffLines.
  destruct (diff_writeLines_total width isLeft lines Hw "") as [s ->].
  cbn [bind]. eauto.
Qed.

Lemma scrollKeys_not_decision (k : string) :
  key_in k scrollKeys = true ->
  key_in k ["esc"; "q"; "n"; "N"] = false /\
  key_in k ["y"; "Y"; "enter"] = false.
Proof.
  unfold key_in, scrollKeys. intros H.
  apply existsb_exists in H. destruct H as (x & Hin & Heq).
  apply String.eqb_eq in Heq. subst x.
  cbn in Hin.
  repeat (destruct Hin as [<-|Hin]; [split; reflexivity|]).
  contradiction.
Qed.

(** A scroll key moves the left pane, and hands the left offset to
    [SetYOffset] of the right pane, which clamps it to the scroll range
    of the right pane's own rows. *)
Lemma scroll_sets_right_clamped (m : Model) (k : string) (pane : viewport.Model) :
  key_in k scrollKeys = true ->
  viewport.Update (leftViewport m) (tea.KeyMsg k) = Ok pane ->
  exists m',
    Update m (tea.KeyMsg k) = Ok (m', tea.NoCmd) /\
    leftViewport m' = pane /\
    viewport.YOffset (rightViewport m') =
      viewport.clamp (viewport.YOffset (leftViewport m')) 0
                     (viewport.maxYOffset (rightViewport m)).
Proof.
  intros Hk Hpane. destruct (scrollKeys_not_decision k Hk) as [H1 H2].
  cbn [Update]. rewrite H1, H2, Hk, Hpane. cbn [bind].
  eexists. split; [reflexivity|]. split; reflexivity.
Qed.

(** The two offsets agree after a scroll key when the pane offset is
    within the scroll range of the right pane. *)
Lemma scroll_in_sync_within_right_range (m : Model) (k : string)
                                        (pane : viewport.Model) :
  key_in k scrollKeys = true ->
  viewport.Update (leftViewport m) (tea.KeyMsg k) = Ok pane ->
  exists m',
    Update m (tea.KeyMsg k) = Ok (m', tea.NoCmd) /\
    (0 <= viewport.YOffset (leftViewport m')
       <= viewport.maxYOffset (rightViewport m) ->
     viewport.YOffset (rightViewport m') = viewport.YOffset (leftViewport m')).
Proof.
  intros Hk Hpane.
  destruct (scroll_sets_right_clamped m k pane Hk Hpane) as (m' & HU & _ & HY).
  exists m'. split; [exact HU|]. intros Hr. rewrite HY.
  unfold viewport.clamp. lia.
Qed.

End ReviewFacts.

Module ReviewClaims.
Import strings difftui ReviewScenarios ReviewFacts.

(** C8, at an input where the code departs from it: in a window of 80
    by 24 the left pane wraps every old line into three rows (30 rows)
    and the right pane has 10 rows, fewer than its 18 lines of height.
    After the down key the left offset is 1; the right pane is given
    that offset through [SetYOffset], which clamps it to the right
    pane's own range, and stays at 0. *)
Theorem scroll_leaves_panes_apart :
  exists m,
    run (NewModel oldSettings newSettings "orders-db")
        [tea.WindowSizeMsg 80 24; tea.KeyMsg "down"] = Ok m /\
    ready m = true /\
    List.length (viewport.lines (leftViewport m)) = 30%nat /\
    List.length (viewport.lines (rightViewport m)) = 10%nat /\
    viewport.Height (leftViewport m) = 18 /\
    viewport.Height (rightViewport m) = 18 /\
    viewport.YOffset (leftViewport m) = 1 /\
    viewport.YOffset (rightViewport m) = 0.
Proof. eexists. vm_compute. repeat split; reflexivity. Qed.

(** C6, at the inputs where the code departs from it.  The diff pane
    wraps to [leftViewport.Width - 10], that is [Width/2 - 14] of the
    window, and calls [wrapLine] with it unguarded.  In a window 28
    columns wide the width is 0 and a line that does not start with a
    space is wrapped for ever; in a window 20 columns wide the width is
    -4 and [wrapLine] panics on [remaining[:breakPoint]]. *)
Theorem diff_pane_wrap_width_unguarded :
  (forall fuel, wrap.wrapLineFuel fuel "secret1" 0 = OutOfFuel) /\
  renderDiffLines [mkDiffLine 1 "secret1" true false] 0 true = OutOfFuel /\
  Update (NewModel "secret1" "secret2" "db-password") (tea.WindowSizeMsg 28 24)
    = OutOfFuel /\
  wrapLine "secret1" (-4) = Panic "slice bounds out of range" /\
  Update (NewModel "secret1" "secret2" "db-password") (tea.WindowSizeMsg 20 24)
    = Panic "slice bounds out of range".
Proof.
  split.
  - intros fuel. now apply WrapFacts.wrapLineFuel_zero_width_diverges.
  - repeat split; reflexivity.
Qed.

End ReviewClaims.

(* ================================================================== *)
(** * Further properties of wrapLine                                   *)
(* ================================================================== *)

Module WrapExtras.
Import strings wrap WrapProps WrapFacts.

(** X1: for every positive width [wrapLine] returns, with at least one
    segment; no segment is longer than the width, and no segment of a
    line that is not empty is empty. *)
Theorem wrapLine_segments_fit (line : string) (width : Z) :
  0 < width ->
  exists segments,
    wrapLine line width = Ok segments /\
    segments <> [] /\
    Forall (fun s => len s <= width) segments /\
    (line <> "" -> Forall (fun s => s <> "") segments).
Proof.
  intros Hw. destruct (wrapLine_total line width Hw) as [segs Hs].
  exists segs. split; [exact Hs|].
  unfold wrapLine, wrapLineFuel in Hs.
  destruct (Z.leb_spec (len line) width) as [Hle|Hgt].
  - injection Hs as <-. split; [discriminate|].
    split; repeat constructor; auto.
  - apply wrapLoop_segments in Hs; [|exact Hw].
    destruct Hs as (new & -> & Hall & Hne). cbn [app].
    assert (Hline : line <> "").
    { intros ->. unfold len in Hgt. cbn in Hgt. lia. }
    split; [now apply Hne|].
    split.
    + eapply Forall_impl; [|exact Hall]. cbn. intros s Hs. lia.
    + intros _. eapply Forall_impl; [|exact Hall]. cbn.
      intros s Hs ->. unfold len in Hs. cbn in Hs. lia.
Qed.

Lemma wrapLine_segments_fit_witness :
  exists segments,
    wrapLine "postgres://svc:pw@db.example.net:5432/orders?sslmode=require" 26
      = Ok segments /\
    segments <> [] /\
    Forall (fun s => len s <= 26) segments /\
    ("postgres://svc:pw@db.example.net:5432/orders?sslmode=require" <> "" ->
     Forall (fun s => s <> "") segments).
Proof.
  apply (wrapLine_segments_fit
           "postgres://svc:pw@db.example.net:5432/orders?sslmode=require" 26).
  lia.
Defined.

(** X2: whenever [wrapLine] returns, its segments hold the bytes of the
    line in their order, short of spaces only: nothing but spaces is
    dropped at a break. *)
Theorem wrapLine_drops_only_spaces (line : string) (width : Z)
                                   (segments : list string) :
  wrapLine line width = Ok segments ->
  nospace (joinAll segments) = nospace line.
Proof.
  unfold wrapLine, wrapLineFuel. destruct (len line <=? width).
  - intros [= <-]. cbn. now rewrite append_empty_r.
  - intros H. apply wrapLoop_keeps_bytes in H. exact H.
Qed.

Lemma wrapLine_drops_only_spaces_witness :
  nospace (joinAll ["rotate the key every"; "ninety days"]) =
  nospace "rotate the key every ninety days".
Proof.
  apply (wrapLine_drops_only_spaces "rotate the key every ninety days" 20).
  reflexivity.
Defined.

Lemma nospace_head (s : string) :
  nospace s = "" -> TrimLeft_space s = "".
Proof.
  induction s as [|c r IH]; cbn; [reflexivity|].
  destruct (Ascii.eqb c space); [exact IH | discriminate].
Qed.

(** X3: with width 0 [wrapLine] returns only for a line of spaces (or an
    empty one), with the single segment [""]; for every other line the
    loop goes on for ever, whatever the fuel. *)
Theorem wrapLine_zero_width (line : string) :
  (nospace line = "" -> wrapLine line 0 = Ok [""]) /\
  (nospace line <> "" -> forall fuel, wrapLineFuel fuel line 0 = OutOfFuel).
Proof.
  split.
  - intros Hn. destruct line as [|c r]; [reflexivity|].
    unfold wrapLine, wrapLineFuel.
    assert (Hlen : 0 < len (String c r)) by (unfold len; cbn; lia).
    destruct (Z.leb_spec (len (String c r)) 0); [lia|].
    cbn [String.length wrapLoop].
    rewrite scanBreak_nonpositive by lia.
    destruct (Z.gtb_spec (len (String c r)) 0); [|lia].
    destruct (Z.leb_spec (len (String c r)) 0); [lia|].
    destruct (Z.geb_spec 0 (len (String c r))); [lia|].
    destruct (Z.gtb_spec 0 (len (String c r))); [lia|].
    cbn [Z.ltb Z.compare orb Z.to_nat drop take].
    rewrite (nospace_head _ Hn). reflexivity.
  - intros Hn fuel. destruct line as [|c r]; [contradiction|].
    unfold wrapLineFuel.
    assert (Hlen : 0 < len (String c r)) by (unfold len; cbn; lia).
    destruct (Z.leb_spec (len (String c r)) 0); [lia|].
    destruct fuel as [|fuel]; [reflexivity|].
    cbn [wrapLoop].
    rewrite scanBreak_nonpositive by lia.
    destruct (Z.gtb_spec (len (String c r)) 0); [|lia].
    destruct (Z.leb_spec (len (String c r)) 0); [lia|].
    destruct (Z.geb_spec 0 (len (String c r))); [lia|].
    destruct (Z.gtb_spec 0 (len (String c r))); [lia|].
    cbn [Z.ltb Z.compare orb Z.to_nat drop take].
    destruct (TrimLeft_space_head (String c r)) as [E|(c' & r' & E & Hc')].
    + exfalso. apply Hn. rewrite <- nospace_TrimLeft_space, E. reflexivity.
    + rewrite E. now apply wrapLoop_zero_width_diverges.
Qed.

(** X4: with a negative width [wrapLine] returns no segment for the
    empty line and panics on every other line, at the slice
    [remaining[:breakPoint]]. *)
Theorem wrapLine_negative_width (line : string) (width : Z) :
  width < 0 ->
  wrapLine "" width = Ok [] /\
  (line <> "" -> wrapLine line width = Panic "slice bounds out of range").
Proof.
  intros Hw. split.
  - unfold wrapLine, wrapLineFuel.
    destruct (Z.leb_spec (len "") width) as [H|_]; [|reflexivity].
    unfold len in H. cbn in H. lia.
  - intros Hne. destruct line as [|c r]; [contradiction|].
    unfold wrapLine. now apply wrapLineFuel_negative_width_panics.
Qed.

Lemma wrapLine_negative_width_witness :
  wrapLine "" (-4) = Ok [] /\
  ("token" <> "" -> wrapLine "token" (-4) = Panic "slice bounds out of range").
Proof.
  apply (wrapLine_negative_width "token" (-4)). lia.
Defined.

End WrapExtras.

(* ================================================================== *)
(** * Further properties of the positional diff                        *)
(* ================================================================== *)

Module DiffExtras.
Import strings difftui DiffProps DiffRead DiffFacts.

Lemma skipn_cons_nth (l : list string) :
  forall k a rest, skipn k l = a :: rest ->
    (k < List.length l)%nat /\ nth k l "" = a /\ skipn (S k) l = rest.
Proof.
  induction l as [|x l IH]; intros k a rest H.
  - destruct k; discriminate H.
  - destruct k as [|k].
    + cbn in H. injection H as <- <-. cbn. repeat split. lia.
    + cbn [skipn] in H. destruct (IH k a rest H) as (Hk & Hn & Hs).
      cbn [List.length nth]. repeat split; [lia | exact Hn | exact Hs].
Qed.

(** The entries of the indices of [side] give [side] back. *)
Lemma linesOf_present
    (entry : nat -> diffLine) (l : list string) (lines : list string) :
  (forall i, (i < List.length l)%nat ->
     lineNum (entry i) <> 0 /\ content (entry i) = nth i l "") ->
  forall k, skipn k l = lines ->
    linesOf (map entry (seq k (List.length lines))) = lines.
Proof.
  intros Hentry. induction lines as [|a rest IH]; intros k Hk; [reflexivity|].
  destruct (skipn_cons_nth l k a rest Hk) as (Hlt & Hnth & Hskip).
  destruct (Hentry k Hlt) as [Hnum Hcontent].
  cbn [List.length seq map]. unfold linesOf in *. cbn [filter].
  unfold present at 1. destruct (Z.eqb_spec (lineNum (entry k)) 0); [contradiction|].
  cbn [negb map]. rewrite (IH (S k) Hskip). congruence.
Qed.

Lemma linesOf_absent (entry : nat -> diffLine) (k n : nat) :
  (forall i, (k <= i)%nat -> lineNum (entry i) = 0) ->
  linesOf (map entry (seq k n)) = [].
Proof.
  revert k. induction n as [|n IH]; intros k Habsent; [reflexivity|].
  cbn [seq map]. unfold linesOf in *. cbn [filter].
  unfold present at 1. rewrite (Habsent k (Nat.le_refl k)). cbn.
  apply IH. intros i Hi. apply Habsent. lia.
Qed.

Lemma linesOf_app (s t : list diffLine) :
  linesOf (s ++ t) = linesOf s ++ linesOf t.
Proof. unfold linesOf. now rewrite filter_app, map_app. Qed.

Lemma linesOf_side
    (entry : nat -> diffLine) (l : list string) (n : nat) :
  (List.length l <= n)%nat ->
  (forall i, (i < List.length l)%nat ->
     lineNum (entry i) <> 0 /\ content (entry i) = nth i l "") ->
  (forall i, (List.length l <= i)%nat -> lineNum (entry i) = 0) ->
  linesOf (map entry (seq 0 n)) = l.
Proof.
  intros Hn Hin Hout.
  replace n with (List.length l + (n - List.length l))%nat by lia.
  rewrite seq_app, map_app, linesOf_app. cbn [Nat.add].
  rewrite (linesOf_present entry l l Hin 0 eq_refl).
  rewrite (linesOf_absent entry _ _ Hout). apply app_nil_r.
Qed.

(** X5: the diff loses no line and invents none: on each side, the
    entries that are not placeholders carry, in order, exactly the lines
    of that side. *)
Theorem computeDiff_keeps_lines (oldLines newLines : list string) :
  linesOf (fst (computeDiff oldLines newLines)) = oldLines /\
  linesOf (snd (computeDiff oldLines newLines)) = newLines.
Proof.
  rewrite computeDiff_map. cbn [fst snd]. split.
  - apply linesOf_side; [lia | |].
    + intros i Hi. unfold leftAt, diffAt. cbn [fst].
      destruct (Nat.ltb_spec i (List.length oldLines)); [|lia]. cbn. split; [lia|reflexivity].
    + intros i Hi. unfold leftAt, diffAt. cbn [fst].
      destruct (Nat.ltb_spec i (List.length oldLines)); [lia|reflexivity].
  - apply linesOf_side; [lia | |].
    + intros i Hi. unfold rightAt, diffAt. cbn [snd].
      destruct (Nat.ltb_spec i (List.length newLines)); [|lia]. cbn. split; [lia|reflexivity].
    + intros i Hi. unfold rightAt, diffAt. cbn [snd].
      destruct (Nat.ltb_spec i (List.length newLines)); [lia|reflexivity].
Qed.

(** X6: comparing lines with themselves gives, at every index, the line
    with its number on both sides, Unchanged on the left; on the right it
    is Unchanged when the line is not empty, and an empty line is marked
    Added ([isAdded] is [oldLine == ""], also when both lines are there
    and equal). *)
Theorem computeDiff_same_lines (lines : list string) (i : nat) (line : string) :
  nth_error lines i = Some line ->
  nth_error (fst (computeDiff lines lines)) i
    = Some (mkDiffLine (Z.of_nat i + 1) line false false) /\
  nth_error (snd (computeDiff lines lines)) i
    = Some (mkDiffLine (Z.of_nat i + 1) line false (String.eqb line "")) /\
  classify true (mkDiffLine (Z.of_nat i + 1) line false false) = Unchanged /\
  classify false (mkDiffLine (Z.of_nat i + 1) line false (String.eqb line ""))
    = (if String.eqb line "" then Added else Unchanged).
Proof.
  intros Hnth.
  assert (Hi : (i < List.length lines)%nat) by (apply nth_error_Some; congruence).
  destruct (computeDiff_nth lines lines i) as [Hl Hr]; [lia|].
  rewrite Hl, Hr. unfold leftAt, rightAt, diffAt. cbn [fst snd].
  destruct (Nat.ltb_spec i (List.length lines)); [|lia].
  rewrite (nth_error_nth _ _ "" Hnth), String.eqb_refl. cbn [negb andb].
  repeat split.
  - unfold classify. cbn. destruct (Z.eqb_spec (Z.of_nat i + 1) 0); [lia|reflexivity].
  - unfold classify. cbn. destruct (Z.eqb_spec (Z.of_nat i + 1) 0); [lia|].
    destruct (String.eqb line ""); reflexivity.
Qed.

Lemma computeDiff_same_lines_witness :
  nth_error (fst (computeDiff ["user=svc"; ""; "port=5432"]
                              ["user=svc"; ""; "port=5432"])) 1
    = Some (mkDiffLine (Z.of_nat 1 + 1) "" false false) /\
  nth_error (snd (computeDiff ["user=svc"; ""; "port=5432"]
                              ["user=svc"; ""; "port=5432"])) 1
    = Some (mkDiffLine (Z.of_nat 1 + 1) "" false (String.eqb "" "")) /\
  classify true (mkDiffLine (Z.of_nat 1 + 1) "" false false) = Unchanged /\
  classify false (mkDiffLine (Z.of_nat 1 + 1) "" false (String.eqb "" ""))
    = (if String.eqb "" "" then Added else Unchanged).
Proof.
  apply (computeDiff_same_lines ["user=svc"; ""; "port=5432"] 1 "").
  reflexivity.
Defined.

End DiffExtras.

(* ================================================================== *)
(** * Further properties of the edit workflow                          *)
(* ================================================================== *)

Module EditExtras.
Import strings edit EditProps EditFacts.

(** The case analysis of [world_cases], keeping what the review program
    answered. *)
Ltac world_cases_confirmed w :=
  destruct w as [nc lsv ed EDITOR ctf oe rf run ss sd];
  unfold call_runEdit, runEdit, ExitWithError, slice_to_8, pbind, emit,
         defer, ret, return_, os_Exit, panic;
  cbn [w_NewClient w_ListSecretVersions w_editor w_EDITOR
       w_createSecureTempFile w_openEditor w_ReadFile w_Run w_SetSecret
       w_secureDelete trace deferred];
  destruct nc as [?|]; cbn;
  [ | destruct lsv as [[|latestVersion ?]|?]; cbn;
      [ | destruct ctf as [tempFile|?]; cbn;
          [ destruct (len (keyvault.Version latestVersion) <? 8); cbn;
            [ | destruct oe as [?|]; cbn;
                [ | destruct rf as [newValue|?]; cbn;
                    [ destruct (String.eqb_spec newValue
                                  (keyvault.Value latestVersion)); cbn;
                      [ | destruct run as [finalModel|?]; cbn;
                          [ destruct (difftui.Confirmed finalModel) eqn:Hconfirmed;
                            cbn; [ destruct ss as [?|]; cbn | ]
                          | ] ]
                    | ] ] ]
          | ]
      | ] ].

(** X7: once the temp file exists, [secureDelete] is called exactly once,
    on the path of that file, when [runEdit] returns or panics, and not
    at all when it leaves through [os.Exit]. *)
Theorem secureDelete_once_unless_os_Exit
    (w : World) (vaultName secretName content path : string) :
  In (CreateSecureTempFile content (Val path))
     (snd (call_runEdit w vaultName secretName)) ->
  filter is_SecureDelete (snd (call_runEdit w vaultName secretName)) =
  if leftByOsExit (fst (call_runEdit w vaultName secretName)) then []
  else [SecureDelete path (w_secureDelete w)].
Proof.
  world_cases w; deferred_cases; intros Hc;
    repeat (destruct Hc as [Hc|Hc]; try discriminate Hc);
    try contradiction;
    injection Hc as _ <-; reflexivity.
Qed.

Lemma secureDelete_once_unless_os_Exit_witness :
  filter is_SecureDelete (snd (call_runEdit world_commit "vault" "db-password")) =
  if leftByOsExit (fst (call_runEdit world_commit "vault" "db-password")) then []
  else [SecureDelete "/tmp/kv-secret-1f.tmp" (w_secureDelete world_commit)].
Proof.
  apply (secureDelete_once_unless_os_Exit world_commit "vault" "db-password"
           "secret1" "/tmp/kv-secret-1f.tmp").
  vm_compute. tauto.
Defined.

(** X8: [SetSecret] is called only with the content read back from the
    temp file, only when that content differs from the value the file was
    created with (the value of the first version listed), and only after
    the review program ran on these two values and handed back a
    confirmed model. *)
Theorem SetSecret_only_after_confirmation
    (w : World) (vaultName secretName name value : string)
    (err : option error) :
  In (SetSecret name value err) (snd (call_runEdit w vaultName secretName)) ->
  exists latestV rest path finalM,
    name = secretName /\
    w_ListSecretVersions w = Val (latestV :: rest) /\
    In (CreateSecureTempFile (keyvault.Value latestV) (Val path))
       (snd (call_runEdit w vaultName secretName)) /\
    In (ReadFile path (Val value)) (snd (call_runEdit w vaultName secretName)) /\
    value <> keyvault.Value latestV /\
    In (RunProgram (difftui.NewModel (keyvault.Value latestV) value secretName)
                   (Val finalM))
       (snd (call_runEdit w vaultName secretName)) /\
    difftui.Confirmed finalM = true.
Proof.
  world_cases_confirmed w; deferred_cases; intros Hs;
    repeat (destruct Hs as [Hs|Hs]; try discriminate Hs);
    try contradiction;
    injection Hs as <- <- _;
    (exists latestVersion; eexists; exists tempFile, finalModel;
     repeat split; try reflexivity; try assumption; cbn; tauto).
Qed.

Lemma SetSecret_only_after_confirmation_witness :
  exists latestV rest path finalM,
    "db-password" = "db-password" /\
    w_ListSecretVersions world_commit = Val (latestV :: rest) /\
    In (CreateSecureTempFile (keyvault.Value latestV) (Val path))
       (snd (call_runEdit world_commit "vault" "db-password")) /\
    In (ReadFile path (Val "secret2"))
       (snd (call_runEdit world_commit "vault" "db-password")) /\
    "secret2" <> keyvault.Value latestV /\
    In (RunProgram (difftui.NewModel (keyvault.Value latestV) "secret2" "db-password")
                   (Val finalM))
       (snd (call_runEdit world_commit "vault" "db-password")) /\
    difftui.Confirmed finalM = true.
Proof.
  apply (SetSecret_only_after_confirmation world_commit "vault" "db-password"
           "db-password" "secret2" None).
  vm_compute. tauto.
Defined.

(** X9: the calls of a run are a beginning of the fixed sequence
    NewClient, ListSecretVersions, createSecureTempFile, openEditor,
    ReadFile, the review program, SetSecret, followed by [secureDelete]
    when it runs: each is made at most once and none out of turn. *)
Theorem calls_follow_the_pipeline (w : World) (vaultName secretName : string) :
  exists n,
    calls (snd (call_runEdit w vaultName secretName)) =
    firstn n pipeline ++
    (if existsb is_SecureDelete (snd (call_runEdit w vaultName secretName))
     then [CSecureDelete] else []).
Proof.
  world_cases w; deferred_cases;
    first [ now exists 1%nat | now exists 2%nat | now exists 3%nat
          | now exists 4%nat | now exists 5%nat | now exists 6%nat
          | now exists 7%nat ].
Qed.

(** X10: a version id shorter than eight bytes makes [runEdit] panic at
    [latestVersion.Version[:8]], after the temp file was created and
    before the editor is opened; the deferred [secureDelete] runs while
    the panic unwinds. *)
Theorem short_version_id_panics
    (w : World) (vaultName secretName path : string)
    (latestV : keyvault.SecretVersion) (rest : list keyvault.SecretVersion) :
  w_NewClient w = None ->
  w_ListSecretVersions w = Val (latestV :: rest) ->
  w_createSecureTempFile w = Val path ->
  len (keyvault.Version latestV) < 8 ->
  fst (call_runEdit w vaultName secretName) = Crashed "slice bounds out of range" /\
  existsb is_OpenEditor (snd (call_runEdit w vaultName secretName)) = false /\
  In (SecureDelete path (w_secureDelete w))
     (snd (call_runEdit w vaultName secretName)).
Proof.
  intros Hnc Hl Hc Hlen.
  destruct w as [nc lsv ed EDITOR ctf oe rf run ss sd].
  cbn in Hnc, Hl, Hc. subst nc lsv ctf.
  unfold call_runEdit, runEdit, ExitWithError, slice_to_8, pbind, emit,
         defer, ret, return_, os_Exit, panic.
  cbn [w_NewClient w_ListSecretVersions w_editor w_EDITOR
       w_createSecureTempFile w_openEditor w_ReadFile w_Run w_SetSecret
       w_secureDelete trace deferred].
  destruct (Z.ltb_spec (len (keyvault.Version latestV)) 8); [|lia].
  cbn. destruct sd; cbn; auto 10.
Qed.

Lemma short_version_id_panics_witness :
  fst (call_runEdit world_short_version "vault" "db-password")
    = Crashed "slice bounds out of range" /\
  existsb is_OpenEditor (snd (call_runEdit world_short_version "vault" "db-password"))
    = false /\
  In (SecureDelete "/tmp/kv-secret-1f.tmp" (w_secureDelete world_short_version))
     (snd (call_runEdit world_short_version "vault" "db-password")).
Proof.
  apply (short_version_id_panics world_short_version "vault" "db-password"
           "/tmp/kv-secret-1f.tmp" shortVersion []);
    try reflexivity.
Defined.

(** X11: a failure of [secureDelete] is reported and nothing more: how
    [runEdit] ends does not depend on it, and when it fails the last thing
    written is the warning on the error stream. *)
Theorem secureDelete_failure_is_a_warning
    (w : World) (vaultName secretName : string) (err : error) :
  fst (call_runEdit (with_secureDelete w (Some err)) vaultName secretName)
    = fst (call_runEdit (with_secureDelete w None) vaultName secretName) /\
  (existsb is_SecureDelete
     (snd (call_runEdit (with_secureDelete w (Some err)) vaultName secretName)) = true ->
   last (snd (call_runEdit (with_secureDelete w (Some err)) vaultName secretName))
        (Stdout "")
     = Stderr (cat ["Warning: failed to securely delete temp file: "; err; NL])).
Proof.
  destruct w as [nc lsv ed EDITOR ctf oe rf run ss sd0].
  unfold with_secureDelete.
  cbn [w_NewClient w_ListSecretVersions w_editor w_EDITOR
       w_createSecureTempFile w_openEditor w_ReadFile w_Run w_SetSecret
       w_secureDelete].
  clear sd0.
  split.
  - set (w1 := mkWorld nc lsv ed EDITOR ctf oe rf run ss (Some err)).
    set (w2 := mkWorld nc lsv ed EDITOR ctf oe rf run ss None).
    subst w1 w2.
    unfold call_runEdit, runEdit, ExitWithError, slice_to_8, pbind, emit,
           defer, ret, return_, os_Exit, panic.
    cbn [w_NewClient w_ListSecretVersions w_editor w_EDITOR
         w_createSecureTempFile w_openEditor w_ReadFile w_Run w_SetSecret
         w_secureDelete trace deferred].
    destruct nc as [?|]; cbn; [reflexivity|].
    destruct lsv as [[|latestVersion ?]|?]; cbn; try reflexivity.
    destruct ctf as [tempFile|?]; cbn; [|reflexivity].
    destruct (len (keyvault.Version latestVersion) <? 8); cbn; [reflexivity|].
    destruct oe as [?|]; cbn; [reflexivity|].
    destruct rf as [newValue|?]; cbn; [|reflexivity].
    destruct (String.eqb newValue (keyvault.Value latestVersion)); cbn; [reflexivity|].
    destruct run as [finalModel|?]; cbn; [|reflexivity].
    destruct (difftui.Confirmed finalModel); cbn; [|reflexivity].
    destruct ss as [?|]; cbn; reflexivity.
  - set (w1 := mkWorld nc lsv ed EDITOR ctf oe rf run ss (Some err)).
    generalize (eq_refl : w_secureDelete w1 = Some err).
    generalize w1 as w. clear. intros w.
    world_cases w; intros Hsd; cbn in Hsd; subst; cbn; intros H;
      try discriminate H; reflexivity.
Qed.

Local Opaque cat.

(** X12: when [runEdit] leaves through [os.Exit], the status is 1 and
    the last thing written is the one line "Error: ..." on the error
    stream. *)
Theorem os_Exit_status_and_message
    (w : World) (vaultName secretName : string) (code : Z) :
  fst (call_runEdit w vaultName secretName) = Exited code ->
  code = 1 /\
  filter is_Stderr (snd (call_runEdit w vaultName secretName))
    = [last (snd (call_runEdit w vaultName secretName)) (Stdout "")] /\
  exists err,
    last (snd (call_runEdit w vaultName secretName)) (Stdout "")
      = Stderr (cat ["Error: "; err; NL]).
Proof.
  world_cases w; deferred_cases; intros H; try discriminate H;
    injection H as <-;
    (split; [reflexivity|]; split; [reflexivity|]; eexists; reflexivity).
Qed.

Local Transparent cat.

Lemma os_Exit_status_and_message_witness :
  1 = 1 /\
  filter is_Stderr
    (snd (call_runEdit EditScenarios.world_editor_fails "vault" "db-password"))
    = [last (snd (call_runEdit EditScenarios.world_editor_fails "vault" "db-password"))
            (Stdout "")] /\
  exists err,
    last (snd (call_runEdit EditScenarios.world_editor_fails "vault" "db-password"))
         (Stdout "")
      = Stderr (cat ["Error: "; err; NL]).
Proof.
  apply (os_Exit_status_and_message EditScenarios.world_editor_fails
           "vault" "db-password" 1).
  reflexivity.
Defined.

End EditExtras.

(* ================================================================== *)
(** * Properties of the temp file                                      *)
(* ================================================================== *)

Module TempfileFacts.
Import strings edit tempfile.

Lemma bind_path_same (d : fs) (p : string) (f : option file) :
  bind_path d p f p = f.
Proof. unfold bind_path. now rewrite String.eqb_refl. Qed.

Lemma bind_path_other (d : fs) (p q : string) (f : option file) :
  q <> p -> bind_path d p f q = d q.
Proof.
  intros H. unfold bind_path. destruct (String.eqb_spec q p); [contradiction|reflexivity].
Qed.

Lemma length_append (s t : string) :
  String.length (String.append s t) = (String.length s + String.length t)%nat.
Proof. induction s as [|c r IH]; cbn; [reflexivity | now rewrite IH]. Qed.

Lemma length_string_of_bytes (l : list ascii) :
  String.length (string_of_bytes l) = List.length l.
Proof. induction l as [|b l IH]; cbn; congruence. Qed.

Lemma length_rand_Read (os : OS) (n : nat) : List.length (rand_Read os n) = n.
Proof. unfold rand_Read. now rewrite length_map, length_seq. Qed.

Lemma length_EncodeToString (src : list ascii) :
  String.length (hex.EncodeToString src) = (2 * List.length src)%nat.
Proof. induction src as [|b l IH]; cbn; [reflexivity | rewrite IH; lia]. Qed.

Lemma digit_injective (a b : nat) :
  (a < 16)%nat -> (b < 16)%nat -> hex.digit a = hex.digit b -> a = b.
Proof.
  intros Ha Hb H.
  do 16 (destruct a as [|a];
         [ do 16 (destruct b as [|b]; [first [reflexivity | discriminate H]|]); lia |]).
  lia.
Qed.

Lemma nat_of_ascii_lt_256 (b : ascii) : (nat_of_ascii b < 256)%nat.
Proof. apply nat_ascii_bounded. Qed.

Lemma two_digits_inv (hi lo hi' lo' : nat) (r r' : string) :
  String (hex.digit hi) (String (hex.digit lo) r)
    = String (hex.digit hi') (String (hex.digit lo') r') ->
  hex.digit hi = hex.digit hi' /\ hex.digit lo = hex.digit lo' /\ r = r'.
Proof. intros [= H1 H2 H3]. auto. Qed.

Lemma EncodeToString_injective (src : list ascii) :
  forall src', hex.EncodeToString src = hex.EncodeToString src' -> src = src'.
Proof.
  induction src as [|b l IH]; intros [|b' l'] H;
    try discriminate H; [reflexivity|].
  apply (two_digits_inv (nat_of_ascii b / 16) (nat_of_ascii b mod 16)
           (nat_of_ascii b' / 16) (nat_of_ascii b' mod 16)) in H.
  destruct H as (Hhi & Hlo & Hrest).
  pose proof (nat_of_ascii_lt_256 b) as Hb.
  pose proof (nat_of_ascii_lt_256 b') as Hb'.
  apply digit_injective in Hhi;
    [| apply Nat.Div0.div_lt_upper_bound; lia
     | apply Nat.Div0.div_lt_upper_bound; lia ].
  apply digit_injective in Hlo;
    [| apply Nat.mod_upper_bound; lia | apply Nat.mod_upper_bound; lia ].
  assert (Hn : nat_of_ascii b = nat_of_ascii b').
  { rewrite (Nat.div_mod_eq (nat_of_ascii b) 16),
            (Nat.div_mod_eq (nat_of_ascii b') 16). congruence. }
  f_equal; [|now apply IH].
  rewrite <- (ascii_nat_embedding b), <- (ascii_nat_embedding b'). congruence.
Qed.

Lemma append_cancel_r (t : string) :
  forall s s', String.append s t = String.append s' t -> s = s'.
Proof.
  induction s as [|c r IH]; intros [|c' r'] H; cbn in H.
  - reflexivity.
  - exfalso. apply (f_equal String.length) in H. cbn in H.
    rewrite length_append in H. lia.
  - exfalso. apply (f_equal String.length) in H. cbn in H.
    rewrite length_append in H. lia.
  - injection H as -> H. f_equal. now apply IH.
Qed.

(** X13: when [createSecureTempFile] succeeds, the path it returns is the
    joined temp directory and name, no file was there before, the file
    now there has mode 0600 and exactly the content, and every other path
    is as it was. *)
Theorem createSecureTempFile_creates
    (os : OS) (d d' : fs) (content path : string) :
  createSecureTempFile os d content = (Val path, d') ->
  path = Join os (TempDir os) (tempFileName (rand_Read os 16)) /\
  d path = None /\
  d' path = Some (mkFile mode_0600 content) /\
  (forall q, q <> path -> d' q = d q).
Proof.
  unfold createSecureTempFile.
  destruct (rand_err os); [discriminate|].
  set (p := Join os (TempDir os) (tempFileName (rand_Read os 16))).
  destruct (d p) eqn:Hp; [discriminate|].
  destruct (open_err os); [discriminate|].
  destruct (write_err os) as [[err n]|]; [discriminate|].
  intros [= <- <-]. repeat split.
  - exact Hp.
  - apply bind_path_same.
  - intros q Hq. now rewrite !bind_path_other by exact Hq.
Qed.

Lemma createSecureTempFile_creates_witness :
  "/tmp/kv-secret-000102030405060708090a0b0c0d0e0f.tmp"
    = Join (calm ascii_of_nat) (TempDir (calm ascii_of_nat))
           (tempFileName (rand_Read (calm ascii_of_nat) 16)) /\
  emptyDisk "/tmp/kv-secret-000102030405060708090a0b0c0d0e0f.tmp" = None /\
  snd (createSecureTempFile (calm ascii_of_nat) emptyDisk "secret1")
      "/tmp/kv-secret-000102030405060708090a0b0c0d0e0f.tmp"
    = Some (mkFile mode_0600 "secret1") /\
  (forall q, q <> "/tmp/kv-secret-000102030405060708090a0b0c0d0e0f.tmp" ->
     snd (createSecureTempFile (calm ascii_of_nat) emptyDisk "secret1") q
       = emptyDisk q).
Proof.
  apply (createSecureTempFile_creates (calm ascii_of_nat) emptyDisk
           (snd (createSecureTempFile (calm ascii_of_nat) emptyDisk "secret1"))
           "secret1" "/tmp/kv-secret-000102030405060708090a0b0c0d0e0f.tmp").
  reflexivity.
Defined.

(** X14: [createSecureTempFile] never changes a file that exists,
    whatever fails; and when it fails and its own clean-up [os.Remove]
    does not fail, it leaves the file system as it found it. *)
Theorem createSecureTempFile_spares_files (os : OS) (d : fs) (content : string) :
  (forall q f, d q = Some f ->
     snd (createSecureTempFile os d content) q = Some f) /\
  (forall err, fst (createSecureTempFile os d content) = Err err ->
     remove_err os = None ->
     forall q, snd (createSecureTempFile os d content) q = d q).
Proof.
  unfold createSecureTempFile.
  destruct (rand_err os); [cbn; split; auto|].
  set (p := Join os (TempDir os) (tempFileName (rand_Read os 16))).
  destruct (d p) eqn:Hp; [cbn; split; auto|].
  destruct (open_err os); [cbn; split; auto|].
  assert (Hother : forall q g, d q = Some g -> q <> p).
  { intros q g Hq ->. congruence. }
  destruct (write_err os) as [[err n]|]; cbn [fst snd].
  - split.
    + intros q g Hq. pose proof (Hother q g Hq) as Hne.
      destruct (remove_err os); now rewrite !bind_path_other by exact Hne.
    + intros e _ ->. intros q. destruct (String.eqb_spec q p) as [->|Hne].
      * now rewrite bind_path_same.
      * now rewrite !bind_path_other by exact Hne.
  - split; [|discriminate].
    intros q g Hq. pose proof (Hother q g Hq) as Hne.
    now rewrite !bind_path_other by exact Hne.
Qed.

(** X15: the name of the temp file is 46 bytes long, and two draws of
    random bytes that differ give two names that differ. *)
Theorem tempFileName_distinguishes_draws
    (os : OS) (randomBytes randomBytes' : list ascii) :
  String.length (tempFileName (rand_Read os 16)) = 46%nat /\
  (tempFileName randomBytes = tempFileName randomBytes' ->
   randomBytes = randomBytes').
Proof.
  split.
  - unfold tempFileName. rewrite !length_append, length_EncodeToString,
      length_rand_Read. reflexivity.
  - unfold tempFileName. intros H.
    cbn in H. repeat (injection H as H).
    apply append_cancel_r in H. now apply EncodeToString_injective.
Qed.

(** X16: [secureDelete] returns nil only when the file is gone; when it
    returns an error, a file that was there is still there, with its
    mode and its size; and no other path is touched. *)
Theorem secureDelete_nil_means_gone (os : OS) (d : fs) (filePath : string) :
  (fst (secureDelete os d filePath) = None ->
   snd (secureDelete os d filePath) filePath = None) /\
  (forall err info,
     fst (secureDelete os d filePath) = Some err -> d filePath = Some info ->
     exists left,
       snd (secureDelete os d filePath) filePath = Some left /\
       perm left = perm info /\
       String.length (data left) = String.length (data info)) /\
  (forall q, q <> filePath -> snd (secureDelete os d filePath) q = d q).
Proof.
  destruct (d filePath) as [info|] eqn:Hinfo; unfold secureDelete; rewrite Hinfo.
  2:{ cbn [fst snd]. split; [discriminate|]. split; [|reflexivity].
      intros ? ? _ H. discriminate H. }
  assert (Hearly : forall e : error,
            (fst (Some e, d) = None -> snd (Some e, d) filePath = None) /\
            (forall err info0, fst (Some e, d) = Some err ->
               Some info = Some info0 ->
               exists left, snd (Some e, d) filePath = Some left /\
                 perm left = perm info0 /\
                 String.length (data left) = String.length (data info0)) /\
            (forall q, q <> filePath -> snd (Some e, d) q = d q)).
  { intros e. cbn [fst snd]. split; [discriminate|]. split; [|reflexivity].
    intros ? info0 _ [= <-]. exists info. auto. }
  destruct (stat_err os); [apply Hearly|].
  destruct (open_err os); [apply Hearly|].
  destruct (rand_err os); [apply Hearly|].
  assert (Hrand : String.length
                    (string_of_bytes (rand_Read os (String.length (data info))))
                  = String.length (data info))
    by now rewrite length_string_of_bytes, length_rand_Read.
  assert (Hlate : forall (e : error) (content : string),
            String.length content = String.length (data info) ->
            let d1 := bind_path d filePath (Some (mkFile (perm info) content)) in
            (fst (Some e, d1) = None -> snd (Some e, d1) filePath = None) /\
            (forall err info0, fst (Some e, d1) = Some err ->
               Some info = Some info0 ->
               exists left, snd (Some e, d1) filePath = Some left /\
                 perm left = perm info0 /\
                 String.length (data left) = String.length (data info0)) /\
            (forall q, q <> filePath -> snd (Some e, d1) q = d q)).
  { intros e content Hlen d1. subst d1. cbn [fst snd].
    split; [discriminate|]. split.
    - intros ? info0 _ [= <-].
      eexists. split; [apply bind_path_same|]. cbn. auto.
    - intros q Hq. now apply bind_path_other. }
  destruct (write_err os) as [[err n]|].
  - apply Hlate.
    rewrite length_append, WrapFacts.length_take, WrapFacts.length_drop, Hrand.
    lia.
  - destruct (sync_err os); [now apply Hlate|].
    destruct (remove_err os); [now apply Hlate|].
    cbn [fst snd]. split; [intros _; apply bind_path_same|].
    split; [discriminate|].
    intros q Hq. now rewrite !bind_path_other by exact Hq.
Qed.

(** X17: when the write of [secureDelete] went through, the file holds
    only bytes of the random source, as many as it held before, also when
    [Sync] or [Remove] fails afterwards; when [secureDelete] fails before
    the write, the content is untouched. *)
Theorem secureDelete_overwrites_whole_file
    (os : OS) (d : fs) (filePath : string) (info : file) (err : error) :
  d filePath = Some info ->
  fst (secureDelete os d filePath) = Some err ->
  (write_err os = None -> stat_err os = None -> open_err os = None ->
   rand_err os = None ->
   snd (secureDelete os d filePath) filePath
     = Some (mkFile (perm info)
               (string_of_bytes (rand_Read os (String.length (data info)))))) /\
  ((stat_err os <> None \/ open_err os <> None \/ rand_err os <> None) ->
   snd (secureDelete os d filePath) filePath = Some info).
Proof.
  intros Hinfo. unfold secureDelete. rewrite Hinfo.
  destruct (stat_err os) as [e|].
  { cbn [fst snd]. intros _. split; [intros _ H; discriminate H | auto]. }
  destruct (open_err os) as [e|].
  { cbn [fst snd]. intros _. split; [intros _ _ H; discriminate H | auto]. }
  destruct (rand_err os) as [e|].
  { cbn [fst snd]. intros _. split; [intros _ _ _ H; discriminate H | auto]. }
  assert (Hno : (@None error <> None \/ @None error <> None \/ @None error <> None)
                -> False) by (intros [H|[H|H]]; now apply H).
  destruct (write_err os) as [[e n]|]; cbn [fst snd].
  - intros _. split; [intros H; discriminate H|]. intros H. now destruct (Hno H).
  - destruct (sync_err os); cbn [fst snd].
    + intros _. split; [intros; apply bind_path_same|].
      intros H. now destruct (Hno H).
    + destruct (remove_err os); cbn [fst snd]; [|discriminate].
      intros _. split; [intros; apply bind_path_same|].
      intros H. now destruct (Hno H).
Qed.

Lemma secureDelete_overwrites_whole_file_witness :
  (write_err (mkOS ascii_of_nat None "/tmp" (fun a b => b) None None None None
                   (Some "device busy")) = None ->
   stat_err (mkOS ascii_of_nat None "/tmp" (fun a b => b) None None None None
                  (Some "device busy")) = None ->
   open_err (mkOS ascii_of_nat None "/tmp" (fun a b => b) None None None None
                  (Some "device busy")) = None ->
   rand_err (mkOS ascii_of_nat None "/tmp" (fun a b => b) None None None None
                  (Some "device busy")) = None ->
   snd (secureDelete
          (mkOS ascii_of_nat None "/tmp" (fun a b => b) None None None None
                (Some "device busy"))
          (bind_path emptyDisk "/tmp/s" (Some (mkFile mode_0600 "secret1")))
          "/tmp/s") "/tmp/s"
     = Some (mkFile (perm (mkFile mode_0600 "secret1"))
               (string_of_bytes
                  (rand_Read
                     (mkOS ascii_of_nat None "/tmp" (fun a b => b) None None None
                           None (Some "device busy"))
                     (String.length (data (mkFile mode_0600 "secret1"))))))) /\
  ((stat_err (mkOS ascii_of_nat None "/tmp" (fun a b => b) None None None None
                   (Some "device busy")) <> None \/
    open_err (mkOS ascii_of_nat None "/tmp" (fun a b => b) None None None None
                   (Some "device busy")) <> None \/
    rand_err (mkOS ascii_of_nat None "/tmp" (fun a b => b) None None None None
                   (Some "device busy")) <> None) ->
   snd (secureDelete
          (mkOS ascii_of_nat None "/tmp" (fun a b => b) None None None None
                (Some "device busy"))
          (bind_path emptyDisk "/tmp/s" (Some (mkFile mode_0600 "secret1")))
          "/tmp/s") "/tmp/s"
     = Some (mkFile mode_0600 "secret1")).
Proof.
  apply (secureDelete_overwrites_whole_file
           (mkOS ascii_of_nat None "/tmp" (fun a b => b) None None None None
                 (Some "device busy"))
           (bind_path emptyDisk "/tmp/s" (Some (mkFile mode_0600 "secret1")))
           "/tmp/s" (mkFile mode_0600 "secret1") "device busy");
    reflexivity.
Defined.

(** X18: creating the temp file and deleting it again, with nothing
    failing, leaves the file system as it was before. *)
Theorem create_then_secureDelete_restores
    (os os' : OS) (d d1 d2 : fs) (content path : string) :
  createSecureTempFile os d content = (Val path, d1) ->
  secureDelete os' d1 path = (None, d2) ->
  forall q, d2 q = d q.
Proof.
  intros Hc Hd q.
  destruct (createSecureTempFile_creates os d d1 content path Hc)
    as (_ & Habsent & _ & Hother).
  destruct (secureDelete_nil_means_gone os' d1 path) as (Hgone & _ & Hrest).
  rewrite Hd in Hgone, Hrest. cbn [fst snd] in Hgone, Hrest.
  destruct (String.eqb_spec q path) as [->|Hne].
  - rewrite Hgone by reflexivity. now rewrite Habsent.
  - rewrite Hrest by exact Hne. now apply Hother.
Qed.

Lemma create_then_secureDelete_restores_witness :
  snd (secureDelete (calm ascii_of_nat)
         (snd (createSecureTempFile (calm ascii_of_nat) emptyDisk "secret1"))
         "/tmp/kv-secret-000102030405060708090a0b0c0d0e0f.tmp")
      "/tmp/kv-secret-000102030405060708090a0b0c0d0e0f.tmp"
  = emptyDisk "/tmp/kv-secret-000102030405060708090a0b0c0d0e0f.tmp".
Proof.
  apply (create_then_secureDelete_restores (calm ascii_of_nat) (calm ascii_of_nat)
           emptyDisk
           (snd (createSecureTempFile (calm ascii_of_nat) emptyDisk "secret1"))
           (snd (secureDelete (calm ascii_of_nat)
                   (snd (createSecureTempFile (calm ascii_of_nat) emptyDisk "secret1"))
                   "/tmp/kv-secret-000102030405060708090a0b0c0d0e0f.tmp"))
           "secret1" "/tmp/kv-secret-000102030405060708090a0b0c0d0e0f.tmp");
    reflexivity.
Defined.

End TempfileFacts.

(* ================================================================== *)
(** * Properties of the paging loop of ListSecretVersions              *)
(* ================================================================== *)

Module ListingFacts.
Import strings edit keyvault listing.

(** What is true of a version the loop has appended. *)
Definition wellListed (GetSecret : string -> result (option string))
                      (v : SecretVersion) : Prop :=
  Version v <> "" /\ Value v = valueFor GetSecret (Version v).

Lemma appendProps_listed
    (GetSecret : string -> result (option string))
    (props : SecretProperties) (versions : list SecretVersion) :
  skippedOrAttributed props = true ->
  exists new,
    appendProps GetSecret props versions = Ok (versions ++ new) /\
    map Version new = listed props /\
    Forall (wellListed GetSecret) new.
Proof.
  unfold skippedOrAttributed, listed, appendProps, versionLiteral, hasAttributes,
         wellListed, valueFor.
  destruct (ID props) as [version|].
  2:{ intros _. exists []. rewrite app_nil_r. auto. }
  destruct (String.eqb_spec version "") as [E|E].
  { intros _. exists []. rewrite app_nil_r. auto. }
  destruct (Attributes props) as [a|]; [intros _|discriminate].
  destruct (GetSecret version) as [[s|]|err] eqn:G; cbn [bind];
    (eexists; split; [reflexivity|]; split; [reflexivity|];
     constructor; [|constructor]; cbn [Version Value]; rewrite G;
     split; [exact E | reflexivity]).
Qed.

Lemma appendPage_listed
    (GetSecret : string -> result (option string))
    (page : list SecretProperties) :
  forallb skippedOrAttributed page = true ->
  forall versions,
  exists new,
    appendPage GetSecret page versions = Ok (versions ++ new) /\
    map Version new = flat_map listed page /\
    Forall (wellListed GetSecret) new.
Proof.
  induction page as [|props rest IH]; intros Hsafe versions.
  - exists []. rewrite app_nil_r. cbn. auto.
  - cbn in Hsafe. apply andb_prop in Hsafe. destruct Hsafe as [Hp Hrest].
    destruct (appendProps_listed GetSecret props versions Hp) as (n1 & E1 & M1 & F1).
    destruct (IH Hrest (versions ++ n1)) as (n2 & E2 & M2 & F2).
    exists (n1 ++ n2). cbn [appendPage]. rewrite E1. cbn [bind]. rewrite E2.
    rewrite app_assoc. split; [reflexivity|].
    split; [cbn; now rewrite map_app, M1, M2 | now apply Forall_app].
Qed.

Lemma fetchPages_listed
    (GetSecret : string -> result (option string))
    (pages : list (result (list SecretProperties))) :
  allFetched pages = true ->
  forallb skippedOrAttributed (entries pages) = true ->
  forall versions,
  exists new,
    fetchPages GetSecret pages versions = Ok (Val (versions ++ new)) /\
    map Version new = flat_map listed (entries pages) /\
    Forall (wellListed GetSecret) new.
Proof.
  induction pages as [|[page|err] rest IH]; intros Hall Hsafe versions.
  - exists []. rewrite app_nil_r. cbn. auto.
  - cbn in Hall. cbn [entries] in Hsafe. rewrite forallb_app in Hsafe.
    apply andb_prop in Hsafe. destruct Hsafe as [Hp Hrest].
    destruct (appendPage_listed GetSecret page Hp versions) as (n1 & E1 & M1 & F1).
    destruct (IH Hall Hrest (versions ++ n1)) as (n2 & E2 & M2 & F2).
    exists (n1 ++ n2). cbn [fetchPages]. rewrite E1. cbn [bind]. rewrite E2.
    rewrite app_assoc. split; [reflexivity|].
    split; [cbn [entries]; now rewrite map_app, flat_map_app, M1, M2
           | now apply Forall_app].
  - discriminate Hall.
Qed.

(** X19: when every page is fetched and every entry the loop lists
    carries attributes, [ListSecretVersions] returns the sorted list of
    one version for each entry that has an ID with a version that is not
    empty, in the order of the pages before the sort; each has that
    version as its id, and as its value the secret, or the text of the
    error when the secret could not be fetched (the version is not left
    out). *)
Theorem ListSecretVersions_lists_every_id
    (sort_Slice : (SecretVersion -> SecretVersion -> bool) ->
                  list SecretVersion -> list SecretVersion)
    (GetSecret : string -> result (option string))
    (pages : list (result (list SecretProperties))) :
  allFetched pages = true ->
  forallb skippedOrAttributed (entries pages) = true ->
  exists versions,
    listing.ListSecretVersions sort_Slice GetSecret pages
      = Ok (Val (sort_Slice less versions)) /\
    map Version versions = flat_map listed (entries pages) /\
    Forall (fun v => Version v <> "" /\
                     Value v = valueFor GetSecret (Version v)) versions.
Proof.
  intros Hall Hsafe.
  destruct (fetchPages_listed GetSecret pages Hall Hsafe []) as (new & E & M & F).
  exists new. unfold listing.ListSecretVersions. rewrite E. cbn [bind app].
  split; [reflexivity|]. split; [exact M | exact F].
Qed.

Lemma ListSecretVersions_lists_every_id_witness :
  exists versions,
    listing.ListSecretVersions sort.reversingSort vault
        [Val [propsA; propsNoId]; Val [propsB]]
      = Ok (Val (sort.reversingSort less versions)) /\
    map Version versions
      = flat_map listed (entries [Val [propsA; propsNoId]; Val [propsB]]) /\
    Forall (fun v => Version v <> "" /\
                     Value v = valueFor vault (Version v)) versions.
Proof.
  apply (ListSecretVersions_lists_every_id sort.reversingSort vault
           [Val [propsA; propsNoId]; Val [propsB]]);
    reflexivity.
Defined.

(** X20: when a page cannot be fetched, [ListSecretVersions] returns the
    error "failed to get page: ..." and none of the versions of the pages
    fetched before it. *)
Theorem ListSecretVersions_page_error
    (sort_Slice : (SecretVersion -> SecretVersion -> bool) ->
                  list SecretVersion -> list SecretVersion)
    (GetSecret : string -> result (option string))
    (before after : list (result (list SecretProperties))) (err : error) :
  allFetched before = true ->
  forallb skippedOrAttributed (entries before) = true ->
  listing.ListSecretVersions sort_Slice GetSecret (before ++ Err err :: after)
    = Ok (Err (cat ["failed to get page: "; err])).
Proof.
  intros Hall Hsafe. unfold listing.ListSecretVersions.
  assert (H : forall versions,
             fetchPages GetSecret (before ++ Err err :: after) versions
             = Ok (Err (cat ["failed to get page: "; err]))).
  { revert Hall Hsafe. induction before as [|[page|e] rest IH];
      intros Hall Hsafe versions.
    - reflexivity.
    - cbn in Hall. cbn [entries] in Hsafe. rewrite forallb_app in Hsafe.
      apply andb_prop in Hsafe. destruct Hsafe as [Hp Hrest].
      destruct (appendPage_listed GetSecret page Hp versions) as (n1 & E1 & _).
      cbn [app fetchPages]. rewrite E1. cbn [bind]. now apply IH.
    - discriminate Hall. }
  rewrite H. reflexivity.
Qed.

Lemma ListSecretVersions_page_error_witness :
  listing.ListSecretVersions sort.reversingSort vault
      ([Val [propsA; propsB]] ++ Err "context deadline exceeded" :: [Val [propsNoId]])
    = Ok (Err (cat ["failed to get page: "; "context deadline exceeded"])).
Proof.
  apply (ListSecretVersions_page_error sort.reversingSort vault
           [Val [propsA; propsB]] [Val [propsNoId]] "context deadline exceeded");
    reflexivity.
Defined.

(** X21: an entry that the loop lists (it has an ID with a version that
    is not empty) and that carries no attributes makes
    [ListSecretVersions] panic: [Enabled] is computed behind a nil check,
    [props.Attributes.Created] is not. *)
Theorem ListSecretVersions_nil_attributes_panic
    (sort_Slice : (SecretVersion -> SecretVersion -> bool) ->
                  list SecretVersion -> list SecretVersion)
    (GetSecret : string -> result (option string))
    (earlier rest : list (result (list SecretProperties)))
    (before after : list SecretProperties) (props : SecretProperties) :
  allFetched earlier = true ->
  forallb skippedOrAttributed (entries earlier) = true ->
  forallb skippedOrAttributed before = true ->
  listed props <> [] ->
  Attributes props = None ->
  listing.ListSecretVersions sort_Slice GetSecret
      (earlier ++ Val (before ++ props :: after) :: rest)
    = Panic "invalid memory address or nil pointer dereference".
Proof.
  intros Hall Hsafe Hbefore Hlisted Hnil. unfold listing.ListSecretVersions.
  assert (Hprops : forall versions,
             appendProps GetSecret props versions
             = Panic "invalid memory address or nil pointer dereference").
  { intros versions. unfold appendProps, versionLiteral. unfold listed in Hlisted.
    destruct (ID props) as [version|]; [|contradiction].
    destruct (String.eqb version ""); [contradiction|].
    rewrite Hnil. destruct (GetSecret version); reflexivity. }
  assert (Hpage : forall versions,
             appendPage GetSecret (before ++ props :: after) versions
             = Panic "invalid memory address or nil pointer dereference").
  { revert Hbefore. induction before as [|p l IH]; intros Hbefore versions.
    - cbn [app appendPage]. now rewrite Hprops.
    - cbn in Hbefore. apply andb_prop in Hbefore. destruct Hbefore as [Hp Hl].
      destruct (appendProps_listed GetSecret p versions Hp) as (n1 & E1 & _).
      cbn [app appendPage]. rewrite E1. cbn [bind]. now apply IH. }
  assert (H : forall versions,
             fetchPages GetSecret
               (earlier ++ Val (before ++ props :: after) :: rest) versions
             = Panic "invalid memory address or nil pointer dereference").
  { revert Hall Hsafe. induction earlier as [|[page|e] l IH];
      intros Hall Hsafe versions.
    - cbn [app fetchPages]. now rewrite Hpage.
    - cbn in Hall. cbn [entries] in Hsafe. rewrite forallb_app in Hsafe.
      apply andb_prop in Hsafe. destruct Hsafe as [Hp Hrest].
      destruct (appendPage_listed GetSecret page Hp versions) as (n1 & E1 & _).
      cbn [app fetchPages]. rewrite E1. cbn [bind]. now apply IH.
    - discriminate Hall. }
  rewrite H. reflexivity.
Qed.

Lemma ListSecretVersions_nil_attributes_panic_witness :
  listing.ListSecretVersions sort.reversingSort vault
      ([Val [propsA]] ++ Val ([propsNoId] ++ propsBare :: [propsB]) :: [])
    = Panic "invalid memory address or nil pointer dereference".
Proof.
  apply (ListSecretVersions_nil_attributes_panic sort.reversingSort vault
           [Val [propsA]] [] [propsNoId] [propsB] propsBare);
    try reflexivity.
  discriminate.
Defined.

Lemma lookup_not_bound {V : Type} (key : string) (m : list (string * V)) :
  ~ In key (map fst m) -> lookup key m = None.
Proof.
  induction m as [|[k v] rest IH]; cbn; [reflexivity|].
  intros H. destruct (String.eqb_spec key k) as [->|_]; [tauto|].
  apply IH. tauto.
Qed.

Lemma convertTags_keys (tags : list (string * option string)) (key : string) :
  In key (map fst (convertTags (Some tags))) -> In key (map fst tags).
Proof.
  cbn. induction tags as [|[k [v|]] rest IH]; cbn; tauto.
Qed.

(** X22: [convertTags] keeps exactly the tags whose value is not nil: a
    key is bound in the result to the string its pointer pointed to, and
    a key that was absent or bound to nil is absent. *)
Theorem convertTags_lookup (tags : list (string * option string)) (key : string) :
  NoDup (map fst tags) ->
  lookup key (convertTags (Some tags)) =
  match lookup key tags with
  | Some (Some value) => Some value
  | _ => None
  end.
Proof.
  induction tags as [|[k v] rest IH]; intros Hnd; [reflexivity|].
  cbn in Hnd. apply NoDup_cons_iff in Hnd. destruct Hnd as [Hk Hrest].
  specialize (IH Hrest).
  cbn [lookup]. destruct (String.eqb_spec key k) as [->|Hne].
  - destruct v as [value|].
    + cbn. now rewrite String.eqb_refl.
    + change (convertTags (Some ((k, None) :: rest))) with (convertTags (Some rest)).
      apply lookup_not_bound. intros Hin. apply Hk.
      now apply convertTags_keys.
  - destruct v as [value|].
    + cbn. destruct (String.eqb_spec key k); [contradiction|]. exact IH.
    + exact IH.
Qed.

Lemma convertTags_lookup_witness :
  lookup "owner" (convertTags (Some [("env", Some "prod"); ("owner", None)])) =
  match lookup "owner" [("env", Some "prod"); ("owner", None)] with
  | Some (Some value) => Some value
  | _ => None
  end.
Proof.
  apply (convertTags_lookup [("env", Some "prod"); ("owner", None)] "owner").
  repeat constructor; cbn; intuition discriminate.
Defined.

End ListingFacts.

(* ================================================================== *)
(** * Further properties of the browse session                         *)
(* ================================================================== *)

Module BrowseExtras.
Import strings tui ViewportProps BrowseProps BrowseFacts SessionProps ViewportFacts RenderFacts.

Lemma maxWidth_of_Width (m n : Model) :
  viewport.Width (viewport n) = viewport.Width (viewport m) ->
  maxWidth n = maxWidth m.
Proof. unfold maxWidth. now intros ->. Qed.

(** After [updateViewportContent] the pane holds the rows of the version
    under the cursor. *)
Lemma updateViewportContent_rows (n : Model) :
  cursor_in_range n -> 0 <= viewport.Height (viewport n) ->
  exists n',
    updateViewportContent n = Ok n' /\
    versions n' = versions n /\ currentIdx n' = currentIdx n /\
    viewport.Height (viewport n') = viewport.Height (viewport n) /\
    browseShowsCurrent n'.
Proof.
  intros Hin Hh.
  destruct (updateViewportContent_shows_current n Hin (or_introl Hh))
    as (v & s & pane & Hnth & Hs & _ & Hw & Hh' & Hl & _ & ->).
  eexists. split; [reflexivity|].
  cbn [versions currentIdx viewport set_viewport].
  repeat (split; [reflexivity || exact Hh'|]).
  intros _. exists v, s. cbn [versions currentIdx viewport set_viewport].
  split; [exact Hnth|]. split; [|split; [|exact Hl]].
  - rewrite <- Hs. f_equal. apply maxWidth_of_Width. exact Hw.
  - intros Hfit. now apply (wrapTextWithLineNumbers_shows _ (maxWidth n)).
Qed.

(** What one message does to the cursor and to the pane, in a window
    that is not lower than 5 rows. *)
Lemma browse_Update_step (m : Model) (msg : tea.Msg) :
  cursor_in_range m -> 0 <= viewport.Height (viewport m) -> tallEnough msg ->
  exists m' cmd,
    Update m msg = Ok (m', cmd) /\
    versions m' = versions m /\ cursor_in_range m' /\
    0 <= viewport.Height (viewport m') /\
    (forall rest,
       cursorWalk (Z.of_nat (List.length (versions m))) (currentIdx m)
                  (msg :: rest)
       = cursorWalk (Z.of_nat (List.length (versions m))) (currentIdx m') rest) /\
    (browseShowsCurrent m -> browseShowsCurrent m').
Proof.
  intros Hin Hh Htall.
  assert (Hsame : forall cmd : tea.Cmd, exists m' cmd',
             Ok (m, cmd) = Ok (m', cmd') /\
             versions m' = versions m /\ cursor_in_range m' /\
             0 <= viewport.Height (viewport m') /\
             (forall rest,
                cursorWalk (Z.of_nat (List.length (versions m))) (currentIdx m) rest
                = cursorWalk (Z.of_nat (List.length (versions m)))
                             (currentIdx m') rest) /\
             (browseShowsCurrent m -> browseShowsCurrent m')).
  { intros cmd. exists m, cmd. auto 10. }
  assert (Hrender : forall n idx,
             versions n = versions m -> currentIdx n = idx ->
             0 <= idx < Z.of_nat (List.length (versions m)) ->
             0 <= viewport.Height (viewport n) ->
             exists m' cmd',
               (n' <- updateViewportContent n ;; Ok (n', tea.NoCmd))
                 = Ok (m', cmd') /\
               versions m' = versions m /\ cursor_in_range m' /\
               0 <= viewport.Height (viewport m') /\
               currentIdx m' = idx /\
               (browseShowsCurrent m -> browseShowsCurrent m')).
  { intros n idx Hv Hi Hidx Hn.
    destruct (updateViewportContent_rows n) as (n' & -> & Hv' & Hi' & Hh' & Hs);
      [unfold cursor_in_range; rewrite Hv, Hi; exact Hidx | exact Hn|].
    cbn [bind]. exists n', tea.NoCmd. split; [reflexivity|].
    split; [congruence|].
    split; [unfold cursor_in_range; rewrite Hv', Hi', Hv, Hi; exact Hidx|].
    split; [now rewrite Hh'|]. split; [congruence | auto]. }
  assert (Hforward : forall cmd0 : tea.Cmd, exists m' cmd',
             (pane <- viewport.Update (viewport m) msg ;;
              Ok (set_viewport m pane, cmd0)) = Ok (m', cmd') /\
             versions m' = versions m /\ cursor_in_range m' /\
             0 <= viewport.Height (viewport m') /\
             currentIdx m' = currentIdx m /\
             (browseShowsCurrent m -> browseShowsCurrent m')).
  { intros cmd0.
    destruct (ViewportFacts.pane_Update_returns (viewport m) msg Hh)
      as (pane & -> & (Hpw & Hph & Hpl) & _).
    cbn [bind]. do 2 eexists. split; [reflexivity|].
    cbn [versions currentIdx viewport set_viewport].
    split; [reflexivity|]. split; [exact Hin|]. split; [now rewrite Hph|].
    split; [reflexivity|].
    intros Hshown Hready.
    destruct (Hshown Hready) as (v & s & Hnth & Hs & Hshow & Hl).
    exists v, s. cbn [versions currentIdx viewport set_viewport].
    split; [exact Hnth|]. split; [|split; [exact Hshow | congruence]].
    rewrite <- Hs. f_equal. apply maxWidth_of_Width. exact Hpw. }
  unfold cursor_in_range in Hin.
  destruct msg as [k|w h|]; cbn [Update cursorWalk].
  - destruct (key_in k ["esc"; "q"; "ctrl+c"]); [apply Hsame|].
    destruct (key_in k ["left"; "h"]).
    { destruct (Z.gtb_spec (currentIdx m) 0).
      - destruct (Hrender (set_currentIdx m (currentIdx m - 1))
                          (currentIdx m - 1) eq_refl eq_refl ltac:(lia) Hh)
          as (m' & cmd & HU & Hv & Hc & Hh' & Hi & Hs).
        exists m', cmd. repeat (split; [assumption|]).
        split; [|exact Hs]. intros rest. rewrite Hi. f_equal. lia.
      - destruct (Hsame tea.NoCmd) as (m' & cmd & [= <- <-] & _).
        exists m, tea.NoCmd. split; [reflexivity|].
        repeat (split; [auto; fail|]). split; [|auto].
        intros rest. f_equal. lia. }
    destruct (key_in k ["right"; "l"]).
    { destruct (Z.ltb_spec (currentIdx m)
                  (Z.of_nat (List.length (versions m)) - 1)).
      - destruct (Hrender (set_currentIdx m (currentIdx m + 1))
                          (currentIdx m + 1) eq_refl eq_refl ltac:(lia) Hh)
          as (m' & cmd & HU & Hv & Hc & Hh' & Hi & Hs).
        exists m', cmd. repeat (split; [assumption|]).
        split; [|exact Hs]. intros rest. rewrite Hi. f_equal. lia.
      - exists m, tea.NoCmd. split; [reflexivity|].
        repeat (split; [auto; fail|]). split; [|auto].
        intros rest. f_equal. lia. }
    destruct (Hforward tea.NoCmd) as (m' & cmd & HU & Hv & Hc & Hh' & Hi & Hs).
    exists m', cmd. repeat (split; [assumption|]).
    split; [|exact Hs]. intros rest. now rewrite Hi.
  - cbn [tallEnough] in Htall.
    pose proof (paneHeight_not_negative h Htall) as Hpane.
    cbn [ready set_size]. destruct (ready m); cbn [negb];
      match goal with
      | |- context [updateViewportContent ?n] =>
          destruct (Hrender n (currentIdx m) eq_refl eq_refl Hin)
            as (m' & cmd & HU & Hv & Hc & Hh' & Hi & Hs);
            [ exact Hpane
            | exists m', cmd; repeat (split; [assumption|]);
              split; [|exact Hs]; intros rest; now rewrite Hi ]
      end.
  - destruct (Hforward tea.NoCmd) as (m' & cmd & HU & Hv & Hc & Hh' & Hi & Hs).
    exists m', cmd. repeat (split; [assumption|]).
    split; [|exact Hs]. intros rest. now rewrite Hi.
Qed.

Lemma browse_run_steps (msgs : list tea.Msg) :
  Forall tallEnough msgs ->
  forall m, cursor_in_range m -> 0 <= viewport.Height (viewport m) ->
    exists m',
      run m msgs = Ok m' /\ versions m' = versions m /\
      currentIdx m' = cursorWalk (Z.of_nat (List.length (versions m)))
                                 (currentIdx m) msgs /\
      (browseShowsCurrent m -> browseShowsCurrent m').
Proof.
  induction 1 as [|msg rest Hmsg Hrest IH]; intros m Hin Hh; cbn [run].
  - exists m. auto.
  - destruct (browse_Update_step m msg Hin Hh Hmsg)
      as (m1 & cmd & -> & Hv & Hc & Hh1 & Hw & Hs).
    cbn [bind fst].
    destruct (IH m1 Hc Hh1) as (m' & Hrun & Hv' & Hi' & Hs').
    exists m'. split; [exact Hrun|]. split; [congruence|].
    split; [rewrite Hi', Hv; symmetry; apply Hw | auto].
Qed.

(** X23: in a browse session started by [runShow], in windows that are
    not lower than 5 rows, [Update] handles every message, and the
    cursor is where the previous and next keys lead from 0, each step
    clamped to the indices of the list; window sizes, scroll keys, quit
    keys and other messages do not move it. *)
Theorem browse_cursor_follows_keys
    (versions : list keyvault.SecretVersion) (secretName : string)
    (m0 : Model) (msgs : list tea.Msg) :
  show.runShow_session versions secretName = Some m0 ->
  Forall tallEnough msgs ->
  exists m,
    run m0 msgs = Ok m /\
    currentIdx m = cursorWalk (Z.of_nat (List.length versions)) 0 msgs.
Proof.
  unfold show.runShow_session.
  destruct (Nat.eqb_spec (List.length versions) 0) as [|Hlen]; [discriminate|].
  intros [= <-] Htall.
  assert (H0 : cursor_in_range (NewModel versions secretName))
    by (unfold cursor_in_range; cbn; lia).
  destruct (browse_run_steps msgs Htall _ H0 (Z.le_refl 0)) as (m & Hrun & _ & Hi & _).
  exists m. split; [exact Hrun | exact Hi].
Qed.

Lemma browse_cursor_follows_keys_witness :
  exists m,
    run (NewModel [newer; older] "api-token") scrolledKeys = Ok m /\
    currentIdx m
    = cursorWalk (Z.of_nat (List.length [newer; older])) 0 scrolledKeys.
Proof.
  apply (browse_cursor_follows_keys [newer; older] "api-token"
           (NewModel [newer; older] "api-token") scrolledKeys).
  - reflexivity.
  - repeat constructor; cbn; lia.
Defined.

(** X28: the renderer of the browse pane returns for every text and
    every width, and for a width of zero or less it gives what it gives
    for 40. *)
Theorem wrapTextWithLineNumbers_returns (text : string) (width : Z) :
  (exists rendered, wrapTextWithLineNumbers text width = Ok rendered) /\
  (width <= 0 ->
   wrapTextWithLineNumbers text width = wrapTextWithLineNumbers text 40).
Proof.
  split.
  - apply wrapTextWithLineNumbers_total.
  - apply wrapTextWithLineNumbers_fallback.
Qed.

(** X24: in a browse session started by [runShow], in windows that are
    not lower than 5 rows, once a window size has been seen the pane
    always holds the rows of the version under the cursor, wrapped to
    the width the pane has now, whatever keys and sizes came in. *)
Theorem browse_pane_shows_cursor_version
    (versions : list keyvault.SecretVersion) (secretName : string)
    (m0 : Model) (msgs : list tea.Msg) :
  show.runShow_session versions secretName = Some m0 ->
  Forall tallEnough msgs ->
  exists m, run m0 msgs = Ok m /\ browseShowsCurrent m.
Proof.
  unfold show.runShow_session.
  destruct (Nat.eqb_spec (List.length versions) 0) as [|Hlen]; [discriminate|].
  intros [= <-] Htall.
  assert (H0 : cursor_in_range (NewModel versions secretName))
    by (unfold cursor_in_range; cbn; lia).
  destruct (browse_run_steps msgs Htall _ H0 (Z.le_refl 0)) as (m & Hrun & _ & _ & Hs).
  exists m. split; [exact Hrun|]. apply Hs. intros H. discriminate H.
Qed.

Lemma browse_pane_shows_cursor_version_witness :
  exists m,
    run (NewModel [newer; older] "api-token") scrolledKeys = Ok m /\
    browseShowsCurrent m.
Proof.
  apply (browse_pane_shows_cursor_version [newer; older] "api-token"
           (NewModel [newer; older] "api-token") scrolledKeys).
  - reflexivity.
  - repeat constructor; cbn; lia.
Defined.

End BrowseExtras.

(* ================================================================== *)
(** * Further properties of the review session                         *)
(* ================================================================== *)

Module ReviewExtras.
Import strings difftui ViewportProps SessionProps ViewportFacts BrowseFacts ReviewFacts.

(** The wrap width of the panes in a window at least 30 columns wide,
    and their height in a window at least 6 rows high. *)
Lemma paneWrapWidth_positive (w : Z) :
  30 <= w < 2 ^ 63 -> 0 < int_sub (int_sub (int_div w 2) 4) 10.
Proof.
  intros Hw. unfold int_sub, int_div.
  assert (Hq : 15 <= Z.quot w 2 < 2 ^ 62).
  { rewrite Z.quot_div_nonneg by lia.
    pose proof (Z.div_mod w 2 ltac:(lia)).
    pose proof (Z.mod_pos_bound w 2 ltac:(lia)). lia. }
  rewrite (wrap64_small (Z.quot w 2)) by lia.
  rewrite (wrap64_small (Z.quot w 2 - 4)) by lia.
  rewrite wrap64_small by lia. lia.
Qed.

Lemma reviewPaneHeight_not_negative (h : Z) :
  6 <= h < 2 ^ 63 -> 0 <= int_sub (int_sub h 3) 3.
Proof.
  intros Hh. unfold int_sub.
  rewrite (wrap64_small (h - 3)) by lia. rewrite wrap64_small by lia. lia.
Qed.

(** What [updateViewportContent] returns when it returns. *)
Lemma updateViewportContent_result (m m' : Model) :
  updateViewportContent m = Ok m' ->
  exists oldContent newContent pane1 pane2,
    renderDiffLines
      (fst (computeDiff (Split_newline (oldValue m)) (Split_newline (newValue m))))
      (int_sub (viewport.Width (leftViewport m)) 10) true = Ok oldContent /\
    renderDiffLines
      (snd (computeDiff (Split_newline (oldValue m)) (Split_newline (newValue m))))
      (int_sub (viewport.Width (leftViewport m)) 10) false = Ok newContent /\
    viewport.SetContent (leftViewport m) oldContent = Ok pane1 /\
    viewport.SetContent (rightViewport m) newContent = Ok pane2 /\
    m' = set_viewports m pane1 pane2.
Proof.
  unfold updateViewportContent.
  destruct (renderDiffLines (fst _) _ true) as [oldContent| |]; cbn [bind];
    try discriminate.
  destruct (renderDiffLines (snd _) _ false) as [newContent| |]; cbn [bind];
    try discriminate.
  destruct (viewport.SetContent (leftViewport m) oldContent) as [pane1| |] eqn:E1;
    cbn [bind]; try discriminate.
  destruct (viewport.SetContent (rightViewport m) newContent) as [pane2| |] eqn:E2;
    cbn [bind]; try discriminate.
  intros [= <-]. exists oldContent, newContent, pane1, pane2. auto 10.
Qed.

Lemma updateViewportContent_returns (m : Model) :
  0 < int_sub (viewport.Width (leftViewport m)) 10 ->
  0 <= viewport.Height (leftViewport m) ->
  0 <= viewport.Height (rightViewport m) ->
  exists m', updateViewportContent m = Ok m'.
Proof.
  intros Hw Hl Hr. unfold updateViewportContent.
  destruct (renderDiffLines_total
              (fst (computeDiff (Split_newline (oldValue m))
                                (Split_newline (newValue m))))
              _ true Hw) as [s1 ->].
  destruct (renderDiffLines_total
              (snd (computeDiff (Split_newline (oldValue m))
                                (Split_newline (newValue m))))
              _ false Hw) as [s2 ->].
  cbn [bind].
  destruct (SetContent_returns (leftViewport m) s1 (or_introl Hl))
    as (pane1 & -> & _).
  destruct (SetContent_returns (rightViewport m) s2 (or_introl Hr))
    as (pane2 & -> & _).
  cbn [bind]. eauto.
Qed.

(** After [updateViewportContent] on panes of one size, a session that is
    ready shows the diff. *)
Lemma updateViewportContent_shows (m m' : Model) :
  viewport.Width (leftViewport m) = viewport.Width (rightViewport m) ->
  viewport.Height (leftViewport m) = viewport.Height (rightViewport m) ->
  updateViewportContent m = Ok m' ->
  oldValue m' = oldValue m /\ newValue m' = newValue m /\
  secretName m' = secretName m /\ ready m' = ready m /\
  confirmed m' = confirmed m /\ cancelled m' = cancelled m /\
  viewport.Height (leftViewport m') = viewport.Height (leftViewport m) /\
  viewport.Height (rightViewport m') = viewport.Height (rightViewport m) /\
  reviewShowsDiff m'.
Proof.
  intros HW HH H.
  destruct (updateViewportContent_result m m' H)
    as (oc & nc & pane1 & pane2 & Ho & Hn & H1 & H2 & ->).
  destruct (SetContent_stores _ _ _ H1) as (Hlw & Hlh & Hll).
  destruct (SetContent_stores _ _ _ H2) as (Hrw & Hrh & Hrl).
  cbn [oldValue newValue secretName ready confirmed cancelled set_viewports
       leftViewport rightViewport].
  repeat (split; [reflexivity || assumption|]).
  intros _. cbn [leftViewport rightViewport oldValue newValue set_viewports].
  split; [congruence|]. split; [congruence|].
  exists oc, nc. rewrite Hlw. auto.
Qed.

(** Panes that keep their sizes and rows keep showing the diff. *)
Lemma shows_with_same_rows (m : Model) (l r : viewport.Model) :
  reviewShowsDiff m ->
  sameRows (leftViewport m) l -> sameRows (rightViewport m) r ->
  reviewShowsDiff (set_viewports m l r).
Proof.
  intros Hshown (Lw & Lh & Ll) (Rw & Rh & Rl) Hready.
  destruct (Hshown Hready) as (HW & HH & oc & nc & Ho & Hn & Hl & Hr).
  cbn [leftViewport rightViewport oldValue newValue set_viewports].
  split; [congruence|]. split; [congruence|].
  exists oc, nc. rewrite Lw, Ll, Rl. auto.
Qed.

Lemma cancel_key_does_not_confirm (k : string) :
  key_in k ["esc"; "q"; "n"; "N"] = true ->
  key_in k ["y"; "Y"; "enter"] = false.
Proof.
  unfold key_in. intros H.
  apply existsb_exists in H. destruct H as (x & Hin & Heq).
  apply String.eqb_eq in Heq. subst x. cbn in Hin.
  repeat (destruct Hin as [<-|Hin]; [reflexivity|]).
  contradiction.
Qed.

(** What one message does to the values, the display and the flags. *)
Lemma review_Update_step (m m' : Model) (msg : tea.Msg) (cmd : tea.Cmd) :
  Update m msg = Ok (m', cmd) ->
  (oldValue m' = oldValue m /\ newValue m' = newValue m /\
   secretName m' = secretName m) /\
  (reviewShowsDiff m -> reviewShowsDiff m') /\
  confirmed m' = confirmed m || handled ["y"; "Y"; "enter"] [msg] /\
  cancelled m' = cancelled m || handled ["esc"; "q"; "n"; "N"] [msg].
Proof.
  destruct msg as [k|w h|]; cbn [Update handled existsb].
  - destruct (key_in k ["esc"; "q"; "n"; "N"]) eqn:Hcancel.
    { rewrite (cancel_key_does_not_confirm k Hcancel).
      intros [= <- <-]. cbn. rewrite !orb_false_r, orb_true_r. auto. }
    destruct (key_in k ["y"; "Y"; "enter"]) eqn:Hconfirm.
    { intros [= <- <-]. cbn. rewrite !orb_false_r, orb_true_r. auto. }
    destruct (key_in k scrollKeys).
    + destruct (viewport.Update (leftViewport m) (tea.KeyMsg k))
        as [pane| |] eqn:E; cbn [bind]; try discriminate.
      intros H.
      assert (E' : m' = set_viewports m pane
                          (viewport.SetYOffset (rightViewport m)
                             (viewport.YOffset pane)))
        by (injection H as <- _; reflexivity).
      subst m'. cbn [oldValue newValue secretName confirmed cancelled
                     set_viewports orb].
      rewrite !orb_false_r.
      split; [auto|]. split; [|auto].
      intros Hshown. apply shows_with_same_rows;
        [exact Hshown | exact (pane_Update_keeps _ _ _ E) | apply SetYOffset_keeps].
    + intros [= <- <-]. cbn [orb]. rewrite !orb_false_r. auto.
  - cbn [ready set_size]. rewrite !orb_false_r.
    destruct (ready m); cbn [negb];
      (destruct (updateViewportContent _) as [n| |] eqn:E; cbn [bind];
       try discriminate; intros [= <- <-];
       apply updateViewportContent_shows in E; [|reflexivity|reflexivity];
       destruct E as (E1 & E2 & E3 & _ & E5 & E6 & _ & _ & E7);
       cbn [oldValue newValue secretName confirmed cancelled
            set_viewports set_ready set_size] in *;
       auto 10).
  - intros [= <- <-]. rewrite !orb_false_r. auto.
Qed.

Lemma review_run_steps (msgs : list tea.Msg) :
  forall m m',
    run m msgs = Ok m' ->
    (oldValue m' = oldValue m /\ newValue m' = newValue m /\
     secretName m' = secretName m) /\
    (reviewShowsDiff m -> reviewShowsDiff m') /\
    confirmed m' = confirmed m || handled ["y"; "Y"; "enter"] msgs /\
    cancelled m' = cancelled m || handled ["esc"; "q"; "n"; "N"] msgs.
Proof.
  induction msgs as [|msg rest IH]; intros m m'; cbn [run].
  - intros [= <-]. cbn. rewrite !orb_false_r. auto.
  - destruct (Update m msg) as [[m1 cmd]| |] eqn:HU; cbn [bind fst];
      try discriminate.
    destruct (review_Update_step m m1 msg cmd HU) as ((V1 & V2 & V3) & Hs & Hc & Hx).
    intros Hrun. destruct (IH m1 m' Hrun) as ((W1 & W2 & W3) & Hs' & Hc' & Hx').
    split; [repeat split; congruence|]. split; [auto|].
    rewrite Hc', Hx', Hc, Hx. cbn [handled existsb].
    rewrite !orb_false_r, !orb_assoc. auto.
Qed.

(** X25: the review session never alters the two values or the name it
    was created with.  [Confirmed()] is true exactly when one of the
    keys [y], [Y], [enter] was handled, and [Cancelled()] exactly when
    one of [esc], [q], [n], [N] was: [Update] sets a flag and never
    clears one, so a confirming key that is handled after a cancelling
    key still confirms. *)
Theorem review_flags_follow_the_keys
    (oldText newText name : string) (msgs : list tea.Msg) (m : Model) :
  run (NewModel oldText newText name) msgs = Ok m ->
  oldValue m = oldText /\ newValue m = newText /\ secretName m = name /\
  Confirmed m = handled ["y"; "Y"; "enter"] msgs /\
  Cancelled m = handled ["esc"; "q"; "n"; "N"] msgs.
Proof.
  intros H. destruct (review_run_steps msgs _ _ H) as ((V1 & V2 & V3) & _ & Hc & Hx).
  cbn in V1, V2, V3, Hc, Hx. unfold Confirmed, Cancelled. auto.
Qed.

Lemma review_flags_follow_the_keys_witness :
  oldValue reviewEnd = ReviewScenarios.oldSettings /\
  newValue reviewEnd = ReviewScenarios.newSettings /\
  secretName reviewEnd = "orders-db" /\
  Confirmed reviewEnd = handled ["y"; "Y"; "enter"] reviewKeys /\
  Cancelled reviewEnd = handled ["esc"; "q"; "n"; "N"] reviewKeys.
Proof.
  apply (review_flags_follow_the_keys ReviewScenarios.oldSettings
           ReviewScenarios.newSettings "orders-db" reviewKeys reviewEnd).
  vm_compute. reflexivity.
Defined.

(** X26: whenever the review session has handled its messages and has
    seen a window size, its panes have one width and one height and hold
    the rows of the two sides of the diff of its two values, wrapped to
    the width of a pane less 10 (a carriage return before the end of a
    row does not reach the pane); scroll keys change offsets only. *)
Theorem review_panes_show_the_diff
    (oldText newText name : string) (msgs : list tea.Msg) (m : Model) :
  run (NewModel oldText newText name) msgs = Ok m ->
  reviewShowsDiff m.
Proof.
  intros H. destruct (review_run_steps msgs _ _ H) as (_ & Hs & _).
  apply Hs. intros Hready. discriminate Hready.
Qed.

Lemma review_panes_show_the_diff_witness : reviewShowsDiff reviewEnd.
Proof.
  apply (review_panes_show_the_diff ReviewScenarios.oldSettings
           ReviewScenarios.newSettings "orders-db" reviewKeys reviewEnd).
  vm_compute. reflexivity.
Defined.

(** One message, in panes whose height is not negative. *)
Lemma review_Update_returns (m : Model) (msg : tea.Msg) :
  roomy msg ->
  0 <= viewport.Height (leftViewport m) ->
  0 <= viewport.Height (rightViewport m) ->
  exists m' cmd,
    Update m msg = Ok (m', cmd) /\
    0 <= viewport.Height (leftViewport m') /\
    0 <= viewport.Height (rightViewport m').
Proof.
  intros Hroomy Hl Hr.
  destruct msg as [k|w h|]; cbn [Update roomy] in *.
  - destruct (key_in k ["esc"; "q"; "n"; "N"]); [eauto|].
    destruct (key_in k ["y"; "Y"; "enter"]); [eauto|].
    destruct (key_in k scrollKeys); [|eauto].
    destruct (ViewportFacts.pane_Update_returns (leftViewport m) (tea.KeyMsg k) Hl)
      as (pane & -> & (_ & Hh & _) & _).
    cbn [bind]. do 2 eexists. split; [reflexivity|].
    cbn [leftViewport rightViewport set_viewports viewport.SetYOffset
         viewport.Height].
    split; [now rewrite Hh | exact Hr].
  - destruct Hroomy as [Hw Hh].
    pose proof (paneWrapWidth_positive w Hw) as Hpos.
    pose proof (reviewPaneHeight_not_negative h Hh) as Hnn.
    cbn [ready set_size]. destruct (ready m); cbn [negb];
      match goal with
      | |- context [updateViewportContent ?n] =>
          destruct (updateViewportContent_returns n Hpos Hnn Hnn) as [n' E];
          rewrite E; cbn [bind];
          apply updateViewportContent_shows in E; [|reflexivity|reflexivity];
          destruct E as (_ & _ & _ & _ & _ & _ & El & Er & _);
          exists n', tea.NoCmd; split; [reflexivity|];
          rewrite El, Er; split; exact Hnn
      end.
  - eauto.
Qed.

(** X27: a review session handles every sequence of messages without a
    panic and without looping as long as no window is narrower than 30
    columns or lower than 6 rows: the wrap width of its panes is then
    positive and their height is not negative. *)
Theorem review_session_returns_in_roomy_windows
    (oldText newText name : string) (msgs : list tea.Msg) :
  Forall roomy msgs ->
  exists m, run (NewModel oldText newText name) msgs = Ok m.
Proof.
  intros Hall.
  assert (H : forall m0,
             0 <= viewport.Height (leftViewport m0) ->
             0 <= viewport.Height (rightViewport m0) ->
             exists m, run m0 msgs = Ok m).
  { induction Hall as [|msg rest Hmsg Hrest IH]; intros m0 Hl Hr; cbn [run];
      [eauto|].
    destruct (review_Update_returns m0 msg Hmsg Hl Hr) as (m1 & cmd & -> & Hl1 & Hr1).
    cbn [bind fst]. now apply IH. }
  apply H; cbn; lia.
Qed.

Lemma review_session_returns_in_roomy_windows_witness :
  exists m,
    run (NewModel ReviewScenarios.oldSettings ReviewScenarios.newSettings
                  "orders-db") reviewKeys = Ok m.
Proof.
  apply (review_session_returns_in_roomy_windows
           ReviewScenarios.oldSettings ReviewScenarios.newSettings
           "orders-db" reviewKeys).
  repeat constructor; cbn; lia.
Defined.

End ReviewExtras.

(* ================================================================== *)
(** * Windows that are too low for the panes                           *)
(* ================================================================== *)

Module LowWindowExtras.
Import strings ViewportProps SessionProps ViewportFacts BrowseFacts.

(** In a pane of negative height that stands at its top and has a row,
    the down key moves the offset to 1, and the page-up key then asks
    for the rows from [1 - Height] to 1. *)
Lemma low_pane_page_up_panics (pane : viewport.Model) :
  viewport.Height pane < 0 -> viewport.YOffset pane = 0 ->
  viewport.lines pane <> [] ->
  exists pane',
    viewport.Update pane (tea.KeyMsg "down") = Ok pane' /\
    viewport.Update pane' (tea.KeyMsg "pgup")
      = Panic "slice bounds out of range".
Proof.
  intros Hh Hy Hl.
  assert (Hlen : 1 <= Z.of_nat (List.length (viewport.lines pane))).
  { destruct (viewport.lines pane); [contradiction | cbn [List.length]; lia]. }
  assert (Hne : (List.length (viewport.lines pane) =? 0)%nat = false).
  { apply Nat.eqb_neq. lia. }
  set (pane' := viewport.SetYOffset pane (viewport.YOffset pane + 1)).
  assert (Hy' : viewport.YOffset pane' = 1).
  { subst pane'. unfold viewport.SetYOffset, viewport.maxYOffset, viewport.clamp.
    cbn [viewport.YOffset]. lia. }
  exists pane'. split.
  - change (viewport.Update pane (tea.KeyMsg "down"))
      with (viewport.LineDown pane 1).
    unfold viewport.LineDown, viewport.AtBottom.
    fold pane'. rewrite Hne.
    destruct (Z.geb_spec (viewport.YOffset pane) (viewport.maxYOffset pane))
      as [H|_]; [unfold viewport.maxYOffset in H; lia|].
    cbn [orb Z.eqb].
    match goal with
    | |- context [viewport.slice ?m ?top ?bottom] =>
        destruct (slice_returns m top bottom) as [rows ->]
    end; try (unfold viewport.clamp; subst pane'; cbn [viewport.lines viewport.SetYOffset]; lia).
    reflexivity.
  - change (viewport.Update pane' (tea.KeyMsg "pgup"))
      with (viewport.ViewUp pane').
    assert (Hh' : viewport.Height pane' = viewport.Height pane) by reflexivity.
    assert (Hl' : viewport.lines pane' = viewport.lines pane) by reflexivity.
    unfold viewport.ViewUp, viewport.LineUp, viewport.AtTop.
    rewrite Hy', Hh', Hl', Hne.
    destruct (Z.eqb_spec (viewport.Height pane) 0) as [H|_]; [lia|].
    cbn [Z.leb Z.compare orb].
    unfold viewport.slice, viewport.SetYOffset, viewport.maxYOffset,
      viewport.clamp.
    cbn [viewport.YOffset viewport.Height viewport.lines].
    rewrite Hh', Hl'.
    match goal with
    | |- context [(?x <=? ?y) && (?u <=? ?v) && _] =>
        destruct (Z.leb_spec u v) as [H|_]; [lia|]
    end.
    now rewrite andb_false_r.
Qed.

Lemma low_height (h d : Z) :
  0 <= h < d -> d <= 6 -> d = 5 \/ d = 6 ->
  int_sub (int_sub h 3) (d - 3) = h - d.
Proof.
  intros Hh Hd _. unfold int_sub.
  rewrite (wrap64_small (h - 3)) by lia. rewrite wrap64_small by lia. lia.
Qed.

(** X29: in every window lower than 5 rows the pane of the browse
    session has a negative height, which [Update] does not guard: after
    the down key, the page-up key makes the viewport slice its rows out
    of range, and [Update] panics. *)
Theorem browse_low_window_page_up_panics
    (versions : list keyvault.SecretVersion) (secretName : string)
    (m0 : tui.Model) (w h : Z) :
  show.runShow_session versions secretName = Some m0 ->
  0 <= h < 5 ->
  tui.run m0 [tea.WindowSizeMsg w h; tea.KeyMsg "down"; tea.KeyMsg "pgup"]
    = Panic "slice bounds out of range".
Proof.
  unfold show.runShow_session.
  destruct (Nat.eqb_spec (List.length versions) 0) as [|Hlen]; [discriminate|].
  intros [= <-] Hh.
  assert (Hin : BrowseProps.cursor_in_range (tui.NewModel versions secretName))
    by (unfold BrowseProps.cursor_in_range; cbn; lia).
  cbn [tui.run tui.Update tui.ready tui.NewModel tui.set_size negb].
  match goal with
  | |- context [tui.updateViewportContent ?n] =>
      destruct (updateViewportContent_shows_current n) as
        (v & s & pane & _ & _ & _ & _ & Hph & Hpl & Hpy & ->);
        [exact Hin | right; reflexivity |]
  end.
  cbn [tui.viewport tui.set_viewport tui.set_ready viewport.New
       viewport.Height viewport.YOffset] in Hph, Hpy.
  change 2 with (5 - 3) in Hph. rewrite (low_height h 5) in Hph by lia.
  destruct (low_pane_page_up_panics pane) as (pane' & Hdown & Hup).
  { lia. }
  { apply Hpy. lia. }
  { rewrite Hpl. pose proof (Split_newline_length (ReplaceAll_CRLF s)) as H.
    destruct (Split_newline (ReplaceAll_CRLF s)); [cbn in H; lia | discriminate]. }
  cbn [bind fst tui.key_in existsb String.eqb Ascii.eqb Bool.eqb orb
       tui.viewport tui.set_viewport].
  rewrite Hdown. cbn [bind fst tui.viewport tui.set_viewport].
  rewrite Hup. reflexivity.
Qed.

Lemma browse_low_window_page_up_panics_witness :
  tui.run (tui.NewModel [BrowseProps.newer; BrowseProps.older] "api-token")
          [tea.WindowSizeMsg 80 3; tea.KeyMsg "down"; tea.KeyMsg "pgup"]
    = Panic "slice bounds out of range".
Proof.
  apply (browse_low_window_page_up_panics
           [BrowseProps.newer; BrowseProps.older] "api-token"
           (tui.NewModel [BrowseProps.newer; BrowseProps.older] "api-token")
           80 3).
  - reflexivity.
  - lia.
Defined.

Lemma updateViewportContent_returns_at_top (m : difftui.Model) :
  0 < int_sub (viewport.Width (difftui.leftViewport m)) 10 ->
  viewport.YOffset (difftui.leftViewport m) = 0 ->
  viewport.YOffset (difftui.rightViewport m) = 0 ->
  exists m', difftui.updateViewportContent m = Ok m'.
Proof.
  intros Hw Hl Hr. unfold difftui.updateViewportContent.
  destruct (ReviewFacts.renderDiffLines_total
              (fst (difftui.computeDiff (Split_newline (difftui.oldValue m))
                                        (Split_newline (difftui.newValue m))))
              _ true Hw) as [s1 ->].
  destruct (ReviewFacts.renderDiffLines_total
              (snd (difftui.computeDiff (Split_newline (difftui.oldValue m))
                                        (Split_newline (difftui.newValue m))))
              _ false Hw) as [s2 ->].
  cbn [bind].
  destruct (SetContent_returns (difftui.leftViewport m) s1 (or_intror Hl))
    as (pane1 & -> & _).
  destruct (SetContent_returns (difftui.rightViewport m) s2 (or_intror Hr))
    as (pane2 & -> & _).
  cbn [bind]. eauto.
Qed.

(** X30: the same in the review session, in every window lower than 6
    rows (and wide enough for the panes to be rendered). *)
Theorem review_low_window_page_up_panics
    (oldText newText name : string) (w h : Z) :
  30 <= w < 2 ^ 63 -> 0 <= h < 6 ->
  difftui.run (difftui.NewModel oldText newText name)
              [tea.WindowSizeMsg w h; tea.KeyMsg "down"; tea.KeyMsg "pgup"]
    = Panic "slice bounds out of range".
Proof.
  intros Hw Hh.
  pose proof (ReviewExtras.paneWrapWidth_positive w Hw) as Hpos.
  cbn [difftui.run difftui.Update difftui.ready difftui.NewModel
       difftui.set_size negb].
  match goal with
  | |- context [difftui.updateViewportContent ?n] =>
      destruct (updateViewportContent_returns_at_top n Hpos eq_refl eq_refl)
        as [m1 E]; rewrite E
  end.
  destruct (ReviewExtras.updateViewportContent_result _ _ E)
    as (oc & nc & pane1 & pane2 & _ & _ & H1 & _ & ->).
  cbn [difftui.leftViewport difftui.set_viewports difftui.set_ready] in H1.
  destruct (SetContent_stores _ _ _ H1) as (_ & Hph & Hpl).
  destruct (SetContent_returns
              (viewport.New (int_sub (int_div w 2) 4) (int_sub (int_sub h 3) 3))
              oc (or_intror eq_refl)) as (pane1' & H1' & Hpy & _).
  rewrite H1 in H1'. injection H1' as <-.
  cbn [viewport.New viewport.Height viewport.YOffset] in Hph, Hpy.
  change (int_sub (int_sub h 3) 3) with (int_sub (int_sub h 3) (6 - 3)) in Hph.
  rewrite (low_height h 6) in Hph by lia.
  destruct (low_pane_page_up_panics pane1) as (pane' & Hdown & Hup).
  { lia. }
  { now apply Hpy. }
  { rewrite Hpl. pose proof (Split_newline_length (ReplaceAll_CRLF oc)) as H.
    destruct (Split_newline (ReplaceAll_CRLF oc)); [cbn in H; lia | discriminate]. }
  cbn [bind fst difftui.key_in existsb String.eqb Ascii.eqb Bool.eqb orb
       difftui.scrollKeys difftui.leftViewport difftui.rightViewport
       difftui.set_viewports].
  rewrite Hdown.
  cbn [bind fst difftui.leftViewport difftui.rightViewport
       difftui.set_viewports].
  rewrite Hup. reflexivity.
Qed.

Lemma review_low_window_page_up_panics_witness :
  difftui.run (difftui.NewModel "secret1" "secret2" "db-password")
              [tea.WindowSizeMsg 80 2; tea.KeyMsg "down"; tea.KeyMsg "pgup"]
    = Panic "slice bounds out of range".
Proof.
  apply (review_low_window_page_up_panics "secret1" "secret2" "db-password"
           80 2); lia.
Defined.

End LowWindowExtras.
